(** * Resilience layer of the Sorting Hat file organiser

    A shallow embedding of the JavaScript classes that make up the
    resilience layer, and the properties of each that the specification
    relies on:

    - [ApiService], class ApiService of
      .history/service_20250301134215.js: fetchWithRetry and its cache;
    - [Watchdog], class Watchdog of .history/watchdog_20250301135358.js:
      checkService and handleServiceFailure;
    - [SystemProtection], class SystemProtection of
      .history/system_protection_20250301135358.js: the memory guard and
      the file-integrity guard;
    - [ErrorRecovery], class ErrorRecovery (the JavaScript that follows
      the batch script in permission_fix.bat): withRetry, recordFailure
      and initiateRecovery;
    - [PerformanceOptimizer], class PerformanceOptimizer (the JavaScript
      that follows the batch script in
      .history/start_sorting_hat_20250301001720.bat): scheduleOperation
      and processQueue.

    Objects that the code mutates become records threaded through the
    functions; the outside world (network, process table, memory
    readings, clock, the file-system calls that may throw) is an oracle
    the functions read; every externally visible action is appended to
    a trace.  Console output is left out.

    Part I holds the embedding, Part II the properties. *)

From Stdlib Require Import Ascii ZArith Lia.
From Stdlib Require PrimFloat Uint63.
From stdpp Require Import gmap strings list sorting.

#[local] Set Warnings "-register-all".
Local Open Scope Z_scope.

(** * Part I: the embedding *)

(** ** JavaScript values *)

Module Js.

(** JSON-shaped values as they come out of [JSON.parse] and of an HTTP
    response body.  Numbers are restricted to integers. *)
Inductive value : Type :=
| Undefined
| Null
| Bool (b : bool)
| Num (z : Z)
| Str (s : string)
| Arr (items : list value)
| Obj (fields : list (string * value)).

(** [ToBoolean]: what [if (v)] and [v || d] test. *)
Definition truthy (v : value) : bool :=
  match v with
  | Undefined | Null => false
  | Bool b => b
  | Num z => negb (z =? 0)
  | Str s => negb (String.eqb s "")
  | Arr _ | Obj _ => true
  end.

(** A counter or timestamp held in an object property: an integer, or
    [NaN] once arithmetic has touched [undefined]. *)
Inductive number : Type :=
| NaN
| Int (z : Z).

(** [o[k]++] stores [ToNumber(o[k]) + 1]; a missing property reads
    [undefined], whose number is [NaN]. *)
Definition incr (n : option number) : number :=
  match n with
  | Some (Int z) => Int (z + 1)
  | Some NaN | None => NaN
  end.

Definition sub (a b : option number) : number :=
  match a, b with
  | Some (Int x), Some (Int y) => Int (x - y)
  | _, _ => NaN
  end.

(** Comparisons with [NaN] or [undefined] are false. *)
Definition geb (a : option number) (b : Z) : bool :=
  match a with
  | Some (Int x) => b <=? x
  | _ => false
  end.

Definition ltb (a : option number) (b : Z) : bool :=
  match a with
  | Some (Int x) => x <? b
  | _ => false
  end.

Definition gtb (a : option number) (b : Z) : bool :=
  match a with
  | Some (Int x) => b <? x
  | _ => false
  end.

(** The double that holds an integer (exactly, below 2^53). *)
Definition double (z : Z) : PrimFloat.float :=
  if z <? 0
  then PrimFloat.opp (PrimFloat.of_uint63 (Uint63.of_Z (- z)))
  else PrimFloat.of_uint63 (Uint63.of_Z z).

(** [Array.prototype.sort(cmp)] is stable: an element moves in front of
    another only when the comparator says it is smaller. *)
Fixpoint insert_sorted {A : Type} (cmp : A -> A -> Z) (x : A) (l : list A)
    : list A :=
  match l with
  | [] => [x]
  | y :: rest =>
      if cmp x y <=? 0 then x :: l else y :: insert_sorted cmp x rest
  end.

Definition sort {A : Type} (cmp : A -> A -> Z) (l : list A) : list A :=
  foldr (insert_sorted cmp) [] l.

(** [s.startsWith(p)] *)
Fixpoint startsWith (p s : string) : bool :=
  match p, s with
  | EmptyString, _ => true
  | String a p', String b s' => Ascii.eqb a b && startsWith p' s'
  | String _ _, EmptyString => false
  end.

(** [s.toLowerCase()], on the letters A to Z. *)
Definition lower (c : ascii) : ascii :=
  let n := nat_of_ascii c in
  if (65 <=? n)%nat && (n <=? 90)%nat then ascii_of_nat (n + 32) else c.

Fixpoint toLowerCase (s : string) : string :=
  match s with
  | EmptyString => EmptyString
  | String c rest => String (lower c) (toLowerCase rest)
  end.

(** [s.replace(/\\/g, '/')]: every backslash becomes a slash. *)
Fixpoint slashes (s : string) : string :=
  match s with
  | EmptyString => EmptyString
  | String c rest =>
      String (if Ascii.eqb c "\"%char then "/"%char else c) (slashes rest)
  end.

(** Whether the character occurs in the string. *)
Fixpoint occurs (c : ascii) (s : string) : bool :=
  match s with
  | EmptyString => false
  | String d rest => Ascii.eqb c d || occurs c rest
  end.

(** The property names that every object created by [{}] inherits from
    Object.prototype. *)
Definition inherited (k : string) : bool :=
  existsb (String.eqb k)
    ["constructor"; "hasOwnProperty"; "isPrototypeOf";
     "propertyIsEnumerable"; "toLocaleString"; "toString"; "valueOf";
     "__defineGetter__"; "__defineSetter__"; "__lookupGetter__";
     "__lookupSetter__"; "__proto__"]%string.

(** What [o[k]] reads in an object created by [{}] whose own properties
    hold numbers: an own property, a member of Object.prototype (a
    function, or the prototype itself for [__proto__]), or undefined. *)
Inductive slot : Type :=
| Own (n : number)
| Inherited
| Absent.

(** [__proto__] is an accessor of Object.prototype: it never becomes an
    own property, and an assignment of a number to it does nothing. *)
Definition getProp (o : gmap string number) (k : string) : slot :=
  if String.eqb k "__proto__" then Inherited
  else match o !! k with
       | Some n => Own n
       | None => if inherited k then Inherited else Absent
       end.

Definition setProp (k : string) (n : number) (o : gmap string number)
    : gmap string number :=
  if String.eqb k "__proto__" then o else <[k := n]> o.

(** [!o[k]] *)
Definition falsy (s : slot) : bool :=
  match s with
  | Own NaN | Absent => true
  | Own (Int z) => z =? 0
  | Inherited => false
  end.

(** The number [o[k]++] stores: [ToNumber(o[k]) + 1]. *)
Definition succ (s : slot) : number :=
  match s with
  | Own (Int z) => Int (z + 1)
  | Own NaN | Inherited | Absent => NaN
  end.

(** [o[k] >= b] *)
Definition reaches (s : slot) (b : Z) : bool :=
  match s with
  | Own (Int z) => b <=? z
  | Own NaN | Inherited | Absent => false
  end.

End Js.

(** ** ApiService *)

Module ApiService.

(** An axios error: [response] is absent for network errors and
    timeouts, and carries the HTTP status otherwise. *)
Record error := { message : string; response : option Z }.

(** How one [await axios(...)] settles. *)
Inductive outcome :=
| Resolved (data : Js.value)
| Rejected (e : error).

(** A file of the cache directory as [JSON.parse] reads it back: the
    object with its two fields, or content on which parsing (or the
    field access) throws. *)
Inductive file :=
| Garbage
| Entry (data timestamp : Js.value).

Inductive event :=
| Request (url method : string) (timeout : Z)
| Sleep (ms : Z)
| WriteCache (name : string)
| WriteFailed (name : string).

(** The cache directory (file name to content), the file names on which
    [fs.writeFileSync] throws (a name the file system refuses, a file
    that cannot be opened for writing), the number of requests issued
    so far, and what the call did. *)
Record world := {
  cache : gmap string file;
  refuses : string -> bool;
  sent : nat;
  trace : list event
}.

Record service := { baseUrl : string; retryDelays : list Z }.

Record options := {
  cacheFirst : bool;
  method : option string;
  timeout : option Z
}.

Inductive result :=
| Return (v : Js.value)
| Throw (e : error).

(** constructor(baseUrl, cachePath) *)
Definition new (url : option string) : service :=
  {| baseUrl := default "http://localhost:3000/api"%string url;
     retryDelays := [1000; 2000; 5000; 10000; 30000] |}.

Definition emit (ev : event) (w : world) : world :=
  {| cache := cache w; refuses := refuses w; sent := sent w;
     trace := trace w ++ [ev] |}.

Definition issue (ev : event) (w : world) : world :=
  {| cache := cache w; refuses := refuses w; sent := S (sent w);
     trace := trace w ++ [ev] |}.

(** A call of [fs.writeFileSync] that succeeds. *)
Definition store (name : string) (f : file) (w : world) : world :=
  {| cache := <[name := f]> (cache w); refuses := refuses w;
     sent := sent w; trace := trace w ++ [WriteCache name] |}.

(** endpoint.replace(/\//g, '_') *)
Fixpoint replace_slashes (s : string) : string :=
  match s with
  | EmptyString => EmptyString
  | String c rest =>
      String (if Ascii.eqb c "/"%char then "_"%char else c)
             (replace_slashes rest)
  end.

(** The file name inside the cache directory. *)
Definition getCachePath (endpoint : string) : string :=
  (replace_slashes endpoint ++ ".json")%string.

Definition getFromCache (w : world) (endpoint : string) : Js.value :=
  match cache w !! getCachePath endpoint with
  | Some (Entry data _) => data
  | Some Garbage => Js.Null
  | None => Js.Null
  end.

Definition getCacheTimestamp (w : world) (endpoint : string) : Js.value :=
  match cache w !! getCachePath endpoint with
  | Some (Entry _ timestamp) => timestamp
  | Some Garbage => Js.Null
  | None => Js.Null
  end.

(** cacheResponse(endpoint, data), at the clock reading [now].  The
    write sits in a try block whose catch only logs: when
    [fs.writeFileSync] throws, the cache directory stays as it was.
    A response body is a JSON value, which [JSON.stringify] and
    [JSON.parse] hand back unchanged. *)
Definition cacheResponse (endpoint : string) (data : Js.value)
    (now : string) (w : world) : world :=
  let cachePath := getCachePath endpoint in
  if refuses w cachePath then emit (WriteFailed cachePath) w
  else store cachePath (Entry data (Js.Str now)) w.

Definition isRetryableError (e : error) : bool :=
  match response e with
  | None => true
  | Some status => 500 <=? status
  end.

(** { data: cachedData, fromCache: true, timestamp: ... } *)
Definition fromCache (w : world) (endpoint : string) (cachedData : Js.value)
    : Js.value :=
  Js.Obj [("data"%string, cachedData);
          ("fromCache"%string, Js.Bool true);
          ("timestamp"%string, getCacheTimestamp w endpoint)].

Section Fetch.

Variable self : service.
(** [net n] is how the [n]-th request ever issued settles, and
    [isoNow n] the clock reading when its response is cached. *)
Variable net : nat -> outcome.
Variable isoNow : nat -> string.

Definition request (endpoint : string) (opts : options) : event :=
  Request (baseUrl self ++ "/" ++ endpoint)%string
          (default "GET"%string (method opts))
          (match timeout opts with
           | Some t => if t =? 0 then 10000 else t
           | None => 10000
           end).

(** [fetchWithRetry] calls itself with [retryCount + 1], at most once
    per entry of [retryDelays]; [fuel] bounds the calls still to make.
    The cache directory changes only through this call. *)
Fixpoint fetchWithRetry_fuel (fuel : nat) (endpoint : string)
    (opts : options) (retryCount : nat) (w : world)
    : option (result * world) :=
  match fuel with
  | O => None
  | S fuel' =>
      if cacheFirst opts && Js.truthy (getFromCache w endpoint)
      then Some (Return (fromCache w endpoint (getFromCache w endpoint)), w)
      else
        let w1 := issue (request endpoint opts) w in
        match net (sent w) with
        | Resolved data =>
            Some (Return data,
                  cacheResponse endpoint data (isoNow (sent w)) w1)
        | Rejected e =>
            if (retryCount <? length (retryDelays self))%nat
               && isRetryableError e
            then
              let delay := default 0 (retryDelays self !! retryCount) in
              fetchWithRetry_fuel fuel' endpoint opts (S retryCount)
                                  (emit (Sleep delay) w1)
            else
              let cachedData := getFromCache w1 endpoint in
              if Js.truthy cachedData
              then Some (Return (fromCache w1 endpoint cachedData), w1)
              else Some (Throw e, w1)
        end
  end.

Definition fetchWithRetry (endpoint : string) (opts : options)
    (retryCount : nat) (w : world) : option (result * world) :=
  fetchWithRetry_fuel (S (length (retryDelays self) - retryCount))
                      endpoint opts retryCount w.

End Fetch.

(** The [n]-th request fails with an error that isRetryableError
    accepts: no response at all, or a status of 500 and above. *)
Definition failsRetryably (net : nat -> outcome) (n : nat) : Prop :=
  exists e, net n = Rejected e /\ isRetryableError e = true.

(** Observations on a trace. *)
Definition is_request (ev : event) : bool :=
  match ev with Request _ _ _ => true | _ => false end.

Definition attempts (tr : list event) : nat :=
  length (List.filter is_request tr).

Definition delays (tr : list event) : list Z :=
  omap (fun ev => match ev with Sleep ms => Some ms | _ => None end) tr.

(** What a call that fails on every attempt leaves in the trace:
    a request, then a sleep and a request per delay. *)
Definition schedule (rq : event) (ds : list Z) : list event :=
  rq :: flat_map (fun d => [Sleep d; rq]) ds.

(** Sample inputs: a server that refuses every connection, one that
    answers 404, and a cache directory holding one entry for the
    endpoint "patterns". *)
Definition refused : error :=
  {| message := "connect ECONNREFUSED"; response := None |}.

Definition notFound : error :=
  {| message := "Request failed with status code 404";
     response := Some 404 |}.

Definition offline : nat -> outcome := fun _ => Rejected refused.

Definition answers404 : nat -> outcome := fun _ => Rejected notFound.

Definition anyTime : nat -> string := fun _ => "2025-03-01T13:42:15.000Z"%string.

Definition plain : options :=
  {| cacheFirst := false; method := None; timeout := None |}.

Definition emptyWorld : world :=
  {| cache := ∅; refuses := fun _ => false; sent := 0; trace := [] |}.

Definition cachedWorld (data : Js.value) : world :=
  {| cache := {[ getCachePath "patterns" :=
                   Entry data (Js.Str "2025-02-28T09:00:00.000Z") ]};
     refuses := fun _ => false; sent := 0; trace := [] |}.

(** clearCache: every file of the cache directory is unlinked. *)
Definition clearCache (w : world) : world :=
  {| cache := ∅; refuses := refuses w; sent := sent w; trace := trace w |}.

(** The options with the cacheFirst flag set as given. *)
Definition withCacheFirst (flag : bool) (opts : options) : options :=
  {| cacheFirst := flag; method := method opts; timeout := timeout opts |}.

Section Reports.

Variable self : service.
Variable net : nat -> outcome.
Variable isoNow : nat -> string.

(** getEvolutionReport and getPatterns.  Each wraps its call in
    try/catch but returns the promise of fetchWithRetry without
    awaiting it; a rejection of that promise settles the returned
    promise and never enters the catch block, so the substitute object
    ({ data: ..., fromCache: false, error: true }) is never built. *)
Definition getEvolutionReport (w : world) : option (result * world) :=
  fetchWithRetry self net isoNow "evolution/report"
                 {| cacheFirst := true; method := None; timeout := None |}
                 0 w.

Definition getPatterns (w : world) : option (result * world) :=
  fetchWithRetry self net isoNow "patterns"
                 {| cacheFirst := true; method := None; timeout := None |}
                 0 w.

End Reports.

(** What a call that fails [k] times and then succeeds leaves in the
    trace: a request and a sleep per failure, then the request that is
    answered and the write of the cache file, done or failed. *)
Definition recovered (rq : event) (ds : list Z) (written : event)
    : list event :=
  flat_map (fun d => [rq; Sleep d]) ds ++ [rq; written].

(** What the answered request leaves in the trace after itself. *)
Definition written (w : world) (endpoint : string) : event :=
  if refuses w (getCachePath endpoint)
  then WriteFailed (getCachePath endpoint)
  else WriteCache (getCachePath endpoint).

(** A cache directory that takes no file whose name is longer than 255
    characters, as most file systems do. *)
Definition limited : world :=
  {| cache := ∅;
     refuses := fun name => (255 <? String.length name)%nat;
     sent := 0; trace := [] |}.

(** An endpoint of 300 characters. *)
Definition longEndpoint : string :=
  String.concat "" (replicate 30 "reports/20"%string).

(** More sample inputs: a server that answers 503 twice and then
    delivers. *)
Definition unavailable : error :=
  {| message := "Request failed with status code 503";
     response := Some 503 |}.

Definition flaky : nat -> outcome :=
  fun n => if (n <? 2)%nat then Rejected unavailable
           else Resolved (Js.Arr [Js.Str "*.pdf"]).

End ApiService.

(** ** Watchdog *)

Module Watchdog.

Definition CHECK_INTERVAL : Z := 30000.
Definition MAX_FAILURES : Z := 5.
Definition RECOVERY_TIME : Z := 300000.

Record serviceConfig := {
  processName : string;
  windowTitle : string;
  startScript : string;
  importance : string
}.

(** this.failures and this.lastRecoveryAttempt, keyed by service name. *)
Record state := {
  failures : gmap string Js.number;
  lastRecoveryAttempt : gmap string Js.number
}.

(** What a restart attempt does to the outside. *)
Inductive action :=
| BackupCriticalFiles
| KillZombies (title : string)
| Start (title script : string).

(** this.config.servicesMap of the constructor. *)
Definition servicesMap : list (string * serviceConfig) :=
  [("fileOrganizer"%string,
    {| processName := "node.exe"; windowTitle := "Sorting Hat - File Monitor";
       startScript := "node file_organizer.js"; importance := "critical" |});
   ("apiServer"%string,
    {| processName := "node.exe"; windowTitle := "Sorting Hat API Server";
       startScript := "node service.js"; importance := "critical" |})].

Definition new : state := {| failures := ∅; lastRecoveryAttempt := ∅ |}.

(** start(): every monitored service gets both counters set to 0. *)
Definition start (st : state) : state :=
  foldl (fun s '(name, _) =>
           {| failures := <[name := Js.Int 0]> (failures s);
              lastRecoveryAttempt :=
                <[name := Js.Int 0]> (lastRecoveryAttempt s) |})
        st servicesMap.

Definition is_start (a : action) : bool :=
  match a with Start _ _ => true | _ => false end.

(** The restart attempts in a list of actions. *)
Definition restarts (acts : list action) : nat :=
  length (List.filter is_start acts).

(** The part of handleServiceFailure after the cooldown test. *)
Definition restart (now : Z) (serviceName : string) (cfg : serviceConfig)
    (st : state) : state * list action :=
  ({| failures := failures st;
      lastRecoveryAttempt :=
        <[serviceName := Js.Int now]> (lastRecoveryAttempt st) |},
   (if String.eqb (importance cfg) "critical"
    then [BackupCriticalFiles] else [])
   ++ [KillZombies (windowTitle cfg);
       Start (windowTitle cfg) (startScript cfg)]).

(** [now] is the reading of Date.now() inside the call. *)
Definition handleServiceFailure (now : Z) (serviceName : string)
    (cfg : serviceConfig) (st : state) : state * list action :=
  let count := Js.incr (failures st !! serviceName) in
  let st1 := {| failures := <[serviceName := count]> (failures st);
                lastRecoveryAttempt := lastRecoveryAttempt st |} in
  if Js.geb (Some count) MAX_FAILURES then
    if Js.ltb (Some (Js.sub (Some (Js.Int now))
                            (lastRecoveryAttempt st1 !! serviceName)))
              RECOVERY_TIME
    then (st1, [])
    else
      restart now serviceName cfg
        {| failures := <[serviceName := Js.Int 0]> (failures st1);
           lastRecoveryAttempt := lastRecoveryAttempt st1 |}
  else restart now serviceName cfg st1.

(** What the process listing gave back to the callback of exec. *)
Record probe := { error : bool; stdout : string }.

Definition is_space (c : ascii) : bool :=
  match nat_of_ascii c with
  | 9%nat | 10%nat | 11%nat | 12%nat | 13%nat | 32%nat => true
  | _ => false
  end.

(** stdout.trim() === '' *)
Fixpoint blank (s : string) : bool :=
  match s with
  | EmptyString => true
  | String c rest => is_space c && blank rest
  end.

Definition isRunning (p : probe) : bool :=
  negb (error p) && negb (blank (stdout p)).

(** The callback of checkService. *)
Definition checkService (p : probe) (now : Z) (serviceName : string)
    (cfg : serviceConfig) (st : state) : state * list action :=
  if negb (isRunning p) then handleServiceFailure now serviceName cfg st
  else if Js.gtb (failures st !! serviceName) 0
       then ({| failures := <[serviceName := Js.Int 0]> (failures st);
                lastRecoveryAttempt := lastRecoveryAttempt st |}, [])
       else (st, []).

(** Sample inputs: a process listing that finds nothing, the
    descriptor of the API server, and a watchdog that has counted
    [count] failures of it and last tried to recover it at [last]. *)
Definition absent : probe := {| error := false; stdout := "" |}.

Definition apiServer : serviceConfig :=
  {| processName := "node.exe"; windowTitle := "Sorting Hat API Server";
     startScript := "node service.js"; importance := "critical" |}.

Definition counted (count last : Z) : state :=
  {| failures := <["apiServer"%string := Js.Int count]> (failures (start new));
     lastRecoveryAttempt :=
       <["apiServer"%string := Js.Int last]>
         (lastRecoveryAttempt (start new)) |}.

(** The health checks of one service as its timer delivers them: what
    each process listing found, and the clock reading when its callback
    ran. *)
Fixpoint monitor (checks : list (probe * Z)) (serviceName : string)
    (cfg : serviceConfig) (st : state) : state * list action :=
  match checks with
  | [] => (st, [])
  | (p, now) :: rest =>
      let '(st1, acts) := checkService p now serviceName cfg st in
      let '(st2, more) := monitor rest serviceName cfg st1 in
      (st2, acts ++ more)
  end.

(** Checks that all find the service absent, at the given times. *)
Definition absentAt (times : list Z) : list (probe * Z) :=
  (fun t => (absent, t)) <$> times.

(** A process listing that shows the window of the service. *)
Definition present : probe :=
  {| error := false;
     stdout := "node.exe,4242,Console,1,58112 K" |}.

End Watchdog.

(** ** SystemProtection *)

Module SystemProtection.

Record config := {
  memoryThreshold : Z;
  memoryLimit : Z;
  criticalProgramFiles : list string
}.

(** The constructor's default configuration. *)
Definition defaults : config :=
  {| memoryThreshold := 80;
     memoryLimit := 90;
     criticalProgramFiles :=
       ["service.js"; "file_organizer.js"; "api_service.js";
        "dashboard_controller.js"; "network_monitor.js";
        "system_protection.js"; "config.js"; "package.json"]%string |}.

(** A folder of the backup directory: its name, the modification time
    statSync reports, and the files copied into it. *)
Record snapshot := {
  name : string;
  mtime : Z;
  files : gmap string string
}.

(** One reading of os.totalmem() and os.freemem(). *)
Record reading := { totalmem : Z; freemem : Z }.

(** One reading of the clock: the ISO string with ':' and '.' replaced
    by '-', and the same instant in milliseconds. *)
Record clock := { stamp : string; ms : Z }.

(** What the file system does with the calls of a backup that can
    throw: fs.mkdirSync of the new backup folder, fs.copyFileSync of a
    critical file into it (which fails, for one, when the file's name
    has a directory part: only the folder itself is created),
    fs.statSync of an entry of the backup directory (which fails, for
    one, on a link that leads nowhere), and deleteFolder on such an
    entry (which fails, for one, on a plain file named like a backup:
    it cannot be listed).  A call that fails is taken to have changed
    nothing. *)
Record disk := {
  mkdirFails : string -> bool;
  copyFails : string -> bool;
  statFails : string -> bool;
  deleteFails : string -> bool
}.

Inductive action :=
| Sampled (r : reading)
| Gc
| GcUnavailable
| Exec (cmd : string)
| BackedUp (folder : string)
| BackupFailed (folder : string)
| Missing (file : string)
| IntegrityFailed (file : string)
| Restored (file folder : string)
| CannotRestore (file : string)
| NoBackups.

(** The program directory (file name to content), the entries of the
    backup directory in listing order, this.criticalFileHashes, the
    number of memory readings taken so far, and what was done. *)
Record state := {
  programDir : gmap string string;
  backups : list snapshot;
  criticalFileHashes : gmap string string;
  reads : nat;
  log : list action
}.

Definition emit (a : action) (st : state) : state :=
  {| programDir := programDir st; backups := backups st;
     criticalFileHashes := criticalFileHashes st; reads := reads st;
     log := log st ++ [a] |}.

Definition is_backup (s : snapshot) : bool :=
  Js.startsWith "backup-" (name s).

(** (a, b) => b.time - a.time *)
Definition newest_first (a b : snapshot) : Z := mtime b - mtime a.

(** readdirSync, filter, map, sort: the backups, newest first. *)
Definition listBackups (st : state) : list snapshot :=
  Js.sort newest_first (List.filter is_backup (backups st)).

Section Guard.

Variable cfg : config.
(** The SHA-256 digest of a file's content, in hexadecimal. *)
Variable sha256 : string -> string.
Variable fs : disk.
(** [os n] is the [n]-th memory reading the process takes. *)
Variable os : nat -> reading.
(** Whether node runs with --expose-gc. *)
Variable gcExposed : bool.

(** calculateFileHash: [None] is the null returned when reading fails;
    a file that exists is taken to be readable. *)
Definition calculateFileHash (st : state) (file : string) : option string :=
  sha256 <$> programDir st !! file.

(** The loop of cleanupOldBackups: the folders are deleted in turn, and
    the first on which deleteFolder throws ends the loop, through the
    catch block. *)
Fixpoint deleteFolders (doomed : list string) (l : list snapshot)
    : list snapshot :=
  match doomed with
  | [] => l
  | folder :: rest =>
      if deleteFails fs folder then l
      else deleteFolders rest
             (List.filter (fun s => negb (String.eqb (name s) folder)) l)
  end.

(** cleanupOldBackups(maxBackups).  The listing takes the
    modification time of every entry named like a backup before
    anything is deleted: where statSync throws on one of them, the
    catch block ends the call with every entry still there. *)
Definition cleanupOldBackups (maxBackups : nat) (st : state) : state :=
  if existsb (fun s => statFails fs (name s))
             (List.filter is_backup (backups st))
  then st
  else
    let doomed := name <$> drop maxBackups (listBackups st) in
    {| programDir := programDir st;
       backups := deleteFolders doomed (backups st);
       criticalFileHashes := criticalFileHashes st; reads := reads st;
       log := log st |}.

(** The loop body of backupCriticalFiles: copy the file and record its
    hash, when it exists.  The third component says that a copy has
    thrown: the loop is left then, and the files after it are neither
    copied nor hashed. *)
Definition backupFile (st : state)
    (acc : gmap string string * gmap string string * bool) (file : string)
    : gmap string string * gmap string string * bool :=
  let '(copied, hashes, failed) := acc in
  if failed then acc
  else match programDir st !! file with
       | Some content =>
           if copyFails fs file then (copied, hashes, true)
           else (<[file := content]> copied,
                 <[file := sha256 content]> hashes, false)
       | None => acc
       end.

(** mkdirSync(folder, { recursive: true }) followed by the copies.  A
    folder that is there already is kept, and the copies overwrite the
    files of the same name in it; its modification time moves only
    when a copy adds a file to it. *)
Definition writeSnapshot (folder : string) (time : Z)
    (copied : gmap string string) (l : list snapshot) : list snapshot :=
  if existsb (fun s => String.eqb (name s) folder) l
  then (fun s => if String.eqb (name s) folder
                 then {| name := folder;
                         mtime := if bool_decide
                                       (dom copied ⊆ dom (files s))
                                  then mtime s else time;
                         files := copied ∪ files s |}
                 else s) <$> l
  else l ++ [{| name := folder; mtime := time; files := copied |}].

(** A failure of mkdirSync or of a copy ends the backup in its catch
    block: what was copied and hashed before stays, and
    cleanupOldBackups is not called. *)
Definition backupCriticalFiles (now : clock) (st : state) : state :=
  let folder := ("backup-" ++ stamp now)%string in
  if mkdirFails fs folder then emit (BackupFailed folder) st
  else
    let '(copied, hashes, failed) :=
      foldl (backupFile st) (∅, criticalFileHashes st, false)
            (criticalProgramFiles cfg) in
    let st1 :=
      {| programDir := programDir st;
         backups := writeSnapshot folder (ms now) copied (backups st);
         criticalFileHashes := hashes; reads := reads st;
         log := log st |} in
    if failed then emit (BackupFailed folder) st1
    else cleanupOldBackups 5 (emit (BackedUp folder) st1).

(** *** Memory guard *)

Definition sample (st : state) : reading * state :=
  let r := os (reads st) in
  (r, {| programDir := programDir st; backups := backups st;
         criticalFileHashes := criticalFileHashes st;
         reads := S (reads st); log := log st ++ [Sampled r] |}).

(** collectGarbage: global.gc() where it exists, and a line on the
    console where it does not. *)
Definition collectGarbage (st : state) : state :=
  emit (if gcExposed then Gc else GcUnavailable) st.

(** (usedMemory / totalMemory) * 100, on doubles. *)
Definition memoryUsagePercent (r : reading) : PrimFloat.float :=
  PrimFloat.mul
    (PrimFloat.div
       (PrimFloat.sub (Js.double (totalmem r)) (Js.double (freemem r)))
       (Js.double (totalmem r)))
    (Js.double 100).

(** memoryUsagePercent > limit *)
Definition exceeds (r : reading) (limit : Z) : bool :=
  PrimFloat.ltb (Js.double limit) (memoryUsagePercent r).

(** restartService(), with its default argument 'all'. *)
Definition restartService (now : clock) (st : state) : state :=
  emit (Exec "restart_api_server.bat") (backupCriticalFiles now st).

Definition handleExcessiveMemoryUsage (now : clock) (st : state) : state :=
  let st1 := collectGarbage st in
  let '(r, st2) := sample st1 in
  if exceeds r (memoryLimit cfg) then restartService now st2 else st2.

Definition checkMemoryUsage (now : clock) (st : state) : state :=
  let '(r, st1) := sample st in
  if exceeds r (memoryLimit cfg) then handleExcessiveMemoryUsage now st1
  else if exceeds r (memoryThreshold cfg) then collectGarbage st1
  else st1.

(** *** File-integrity guard *)

(** [!this.criticalFileHashes[file]] is false. *)
Definition baseline (st : state) (file : string) : option string :=
  match criticalFileHashes st !! file with
  | Some h => if String.eqb h "" then None else Some h
  | None => None
  end.

(** The loop body of checkFileIntegrity: what it reports about one
    file, if anything. *)
Definition inspect (st : state) (file : string) : option action :=
  match programDir st !! file with
  | None => Some (Missing file)
  | Some content =>
      match baseline st file with
      | None => None
      | Some h =>
          if String.eqb (sha256 content) h then None
          else Some (IntegrityFailed file)
      end
  end.

(** The array corruptedFiles after the loop. *)
Definition corruptedFiles (st : state) : list string :=
  List.filter (fun file => bool_decide (is_Some (inspect st file)))
              (criticalProgramFiles cfg).

(** The loop body of restoreFromBackup. *)
Definition restoreFile (latestBackup : snapshot) (st : state)
    (file : string) : state :=
  match files latestBackup !! file with
  | Some content =>
      {| programDir := <[file := content]> (programDir st);
         backups := backups st;
         criticalFileHashes := criticalFileHashes st; reads := reads st;
         log := log st ++ [Restored file (name latestBackup)] |}
  | None => emit (CannotRestore file) st
  end.

Definition restoreFromBackup (corrupted : list string) (st : state)
    : state :=
  match listBackups st with
  | [] => emit NoBackups st
  | latestBackup :: _ => foldl (restoreFile latestBackup) st corrupted
  end.

(** What the check looks for in a file: it is missing, or its digest
    differs from the recorded baseline. *)
Definition damaged (st : state) (file : string) : Prop :=
  programDir st !! file = None
  \/ exists content h,
       programDir st !! file = Some content
       /\ baseline st file = Some h /\ sha256 content <> h.

Definition checkFileIntegrity (st : state) : state :=
  let st1 :=
    {| programDir := programDir st; backups := backups st;
       criticalFileHashes := criticalFileHashes st; reads := reads st;
       log := log st ++ omap (inspect st) (criticalProgramFiles cfg) |} in
  match corruptedFiles st with
  | [] => st1
  | corrupted => restoreFromBackup corrupted st1
  end.

End Guard.

(** The fields of this.config that guard paths. *)
Record protectedPaths := {
  systemFiles : list string;
  programDirectory : string
}.

(** The constructor's defaults for them. *)
Definition defaultPaths : protectedPaths :=
  {| systemFiles :=
       ["C:/Windows"; "C:/Program Files"; "C:/Program Files (x86)";
        "C:/ProgramData"; "C:/System Volume Information"]%string;
     programDirectory := "C:/SORTING HAT/BRAINS" |}.

Definition isSystemFile (paths : protectedPaths) (filePath : string) : bool :=
  let normalizedPath := Js.slashes filePath in
  existsb (fun sysPath =>
             Js.startsWith (Js.toLowerCase sysPath)
                           (Js.toLowerCase normalizedPath))
          (systemFiles paths).

Definition isProgramFile (paths : protectedPaths) (filePath : string)
    : bool :=
  let normalizedPath := Js.slashes filePath in
  let programDirNormalized := Js.slashes (programDirectory paths) in
  Js.startsWith (Js.toLowerCase programDirNormalized)
                (Js.toLowerCase normalizedPath).

(** How a call of the wrapped operation ends. *)
Inductive attempt :=
| Returned (v : Js.value)
| Raised.

(** safeFileOperation: what it returns, and the paths it handed to the
    operation. *)
Definition safeFileOperation (paths : protectedPaths)
    (operation : string -> attempt) (filePath : string)
    : Js.value * list string :=
  if isSystemFile paths filePath then (Js.Bool false, [])
  else if isProgramFile paths filePath then (Js.Bool false, [])
  else match operation filePath with
       | Returned v => (v, [filePath])
       | Raised => (Js.Bool false, [filePath])
       end.

(** An operation that deletes whatever it is given, and a
    configuration whose system directory is spelled with backslashes. *)
Definition unlink : string -> attempt := fun _ => Returned (Js.Bool true).

Definition windowsStyle : protectedPaths :=
  {| systemFiles := ["C:\Windows"%string];
     programDirectory := "C:/SORTING HAT/BRAINS" |}.

(** The restarts and the collections in a log. *)
Definition restarts (l : list action) : nat :=
  length (List.filter (fun a => match a with Exec _ => true | _ => false end) l).

Definition collections (l : list action) : nat :=
  length (List.filter (fun a => match a with Gc => true | _ => false end) l).

(** The files an integrity check copied back. *)
Definition restored (l : list action) : list string :=
  omap (fun a => match a with Restored f _ => Some f | _ => None end) l.

(** The files an integrity check reported. *)
Definition reported (l : list action) : list string :=
  omap (fun a => match a with
                 | Missing f | IntegrityFailed f => Some f
                 | _ => None
                 end) l.

(** What was logged between two states. *)
Definition news (before after : state) : list action :=
  drop (length (log before)) (log after).

(** Sample inputs: memory readings of a host with 100 units of
    memory, given by what is free at each reading; a digest that is the
    content itself; a clock reading. *)
Definition readings (free : list Z) : nat -> reading :=
  fun n => {| totalmem := 100; freemem := nth n free 100 |}.

Definition plain_digest : string -> string := fun content => content.

(** A file system on which none of the calls of a backup fails. *)
Definition sound : disk :=
  {| mkdirFails := fun _ => false; copyFails := fun _ => false;
     statFails := fun _ => false; deleteFails := fun _ => false |}.

Definition noon : clock :=
  {| stamp := "2025-03-01T12-00-00-000Z"; ms := 1740830400000 |}.

Definition fresh : state :=
  {| programDir := ∅; backups := []; criticalFileHashes := ∅;
     reads := 0; log := [] |}.

(** An installation with two critical files, five minutes after
    [noon], and what happens to it from outside: a file is deleted or
    overwritten, or the process is started anew (the constructor
    empties criticalFileHashes; the directories stay). *)
Definition twoFiles : config :=
  {| memoryThreshold := 80; memoryLimit := 90;
     criticalProgramFiles := ["service.js"; "config.js"]%string |}.

Definition installed : state :=
  {| programDir := {[ "service.js"%string := "serve()"%string;
                      "config.js"%string := "port=3000"%string ]};
     backups := []; criticalFileHashes := ∅; reads := 0; log := [] |}.

Definition later : clock :=
  {| stamp := "2025-03-01T12-05-00-000Z"; ms := 1740830700000 |}.

Definition lose (file : string) (st : state) : state :=
  {| programDir := delete file (programDir st); backups := backups st;
     criticalFileHashes := criticalFileHashes st; reads := reads st;
     log := log st |}.

Definition overwrite (file content : string) (st : state) : state :=
  {| programDir := <[file := content]> (programDir st);
     backups := backups st;
     criticalFileHashes := criticalFileHashes st; reads := reads st;
     log := log st |}.

Definition relaunch (st : state) : state :=
  {| programDir := programDir st; backups := backups st;
     criticalFileHashes := ∅; reads := 0; log := [] |}.

(** The installation is backed up at [noon]; config.js is then deleted. *)
Definition afterLoss : state :=
  lose "config.js"
       (backupCriticalFiles twoFiles plain_digest sound noon installed).



End SystemProtection.

(** ** ErrorRecovery *)

Module ErrorRecovery.

Record config := {
  programDir : string;
  maxRetries : nat;
  retryDelays : list Z;
  failureThreshold : Z;
  criticalServices : list string
}.

(** The constructor's default configuration. *)
Definition defaults : config :=
  {| programDir := "C:/SORTING HAT/BRAINS";
     maxRetries := 3;
     retryDelays := [1000; 5000; 15000];
     failureThreshold := 10;
     criticalServices := ["fileOrganizer"; "apiServer"]%string |}.

Record error := { message : string }.

(** An entry of this.errorLog (timestamps and context left out). *)
Record errorEntry := {
  operation : string;
  attempt : nat;
  cause : error
}.

Inductive event :=
| Delay (ms : Z)
| Run (script : string)
| ScriptNotFound (script : string)
| AppendErrorLog (entry : errorEntry)
| AppendRecoveryLog (operation : string) (recoveredOnAttempt : nat).

(** this.failureCount (its own properties), this.errorLog, and what
    was done. *)
Record state := {
  failureCount : gmap string Js.number;
  errorLog : list errorEntry;
  trace : list event
}.

Inductive outcome :=
| Resolved (v : Js.value)
| Rejected (e : error).

(** What withRetry gives its caller: a value, the Error built after the
    last attempt, or the TypeError of reading [lastError.message] when
    no attempt was made. *)
Inductive result :=
| Return (v : Js.value)
| ThrowFailed (operationName : string) (attempts : nat) (lastError : error)
| ThrowTypeError.

Definition new : state :=
  {| failureCount := ∅; errorLog := []; trace := [] |}.

Definition emit (ev : event) (st : state) : state :=
  {| failureCount := failureCount st; errorLog := errorLog st;
     trace := trace st ++ [ev] |}.

Definition resetFailures (serviceName : string) (st : state) : state :=
  {| failureCount := Js.setProp serviceName (Js.Int 0) (failureCount st);
     errorLog := errorLog st; trace := trace st |}.

Section Recovery.

Variable cfg : config.
(** fs.existsSync on a restart script. *)
Variable existsSync : string -> bool.

Definition restartScript (serviceName : string) : string :=
  (programDir cfg ++ "/" ++
   (if String.eqb serviceName "apiServer" then "restart_api_server.bat"
    else if String.eqb serviceName "fileOrganizer"
         then "restart_file_organizer.bat"
         else "fix_network_errors.bat"))%string.

Definition initiateRecovery (serviceName : string) (st : state) : state :=
  let st1 := resetFailures serviceName st in
  let script := restartScript serviceName in
  if existsSync script then emit (Run script) st1
  else emit (ScriptNotFound script) st1.

Definition includes (l : list string) (s : string) : bool :=
  existsb (String.eqb s) l.

Definition recordFailure (serviceName : string) (st : state) : state :=
  let counts0 := failureCount st in
  let counts1 :=
    if Js.falsy (Js.getProp counts0 serviceName)
    then Js.setProp serviceName (Js.Int 0) counts0 else counts0 in
  let counts2 :=
    Js.setProp serviceName (Js.succ (Js.getProp counts1 serviceName)) counts1 in
  let st1 := {| failureCount := counts2;
                errorLog := errorLog st; trace := trace st |} in
  if Js.reaches (Js.getProp counts2 serviceName) (failureThreshold cfg) then
    if includes (criticalServices cfg) serviceName
    then initiateRecovery serviceName st1
    else st1
  else st1.

(** unshift, then pop when the log has grown past 100 entries; the
    entry is also appended to the day's log file. *)
Definition logError (operationName : string) (e : error) (attempt : nat)
    (st : state) : state :=
  let entry := {| operation := operationName; attempt := S attempt;
                  cause := e |} in
  let grown := entry :: errorLog st in
  {| failureCount := failureCount st;
     errorLog := if (100 <? length grown)%nat
                 then removelast grown else grown;
     trace := trace st ++ [AppendErrorLog entry] |}.

Definition logRecovery (operationName : string) (attempt : nat)
    (st : state) : state :=
  emit (AppendRecoveryLog operationName (S attempt)) st.

(** this.config.retryDelays[attempt] || 1000 *)
Definition delayFor (attempt : nat) : Z :=
  match retryDelays cfg !! attempt with
  | Some d => if d =? 0 then 1000 else d
  | None => 1000
  end.

(** [operation n] is how the [n]-th call of the operation settles.  The
    for loop of withRetry, with [remaining = maxRetries - attempt]. *)
Fixpoint attemptLoop (operation : nat -> outcome) (operationName : string)
    (remaining attempt : nat) (lastError : option error) (st : state)
    : result * state :=
  match remaining with
  | O =>
      (match lastError with
       | Some e => ThrowFailed operationName (maxRetries cfg) e
       | None => ThrowTypeError
       end, st)
  | S remaining' =>
      match operation attempt with
      | Resolved v =>
          (Return v,
           if (0 <? attempt)%nat then logRecovery operationName attempt st
           else st)
      | Rejected e =>
          let st1 := recordFailure operationName st in
          let st2 := logError operationName e attempt st1 in
          let st3 := if (S attempt <? maxRetries cfg)%nat
                     then emit (Delay (delayFor attempt)) st2 else st2 in
          attemptLoop operation operationName remaining' (S attempt)
                      (Some e) st3
      end
  end.

Definition withRetry (operation : nat -> outcome) (operationName : string)
    (st : state) : result * state :=
  attemptLoop operation operationName (maxRetries cfg) 0%nat None st.

(** The recoveries a stretch of the trace holds. *)
Definition is_recovery (ev : event) : bool :=
  match ev with Run _ | ScriptNotFound _ => true | _ => false end.

Definition recoveries (tr : list event) : nat :=
  length (List.filter is_recovery tr).

(** A failure reported for [name] when the clock reads [at]. *)
Record report := { at_ms : Z; name : string }.

(** Feed timed failure reports to recordFailure, noting the clock
    reading of every report that started a recovery. *)
Fixpoint observe (reports : list report) (st : state)
    : list report * state :=
  match reports with
  | [] => ([], st)
  | r :: rest =>
      let st1 := recordFailure (name r) st in
      let '(started, st2) := observe rest st1 in
      (if (recoveries (trace st) <? recoveries (trace st1))%nat
       then r :: started else started, st2)
  end.

(** [calls] calls of withRetry in a row, each with the same
    operation. *)
Fixpoint retryTimes (calls : nat) (operation : nat -> outcome)
    (operationName : string) (st : state) : state :=
  match calls with
  | O => st
  | S k =>
      retryTimes k operation operationName
                 (withRetry operation operationName st).2
  end.

(** The number that [this.failureCount[serviceName]] reads as, and 0
    when it reads as anything but a number. *)
Definition tally (st : state) (serviceName : string) : Z :=
  match Js.getProp (failureCount st) serviceName with
  | Js.Own (Js.Int z) => z
  | Js.Own Js.NaN | Js.Inherited | Js.Absent => 0
  end.

(** What recordFailure does to one counter: the new count, and whether
    a recovery was started. *)
Definition bump (critical : bool) (count : Z) : Z * bool :=
  if (failureThreshold cfg <=? count + 1) && critical
  then (0, true) else (count + 1, false).

(** [n] failures in a row on one counter: the count reached and the
    number of recoveries started on the way. *)
Fixpoint bumps (n : nat) (critical : bool) (count : Z) : Z * nat :=
  match n with
  | O => (count, 0%nat)
  | S k =>
      let '(c1, started) := bump critical count in
      let '(c2, more) := bumps k critical c1 in
      (c2, ((if started then 1 else 0) + more)%nat)
  end.

End Recovery.

(** Sample inputs: an operation that fails whenever it is called, and
    [n] failure reports for one service, [step] milliseconds apart
    from [first] on. *)
Definition broken : nat -> outcome :=
  fun _ => Rejected {| message := "EPERM: operation not permitted" |}.

Fixpoint burst (service : string) (first step : Z) (n : nat)
    : list report :=
  match n with
  | O => []
  | S k =>
      {| at_ms := first; name := service |}
      :: burst service (first + step) step k
  end.

(** How many of the reports are about [service]. *)
Definition reportsFor (service : string) (reports : list report) : nat :=
  length (List.filter (fun r => String.eqb (name r) service) reports).

Definition scriptsInstalled : string -> bool := fun _ => true.

(** A service that has counted [count] failures. *)
Definition counted (service : string) (count : Z) : state :=
  {| failureCount := {[ service := Js.Int count ]};
     errorLog := []; trace := [] |}.

(** [l.slice(0, limit)]: the first [limit] elements, or all but the
    last [-limit] when the limit is negative. *)
Definition slice0 {A : Type} (limit : Z) (l : list A) : list A :=
  if 0 <=? limit then take (Z.to_nat limit) l
  else take (length l - Z.to_nat (- limit)) l.

(** getRecentErrors(serviceName, limit); [None] is a serviceName left
    out, which like the empty string selects every entry. *)
Definition getRecentErrors (serviceName : option string) (limit : Z)
    (st : state) : list errorEntry :=
  match serviceName with
  | Some s =>
      if String.eqb s "" then slice0 limit (errorLog st)
      else slice0 limit
             (List.filter (fun entry => String.eqb (operation entry) s)
                          (errorLog st))
  | None => slice0 limit (errorLog st)
  end.

(** The path createRestartScript writes its script to; as in
    restartScript, path.join is the directory, a separator and the
    file name, which is what it gives for a file name that holds no
    separator. *)
Definition scriptPath (cfg : config) (serviceName : string) : string :=
  (programDir cfg ++ "/" ++
   ("restart_" ++ Js.toLowerCase serviceName ++ ".bat"))%string.

(** createRestartScript on the set of script files that exist: the
    path it returns and the files afterwards (the text of the script
    is left out). *)
Definition createRestartScript (cfg : config) (serviceName : string)
    (scripts : gset string) : string * gset string :=
  (scriptPath cfg serviceName, {[ scriptPath cfg serviceName ]} ∪ scripts).

(** fs.existsSync on such a set. *)
Definition existsIn (scripts : gset string) : string -> bool :=
  fun path => bool_decide (path ∈ scripts).

(** Observations on a trace: the delays slept, the entries appended to
    the error log file, and the entries appended to the recovery log. *)
Definition sleeps (tr : list event) : list Z :=
  omap (fun ev => match ev with Delay ms => Some ms | _ => None end) tr.

Definition logged (tr : list event) : list errorEntry :=
  omap (fun ev => match ev with AppendErrorLog e => Some e | _ => None end)
       tr.

Definition recoveryLogged (tr : list event) : list (string * nat) :=
  omap (fun ev => match ev with
                  | AppendRecoveryLog o n => Some (o, n)
                  | _ => None
                  end) tr.


End ErrorRecovery.

(** ** PerformanceOptimizer *)

Module PerformanceOptimizer.

Record config := {
  maxConcurrentOperations : Z;
  batchSize : Z
}.

(** The constructor's defaults on a host with [cpus] cores. *)
Definition defaults (cpus : Z) : config :=
  {| maxConcurrentOperations := Z.max 1 (cpus - 1); batchSize := 20 |}.

(** A queue entry: [ticket] stands for the operation together with the
    resolve and reject functions of its promise; [priority] is
    metadata.priority, [None] when the metadata has none. *)
Record item := {
  ticket : nat;
  filePath : string;
  priority : option Z;
  addedTime : Z
}.

(** The fields of the object, and where its asynchronous code stands:
    [running] holds the dispatched items whose body has not finished,
    [suspended] says that processQueue waits at Promise.allSettled,
    [immediates] counts the callbacks handed to setImmediate, and
    [settled] lists the promises settled so far (true for resolved). *)
Record state := {
  queue : list item;
  activeOperations : Z;
  isProcessing : bool;
  running : list item;
  suspended : bool;
  immediates : nat;
  operationsCompleted : Z;
  operationsFailed : Z;
  settled : list (nat * bool)
}.

Definition new : state :=
  {| queue := []; activeOperations := 0; isProcessing := false;
     running := []; suspended := false; immediates := 0;
     operationsCompleted := 0; operationsFailed := 0; settled := [] |}.

(** What the event loop runs next: a call of scheduleOperation, the end
    of a dispatched operation, the continuation of processQueue after
    Promise.allSettled, or a setImmediate callback.  [Settle t false] is
    an operation that rejects with a value whose message can be read;
    [Abandon t] is one that rejects with undefined or null. *)
Inductive event :=
| Schedule (it : item)
| Settle (ticket : nat) (ok : bool)
| Resume
| Immediate
| Abandon (ticket : nat).

(** The comparator handed to batch.sort. *)
Definition byPriority (a b : item) : Z :=
  if bool_decide (priority a <> priority b)
  then default 0 (priority b) - default 0 (priority a)
  else addedTime a - addedTime b.

Section Queue.

Variable cfg : config.

(** One turn of the while loop of processQueue, from its test up to the
    await, or through the finally block when the test fails.  Every
    item of the batch increments activeOperations before its first
    await, so the whole batch is counted when control returns. *)
Definition drain (st : state) : state :=
  if (0 <? Z.of_nat (length (queue st)))
     && (activeOperations st <? maxConcurrentOperations cfg)
  then
    let n := Z.to_nat (Z.min (Z.of_nat (length (queue st))) (batchSize cfg)) in
    let batch := Js.sort byPriority (take n (queue st)) in
    {| queue := drop n (queue st);
       activeOperations := activeOperations st + Z.of_nat (length batch);
       isProcessing := isProcessing st;
       running := running st ++ batch;
       suspended := true;
       immediates := immediates st;
       operationsCompleted := operationsCompleted st;
       operationsFailed := operationsFailed st;
       settled := settled st |}
  else
    {| queue := queue st;
       activeOperations := activeOperations st;
       isProcessing := false;
       running := running st;
       suspended := false;
       immediates := if (0 <? length (queue st))%nat
                     then S (immediates st) else immediates st;
       operationsCompleted := operationsCompleted st;
       operationsFailed := operationsFailed st;
       settled := settled st |}.

Definition processQueue (st : state) : state :=
  if isProcessing st then st
  else drain
    {| queue := queue st; activeOperations := activeOperations st;
       isProcessing := true; running := running st;
       suspended := suspended st; immediates := immediates st;
       operationsCompleted := operationsCompleted st;
       operationsFailed := operationsFailed st; settled := settled st |}.

Definition scheduleOperation (it : item) (st : state) : state :=
  let st1 :=
    {| queue := queue st ++ [it]; activeOperations := activeOperations st;
       isProcessing := isProcessing st; running := running st;
       suspended := suspended st; immediates := immediates st;
       operationsCompleted := operationsCompleted st;
       operationsFailed := operationsFailed st; settled := settled st |} in
  if isProcessing st1 then st1 else processQueue st1.

Definition has_ticket (t : nat) (it : item) : bool := (ticket it =? t)%nat.

(** Take the item with ticket [t] out of the running ones. *)
Fixpoint withdraw (t : nat) (l : list item) : list item :=
  match l with
  | [] => []
  | it :: rest => if has_ticket t it then rest else it :: withdraw t rest
  end.

(** The rest of a dispatched item's body: metrics, resolve or reject,
    and the finally block. *)
Definition finish (t : nat) (ok : bool) (st : state) : state :=
  {| queue := queue st;
     activeOperations := activeOperations st - 1;
     isProcessing := isProcessing st;
     running := withdraw t (running st);
     suspended := suspended st;
     immediates := immediates st;
     operationsCompleted :=
       if ok then operationsCompleted st + 1 else operationsCompleted st;
     operationsFailed :=
       if ok then operationsFailed st else operationsFailed st + 1;
     settled := settled st ++ [(t, ok)] |}.

(** The same for an operation that rejects with undefined or null: the
    catch block counts the failure and then throws on [error.message],
    before it reaches item.reject; the finally block runs, and the
    promise of scheduleOperation is left pending. *)
Definition abandon (t : nat) (st : state) : state :=
  {| queue := queue st;
     activeOperations := activeOperations st - 1;
     isProcessing := isProcessing st;
     running := withdraw t (running st);
     suspended := suspended st;
     immediates := immediates st;
     operationsCompleted := operationsCompleted st;
     operationsFailed := operationsFailed st + 1;
     settled := settled st |}.

(** [None] when the event cannot happen in this state. *)
Definition step (ev : event) (st : state) : option state :=
  match ev with
  | Schedule it => Some (scheduleOperation it st)
  | Settle t ok =>
      if existsb (has_ticket t) (running st)
      then Some (finish t ok st) else None
  | Resume =>
      if suspended st && bool_decide (running st = [])
      then Some (drain st) else None
  | Immediate =>
      match immediates st with
      | O => None
      | S k =>
          Some (processQueue
            {| queue := queue st; activeOperations := activeOperations st;
               isProcessing := isProcessing st; running := running st;
               suspended := suspended st; immediates := k;
               operationsCompleted := operationsCompleted st;
               operationsFailed := operationsFailed st;
               settled := settled st |})
      end
  | Abandon t =>
      if existsb (has_ticket t) (running st)
      then Some (abandon t st) else None
  end.

Fixpoint run (evs : list event) (st : state) : option state :=
  match evs with
  | [] => Some st
  | ev :: rest =>
      match step ev st with
      | Some st1 => run rest st1
      | None => None
      end
  end.

(** The largest value activeOperations takes along a run. *)
Fixpoint peak (evs : list event) (st : state) : Z :=
  match evs with
  | [] => activeOperations st
  | ev :: rest =>
      match step ev st with
      | Some st1 => Z.max (activeOperations st) (peak rest st1)
      | None => activeOperations st
      end
  end.

End Queue.

(** [n] operations scheduled in one turn of the event loop, with
    tickets from [first] on and no priority. *)
Definition submit (first n : nat) : list event :=
  (fun k => Schedule {| ticket := k; filePath := "f"; priority := None;
                        addedTime := 0 |}) <$> seq first n.

(** All of the given tickets finishing successfully. *)
Definition complete (tickets : list nat) : list event :=
  (fun k => Settle k true) <$> tickets.

(** The scenario of the specification: maxConcurrency = 4 and
    batchSize = 20. *)
Definition fourAtATime : config :=
  {| maxConcurrentOperations := 4; batchSize := 20 |}.

(** 25 operations submitted in one turn; the first is dispatched alone
    at once, and when it has finished the loop takes the next 20. *)
Definition secondBatch : list event :=
  submit 0 25 ++ [Settle 0 true; Resume].

(** ... and the run to the end: the 20 finish, the loop takes the last
    4, they finish, and the loop stops. *)
Definition toTheEnd : list event :=
  secondBatch ++ complete (seq 1 20) ++ [Resume]
  ++ complete (seq 21 4) ++ [Resume].

(** The calls of scheduleOperation among the events. *)
Definition scheduled (evs : list event) : nat :=
  length (List.filter (fun ev => match ev with Schedule _ => true | _ => false end)
                      evs).

(** The operations among the events whose promise is left pending. *)
Definition abandoned (evs : list event) : nat :=
  length (List.filter (fun ev => match ev with Abandon _ => true | _ => false end)
                      evs).

(** The events by which the object works off what it has: no call from
    outside, and no operation abandoned. *)
Definition finishing (ev : event) : Prop :=
  match ev with Schedule _ | Abandon _ => False | _ => True end.



(** What also holds between two events: an active processQueue is
    waiting for its batch, and queued entries left behind by a
    processQueue that has ended have a setImmediate callback pending. *)
Definition armed (st : state) : Prop :=
  (isProcessing st = true -> suspended st = true)
  /\ (isProcessing st = false -> queue st <> [] -> immediates st <> 0%nat).

(** A configuration whose batches are empty. *)
Definition emptyBatches : config :=
  {| maxConcurrentOperations := 4; batchSize := 0 |}.


(** What holds of the object between two events: the counter is the
    number of running items, nothing runs while processQueue is not
    active, processQueue waits only while it is active, and no more
    than a batch is running. *)
Definition consistent (cfg : config) (st : state) : Prop :=
  activeOperations st = Z.of_nat (length (running st))
  /\ (isProcessing st = false -> running st = [])
  /\ (suspended st = true -> isProcessing st = true)
  /\ (length (running st) <= Z.to_nat (batchSize cfg))%nat.

End PerformanceOptimizer.

(** * Part II: the properties *)

(** ** ApiService.fetchWithRetry *)

Section FetchFacts.

Import ApiService.

Variable self : service.
Variable net : nat -> outcome.
Variable isoNow : nat -> string.

(** The guard of the retry branch holds exactly while [retryCount]
    indexes an entry of the delay table. *)
Lemma retry_delay_in_range (retryCount : nat) :
  (retryCount <? length (retryDelays self))%nat = true ->
  exists d, retryDelays self !! retryCount = Some d.
Proof.
  intros H. apply Nat.ltb_lt in H.
  destruct (lookup_lt_is_Some_2 (retryDelays self) retryCount H) as [d Hd].
  by exists d.
Qed.

(** A call whose every request fails retryably runs through the whole
    delay table, leaves the cache as it was, and ends in the fallback:
    the cached payload when it is truthy, the last error otherwise. *)
Lemma fetchWithRetry_fuel_all_fail (endpoint : string) (opts : options) :
  forall (k fuel retryCount : nat) (w : world),
    k = (length (retryDelays self) - retryCount)%nat ->
    (k < fuel)%nat ->
    cacheFirst opts && Js.truthy (getFromCache w endpoint) = false ->
    (forall i, (i <= k)%nat -> failsRetryably net (sent w + i)) ->
    exists e w',
      net (sent w + k)%nat = Rejected e /\
      fetchWithRetry_fuel self net isoNow fuel endpoint opts retryCount w
      = Some (if Js.truthy (getFromCache w endpoint)
              then Return (fromCache w endpoint (getFromCache w endpoint))
              else Throw e, w') /\
      cache w' = cache w /\
      sent w' = (sent w + S k)%nat /\
      trace w' = trace w ++ schedule (request self endpoint opts)
                                     (drop retryCount (retryDelays self)).
Proof.
  induction k as [|k IH]; intros fuel retryCount w Hk Hfuel Hfirst Hfail.
  - destruct fuel as [|fuel]; [lia|].
    destruct (Hfail 0%nat) as (e & He & _); [lia|].
    rewrite Nat.add_0_r in He.
    exists e, (issue (request self endpoint opts) w).
    rewrite Nat.add_0_r. split; [done|].
    assert (Hlt : (retryCount <? length (retryDelays self))%nat = false)
      by (apply Nat.ltb_ge; lia).
    cbn [fetchWithRetry_fuel]. rewrite Hfirst, He, Hlt. cbn [andb].
    assert (Hdrop : drop retryCount (retryDelays self) = [])
      by (apply drop_ge; lia).
    rewrite Hdrop.
    change (getFromCache (issue (request self endpoint opts) w) endpoint)
      with (getFromCache w endpoint).
    change (fromCache (issue (request self endpoint opts) w) endpoint)
      with (fromCache w endpoint).
    split; [by destruct (Js.truthy (getFromCache w endpoint))|].
    repeat split; cbn; lia.
  - destruct fuel as [|fuel]; [lia|].
    destruct (Hfail 0%nat) as (e0 & He0 & Hr0); [lia|].
    rewrite Nat.add_0_r in He0.
    assert (Hlt : (retryCount <? length (retryDelays self))%nat = true)
      by (apply Nat.ltb_lt; lia).
    destruct (retry_delay_in_range _ Hlt) as [d Hd].
    set (w2 := emit (Sleep d) (issue (request self endpoint opts) w)).
    destruct (IH fuel (S retryCount) w2) as (e & w' & He & Hrun & Hc & Hs & Ht).
    + lia.
    + lia.
    + exact Hfirst.
    + intros i Hi. cbn. replace (S (sent w + i)) with (sent w + S i)%nat by lia.
      apply Hfail. lia.
    + exists e, w'. split.
      { cbn in He. by replace (sent w + S k)%nat with (S (sent w + k)) by lia. }
      cbn [fetchWithRetry_fuel]. rewrite Hfirst, He0, Hlt, Hr0, Hd. cbn [andb default].
      fold w2. split; [exact Hrun|]. split; [exact Hc|].
      split; [rewrite Hs; cbn; lia|].
      rewrite Ht. cbn. rewrite <- !app_assoc. cbn.
      by rewrite (drop_S _ _ _ Hd).
Qed.

(** The fuel handed over by [fetchWithRetry] is enough whatever the
    network does: the call always settles. *)
Lemma fetchWithRetry_fuel_settles (endpoint : string) (opts : options) :
  forall (fuel retryCount : nat) (w : world),
    (length (retryDelays self) - retryCount < fuel)%nat ->
    is_Some (fetchWithRetry_fuel self net isoNow fuel endpoint opts
                                 retryCount w).
Proof.
  induction fuel as [|fuel IH]; intros retryCount w Hfuel; [lia|].
  cbn [fetchWithRetry_fuel].
  destruct (cacheFirst opts && Js.truthy (getFromCache w endpoint)); [done|].
  destruct (net (sent w)) as [data|e]; [done|].
  destruct (retryCount <? length (retryDelays self))%nat eqn:Hlt; cbn [andb].
  - destruct (isRetryableError e).
    + apply IH. apply Nat.ltb_lt in Hlt. lia.
    + by destruct (Js.truthy _).
  - by destruct (Js.truthy _).
Qed.

Lemma fetchWithRetry_settles (endpoint : string) (opts : options)
    (retryCount : nat) (w : world) :
  is_Some (fetchWithRetry self net isoNow endpoint opts retryCount w).
Proof. apply fetchWithRetry_fuel_settles. lia. Qed.

End FetchFacts.

Lemma attempts_app (l1 l2 : list ApiService.event) :
  ApiService.attempts (l1 ++ l2)
  = (ApiService.attempts l1 + ApiService.attempts l2)%nat.
Proof.
  unfold ApiService.attempts. by rewrite List.filter_app, length_app.
Qed.

(** C2, as amended.  On an endpoint whose cache holds no usable entry,
    a call of fetchWithRetry (retryCount 0) on the service the
    constructor builds, all of whose requests fail with a retryable
    error, throws the error of its last request after exactly six
    requests: the first one and one retry per entry of retryDelays,
    with sleeps of 1, 2, 5, 10 and 30 seconds between them. *)
Theorem fetchWithRetry_fails_after_six_attempts
    (url : option string) (net : nat -> ApiService.outcome)
    (isoNow : nat -> string) (endpoint : string)
    (opts : ApiService.options) (w : ApiService.world) :
  Js.truthy (ApiService.getFromCache w endpoint) = false ->
  (forall i, (i <= 5)%nat ->
             ApiService.failsRetryably net (ApiService.sent w + i)) ->
  exists e w',
    net (ApiService.sent w + 5)%nat = ApiService.Rejected e /\
    ApiService.fetchWithRetry (ApiService.new url) net isoNow endpoint opts
                              0 w
    = Some (ApiService.Throw e, w') /\
    ApiService.cache w' = ApiService.cache w /\
    (let rq := ApiService.request (ApiService.new url) endpoint opts in
     ApiService.trace w'
     = ApiService.trace w
       ++ [rq; ApiService.Sleep 1000; rq; ApiService.Sleep 2000; rq;
           ApiService.Sleep 5000; rq; ApiService.Sleep 10000; rq;
           ApiService.Sleep 30000; rq]) /\
    ApiService.attempts (ApiService.trace w')
    = (ApiService.attempts (ApiService.trace w) + 6)%nat.
Proof.
  intros Hcache Hfail.
  destruct (fetchWithRetry_fuel_all_fail (ApiService.new url) net isoNow
              endpoint opts 5 6 0 w) as (e & w' & He & Hrun & Hc & _ & Ht).
  - reflexivity.
  - cbn. lia.
  - rewrite Hcache. apply andb_false_r.
  - exact Hfail.
  - exists e, w'. rewrite Hcache in Hrun.
    repeat split; try done.
    rewrite Ht, attempts_app. reflexivity.
Qed.

Lemma fetchWithRetry_fails_after_six_attempts_offline :
  exists e w',
    ApiService.offline 5%nat = ApiService.Rejected e /\
    ApiService.fetchWithRetry (ApiService.new None) ApiService.offline
      ApiService.anyTime "patterns" ApiService.plain 0 ApiService.emptyWorld
    = Some (ApiService.Throw e, w') /\
    ApiService.cache w' = ∅ /\
    (let rq := ApiService.request (ApiService.new None) "patterns"
                                  ApiService.plain in
     ApiService.trace w'
     = [rq; ApiService.Sleep 1000; rq; ApiService.Sleep 2000; rq;
        ApiService.Sleep 5000; rq; ApiService.Sleep 10000; rq;
        ApiService.Sleep 30000; rq]) /\
    ApiService.attempts (ApiService.trace w') = 6%nat.
Proof.
  apply (fetchWithRetry_fails_after_six_attempts None ApiService.offline
           ApiService.anyTime "patterns" ApiService.plain
           ApiService.emptyWorld).
  - reflexivity.
  - intros i _. exists ApiService.refused. split; reflexivity.
Defined.

(** C2, as stated, fails: against a server that refuses every
    connection, with an empty cache, the call throws after six
    requests, not five. *)
Lemma fetchWithRetry_offline_makes_six_attempts :
  exists w',
    ApiService.fetchWithRetry (ApiService.new None) ApiService.offline
      ApiService.anyTime "patterns" ApiService.plain 0 ApiService.emptyWorld
    = Some (ApiService.Throw ApiService.refused, w') /\
    ApiService.attempts (ApiService.trace w') = 6%nat /\
    ApiService.attempts (ApiService.trace w') <> 5%nat /\
    ApiService.delays (ApiService.trace w')
    = [1000; 2000; 5000; 10000; 30000].
Proof.
  eexists. split; [vm_compute; reflexivity|]. by vm_compute.
Qed.

(** C3, as amended.  A call of fetchWithRetry all of whose requests
    fail with a retryable error leaves the cache as it was; when the
    cache holds a readable entry with a truthy payload for the endpoint
    it returns that payload, marked fromCache: true, with the entry's
    own timestamp; otherwise it throws the error of its last request. *)
Theorem fetchWithRetry_exhausted_falls_back
    (self : ApiService.service) (net : nat -> ApiService.outcome)
    (isoNow : nat -> string) (endpoint : string)
    (opts : ApiService.options) (retryCount : nat) (w : ApiService.world) :
  (forall i,
     (i <= length (ApiService.retryDelays self) - retryCount)%nat ->
     ApiService.failsRetryably net (ApiService.sent w + i)) ->
  exists r w',
    ApiService.fetchWithRetry self net isoNow endpoint opts retryCount w
    = Some (r, w') /\
    ApiService.cache w' = ApiService.cache w /\
    (Js.truthy (ApiService.getFromCache w endpoint) = true ->
     r = ApiService.Return
           (Js.Obj [("data"%string, ApiService.getFromCache w endpoint);
                    ("fromCache"%string, Js.Bool true);
                    ("timestamp"%string,
                     ApiService.getCacheTimestamp w endpoint)])) /\
    (Js.truthy (ApiService.getFromCache w endpoint) = false ->
     exists e,
       net (ApiService.sent w
            + (length (ApiService.retryDelays self) - retryCount))%nat
       = ApiService.Rejected e /\
       r = ApiService.Throw e).
Proof.
  intros Hfail.
  destruct (ApiService.cacheFirst opts
            && Js.truthy (ApiService.getFromCache w endpoint)) eqn:Hfirst.
  - apply andb_true_iff in Hfirst as [Hcf Htruthy].
    exists (ApiService.Return
              (ApiService.fromCache w endpoint
                 (ApiService.getFromCache w endpoint))), w.
    unfold ApiService.fetchWithRetry. cbn [ApiService.fetchWithRetry_fuel].
    rewrite Hcf, Htruthy. cbn [andb].
    repeat split; try done; congruence.
  - destruct (fetchWithRetry_fuel_all_fail self net isoNow endpoint opts
                (length (ApiService.retryDelays self) - retryCount)
                (S (length (ApiService.retryDelays self) - retryCount))
                retryCount w)
      as (e & w' & He & Hrun & Hc & _ & _); [done|lia|done|done|].
    eexists _, w'. split; [exact Hrun|]. split; [exact Hc|].
    split; intros Htruthy; rewrite Htruthy.
    + reflexivity.
    + by exists e.
Qed.

Lemma fetchWithRetry_exhausted_falls_back_cached :
  exists w',
    ApiService.fetchWithRetry (ApiService.new None) ApiService.offline
      ApiService.anyTime "patterns" ApiService.plain 0
      (ApiService.cachedWorld (Js.Arr [Js.Str "*.pdf"]))
    = Some (ApiService.Return
              (Js.Obj [("data"%string, Js.Arr [Js.Str "*.pdf"]);
                       ("fromCache"%string, Js.Bool true);
                       ("timestamp"%string,
                        Js.Str "2025-02-28T09:00:00.000Z")]), w').
Proof.
  destruct (fetchWithRetry_exhausted_falls_back (ApiService.new None)
              ApiService.offline ApiService.anyTime "patterns"
              ApiService.plain 0
              (ApiService.cachedWorld (Js.Arr [Js.Str "*.pdf"])))
    as (r & w' & Hrun & _ & Hcached & _).
  - intros i _. exists ApiService.refused. split; reflexivity.
  - exists w'. rewrite Hrun. f_equal. f_equal. apply Hcached. reflexivity.
Defined.

(** C3, as stated, fails: the cache holds an entry for the endpoint,
    written by an earlier fetch that the server answered with 0, and
    the call that exhausts its retries throws all the same. *)
Lemma fetchWithRetry_falsy_entry_throws :
  ApiService.cache (ApiService.cachedWorld (Js.Num 0))
    !! ApiService.getCachePath "patterns"
  = Some (ApiService.Entry (Js.Num 0) (Js.Str "2025-02-28T09:00:00.000Z"))
  /\ exists w',
    ApiService.fetchWithRetry (ApiService.new None) ApiService.offline
      ApiService.anyTime "patterns" ApiService.plain 0
      (ApiService.cachedWorld (Js.Num 0))
    = Some (ApiService.Throw ApiService.refused, w').
Proof.
  split; [by vm_compute|]. eexists. vm_compute. reflexivity.
Qed.

(** The entry of the counterexample is what cacheResponse writes when a
    fetch succeeds with the payload 0. *)
Example cacheResponse_stores_zero :
  ApiService.cache
    (ApiService.cacheResponse "patterns" (Js.Num 0)
       "2025-02-28T09:00:00.000Z" ApiService.emptyWorld)
  = ApiService.cache (ApiService.cachedWorld (Js.Num 0)).
Proof. by vm_compute. Qed.

(** C4, as amended.  When a request of fetchWithRetry is answered with
    a status from 400 to 499, the call ends with that request: nothing
    is slept and nothing is sent again.  The error reaches the caller
    when the cache holds no truthy payload for the endpoint; otherwise
    the call returns that payload, marked fromCache: true. *)
Theorem fetchWithRetry_client_error_not_retried
    (self : ApiService.service) (net : nat -> ApiService.outcome)
    (isoNow : nat -> string) (endpoint : string)
    (opts : ApiService.options) (retryCount : nat) (w : ApiService.world)
    (e : ApiService.error) (status : Z) :
  ApiService.cacheFirst opts
  && Js.truthy (ApiService.getFromCache w endpoint) = false ->
  net (ApiService.sent w) = ApiService.Rejected e ->
  ApiService.response e = Some status ->
  400 <= status < 500 ->
  ApiService.fetchWithRetry self net isoNow endpoint opts retryCount w
  = Some (if Js.truthy (ApiService.getFromCache w endpoint)
          then ApiService.Return
                 (ApiService.fromCache w endpoint
                    (ApiService.getFromCache w endpoint))
          else ApiService.Throw e,
          ApiService.issue (ApiService.request self endpoint opts) w).
Proof.
  intros Hfirst Hnet Hresp Hstatus.
  unfold ApiService.fetchWithRetry. cbn [ApiService.fetchWithRetry_fuel].
  rewrite Hfirst, Hnet.
  assert (Hno : ApiService.isRetryableError e = false).
  { unfold ApiService.isRetryableError. rewrite Hresp.
    apply Z.leb_gt. lia. }
  rewrite Hno, andb_false_r.
  change (ApiService.getFromCache
            (ApiService.issue (ApiService.request self endpoint opts) w)
            endpoint)
    with (ApiService.getFromCache w endpoint).
  by destruct (Js.truthy (ApiService.getFromCache w endpoint)).
Qed.

Lemma fetchWithRetry_client_error_not_retried_404 :
  ApiService.fetchWithRetry (ApiService.new None) ApiService.answers404
    ApiService.anyTime "patterns" ApiService.plain 0 ApiService.emptyWorld
  = Some (ApiService.Throw ApiService.notFound,
          ApiService.issue
            (ApiService.request (ApiService.new None) "patterns"
                                ApiService.plain)
            ApiService.emptyWorld).
Proof.
  apply (fetchWithRetry_client_error_not_retried (ApiService.new None)
           ApiService.answers404 ApiService.anyTime "patterns"
           ApiService.plain 0 ApiService.emptyWorld ApiService.notFound 404).
  - reflexivity.
  - reflexivity.
  - reflexivity.
  - lia.
Defined.

(** C4, as stated, fails: the server answers 404 and the cache holds a
    payload for the endpoint; the call returns the cached payload and
    the failure does not reach the caller. *)
Lemma fetchWithRetry_404_returns_cached :
  exists w',
    ApiService.fetchWithRetry (ApiService.new None) ApiService.answers404
      ApiService.anyTime "patterns" ApiService.plain 0
      (ApiService.cachedWorld (Js.Arr [Js.Str "*.pdf"]))
    = Some (ApiService.Return
              (Js.Obj [("data"%string, Js.Arr [Js.Str "*.pdf"]);
                       ("fromCache"%string, Js.Bool true);
                       ("timestamp"%string,
                        Js.Str "2025-02-28T09:00:00.000Z")]), w')
    /\ ApiService.attempts (ApiService.trace w') = 1%nat.
Proof.
  eexists. split; [vm_compute; reflexivity|]. by vm_compute.
Qed.

(** ** Watchdog.checkService *)

(** C5.  A health check finds a monitored service absent, and with
    this failure its count is MAX_FAILURES or more.  While less than
    RECOVERY_TIME has passed since lastRecoveryAttempt the check only
    counts the failure: nothing is backed up, killed or started.  Once
    RECOVERY_TIME has passed the check sets the count back to 0,
    records the attempt and restarts the service exactly once: it
    backs up the critical files when the service is critical, kills
    what is left under the service's window title, and runs the
    service's start script under that title. *)
Theorem checkService_cooldown
    (p : Watchdog.probe) (now : Z) (serviceName : string)
    (cfg : Watchdog.serviceConfig) (st : Watchdog.state) (count last : Z) :
  Watchdog.isRunning p = false ->
  Watchdog.failures st !! serviceName = Some (Js.Int count) ->
  Watchdog.lastRecoveryAttempt st !! serviceName = Some (Js.Int last) ->
  Watchdog.MAX_FAILURES <= count + 1 ->
  (now - last < Watchdog.RECOVERY_TIME ->
   Watchdog.checkService p now serviceName cfg st
   = ({| Watchdog.failures :=
           <[serviceName := Js.Int (count + 1)]> (Watchdog.failures st);
         Watchdog.lastRecoveryAttempt := Watchdog.lastRecoveryAttempt st |},
      []))
  /\
  (Watchdog.RECOVERY_TIME <= now - last ->
   Watchdog.checkService p now serviceName cfg st
   = ({| Watchdog.failures :=
           <[serviceName := Js.Int 0]> (Watchdog.failures st);
         Watchdog.lastRecoveryAttempt :=
           <[serviceName := Js.Int now]> (Watchdog.lastRecoveryAttempt st) |},
      (if String.eqb (Watchdog.importance cfg) "critical"
       then [Watchdog.BackupCriticalFiles] else [])
      ++ [Watchdog.KillZombies (Watchdog.windowTitle cfg);
          Watchdog.Start (Watchdog.windowTitle cfg)
                         (Watchdog.startScript cfg)])
   /\ Watchdog.restarts
        (Watchdog.checkService p now serviceName cfg st).2 = 1%nat).
Proof.
  intros Hrun Hcount Hlast Hmax.
  unfold Watchdog.checkService, Watchdog.handleServiceFailure.
  rewrite Hrun, Hcount. cbn [negb Js.incr Js.geb Watchdog.lastRecoveryAttempt].
  rewrite Hlast. cbn [Js.sub Js.ltb].
  assert (Hge : (Watchdog.MAX_FAILURES <=? count + 1) = true)
    by (apply Z.leb_le; lia).
  rewrite Hge. split; intros Htime.
  - assert (Hlt : (now - last <? Watchdog.RECOVERY_TIME) = true)
      by (apply Z.ltb_lt; lia).
    by rewrite Hlt.
  - assert (Hlt : (now - last <? Watchdog.RECOVERY_TIME) = false)
      by (apply Z.ltb_ge; lia).
    rewrite Hlt. unfold Watchdog.restart.
    cbn [Watchdog.failures Watchdog.lastRecoveryAttempt snd].
    rewrite insert_insert_eq. split; [reflexivity|].
    unfold Watchdog.restarts.
    by destruct (String.eqb (Watchdog.importance cfg) "critical").
Qed.

Lemma checkService_cooldown_apiServer :
  Watchdog.checkService Watchdog.absent 100000 "apiServer"
    Watchdog.apiServer (Watchdog.counted 4 0)
  = ({| Watchdog.failures :=
          <["apiServer"%string := Js.Int 5]>
            (Watchdog.failures (Watchdog.counted 4 0));
        Watchdog.lastRecoveryAttempt :=
          Watchdog.lastRecoveryAttempt (Watchdog.counted 4 0) |}, [])
  /\
  Watchdog.checkService Watchdog.absent 400000 "apiServer"
    Watchdog.apiServer (Watchdog.counted 7 0)
  = ({| Watchdog.failures :=
          <["apiServer"%string := Js.Int 0]>
            (Watchdog.failures (Watchdog.counted 7 0));
        Watchdog.lastRecoveryAttempt :=
          <["apiServer"%string := Js.Int 400000]>
            (Watchdog.lastRecoveryAttempt (Watchdog.counted 7 0)) |},
     [Watchdog.BackupCriticalFiles;
      Watchdog.KillZombies "Sorting Hat API Server";
      Watchdog.Start "Sorting Hat API Server" "node service.js"]).
Proof.
  split.
  - apply (checkService_cooldown Watchdog.absent 100000 "apiServer"
             Watchdog.apiServer (Watchdog.counted 4 0) 4 0);
      [reflexivity | reflexivity | reflexivity | by vm_compute | by vm_compute].
  - apply (checkService_cooldown Watchdog.absent 400000 "apiServer"
             Watchdog.apiServer (Watchdog.counted 7 0) 7 0);
      [reflexivity | reflexivity | reflexivity | by vm_compute | by vm_compute].
Defined.

(** start() gives every monitored service integer counters, and no
    health check ever turns a counter into NaN: the hypotheses of the
    theorem on the two counters hold in every state the watchdog
    reaches. *)
Lemma start_counters (serviceName : string) (cfg : Watchdog.serviceConfig) :
  (serviceName, cfg) ∈ Watchdog.servicesMap ->
  Watchdog.failures (Watchdog.start Watchdog.new) !! serviceName
  = Some (Js.Int 0)
  /\ Watchdog.lastRecoveryAttempt (Watchdog.start Watchdog.new)
       !! serviceName = Some (Js.Int 0).
Proof.
  unfold Watchdog.servicesMap. rewrite !elem_of_cons, elem_of_nil.
  intros [[= -> _] | [[= -> _] | []]]; split; by vm_compute.
Qed.

Lemma checkService_keeps_counters
    (p : Watchdog.probe) (now : Z) (serviceName other : string)
    (cfg : Watchdog.serviceConfig) (st : Watchdog.state) :
  (exists c, Watchdog.failures st !! serviceName = Some (Js.Int c)) ->
  (exists c, Watchdog.failures st !! other = Some (Js.Int c)) ->
  (exists t, Watchdog.lastRecoveryAttempt st !! other = Some (Js.Int t)) ->
  (exists c,
     Watchdog.failures
       (Watchdog.checkService p now serviceName cfg st).1 !! other
     = Some (Js.Int c))
  /\ (exists t,
        Watchdog.lastRecoveryAttempt
          (Watchdog.checkService p now serviceName cfg st).1 !! other
        = Some (Js.Int t)).
Proof.
  intros [c Hc] [c' Hc'] [t' Ht'].
  unfold Watchdog.checkService, Watchdog.handleServiceFailure,
    Watchdog.restart.
  rewrite Hc. cbn [Js.incr Js.geb Js.gtb].
  destruct (decide (other = serviceName)) as [->|Hne];
    repeat match goal with
           | |- context [if ?b then _ else _] => destruct b
           end;
    cbn [fst Watchdog.failures Watchdog.lastRecoveryAttempt];
    rewrite ?lookup_insert_eq, ?lookup_insert_ne by congruence;
    eauto.
Qed.

(** Below MAX_FAILURES every observed absence restarts the service. *)
Lemma checkService_restarts_below_max
    (p : Watchdog.probe) (now : Z) (serviceName : string)
    (cfg : Watchdog.serviceConfig) (st : Watchdog.state) (count : Z) :
  Watchdog.isRunning p = false ->
  Watchdog.failures st !! serviceName = Some (Js.Int count) ->
  count + 1 < Watchdog.MAX_FAILURES ->
  Watchdog.restarts (Watchdog.checkService p now serviceName cfg st).2
  = 1%nat.
Proof.
  intros Hrun Hcount Hmax.
  unfold Watchdog.checkService, Watchdog.handleServiceFailure.
  rewrite Hrun, Hcount. cbn [negb Js.incr Js.geb].
  assert (Hge : (Watchdog.MAX_FAILURES <=? count + 1) = false)
    by (apply Z.leb_gt; lia).
  rewrite Hge. unfold Watchdog.restart, Watchdog.restarts. cbn [snd].
  by destruct (String.eqb (Watchdog.importance cfg) "critical").
Qed.

(** ** SystemProtection: the memory guard *)

Section MemoryFacts.

Import SystemProtection.

Variable cfg : config.
Variable sha256 : string -> string.
Variable fs : disk.
Variable os : nat -> reading.
Variable gcExposed : bool.

(** The cleanup changes nothing but the backup directory. *)
Lemma cleanupOldBackups_rest (maxBackups : nat) (st : state) :
  programDir (cleanupOldBackups fs maxBackups st) = programDir st
  /\ criticalFileHashes (cleanupOldBackups fs maxBackups st)
     = criticalFileHashes st
  /\ reads (cleanupOldBackups fs maxBackups st) = reads st
  /\ log (cleanupOldBackups fs maxBackups st) = log st.
Proof. unfold cleanupOldBackups. by destruct (existsb _ _). Qed.

(** A backup logs its end once, whichever way it ends. *)
Lemma backupCriticalFiles_log (now : clock) (st : state) :
  exists backup,
    (backup = BackedUp ("backup-" ++ stamp now)
     \/ backup = BackupFailed ("backup-" ++ stamp now))
    /\ log (backupCriticalFiles cfg sha256 fs now st) = log st ++ [backup].
Proof.
  unfold backupCriticalFiles.
  destruct (mkdirFails fs _); [eexists; split; [by right|done]|].
  destruct (foldl (backupFile sha256 fs st) (∅, criticalFileHashes st, false)
                  (criticalProgramFiles cfg)) as [[copied hashes] failed].
  destruct failed; eexists.
  - split; [by right|done].
  - split; [by left|].
    by rewrite (proj2 (proj2 (proj2 (cleanupOldBackups_rest _ _)))).
Qed.

Lemma restartService_log (now : clock) (st : state) :
  exists backup,
    (backup = BackedUp ("backup-" ++ stamp now)
     \/ backup = BackupFailed ("backup-" ++ stamp now))
    /\ log (restartService cfg sha256 fs now st)
       = log st ++ [backup; Exec "restart_api_server.bat"].
Proof.
  destruct (backupCriticalFiles_log now st) as (backup & Hb & Hlog).
  exists backup. split; [exact Hb|].
  unfold restartService. cbn [emit log]. by rewrite Hlog, <- app_assoc.
Qed.

Lemma restarts_app (l1 l2 : list action) :
  restarts (l1 ++ l2) = (restarts l1 + restarts l2)%nat.
Proof. unfold restarts. by rewrite List.filter_app, length_app. Qed.

Lemma collections_app (l1 l2 : list action) :
  collections (l1 ++ l2) = (collections l1 + collections l2)%nat.
Proof. unfold collections. by rewrite List.filter_app, length_app. Qed.

End MemoryFacts.

(** C6, as amended.  One memory check, by the band of its first
    reading, the usage being compared as the double
    (used / total) * 100.  Between the warning threshold and the
    critical limit it calls collectGarbage and nothing else.  Above the
    critical limit it calls collectGarbage, takes a second reading, and
    restarts (after an attempt at a backup) exactly when that second
    reading is still above the limit.  Whatever the readings, a check
    adds at most one restart.  A call of collectGarbage collects only
    when node runs with --expose-gc; without it nothing is
    collected. *)
Theorem checkMemoryUsage_escalation
    (cfg : SystemProtection.config) (sha256 : string -> string)
    (fs : SystemProtection.disk)
    (os : nat -> SystemProtection.reading) (gcExposed : bool)
    (now : SystemProtection.clock) (st : SystemProtection.state) :
  let first := os (SystemProtection.reads st) in
  let second := os (S (SystemProtection.reads st)) in
  let gc := if gcExposed then SystemProtection.Gc
            else SystemProtection.GcUnavailable in
  let limit := SystemProtection.memoryLimit cfg in
  let folder := ("backup-" ++ SystemProtection.stamp now)%string in
  let after :=
    SystemProtection.log
      (SystemProtection.checkMemoryUsage cfg sha256 fs os gcExposed
                                         now st) in
  (exists backup,
     (backup = SystemProtection.BackedUp folder
      \/ backup = SystemProtection.BackupFailed folder)
     /\ after
        = SystemProtection.log st
          ++ (if SystemProtection.exceeds first limit then
                if SystemProtection.exceeds second limit
                then [SystemProtection.Sampled first; gc;
                      SystemProtection.Sampled second; backup;
                      SystemProtection.Exec "restart_api_server.bat"]
                else [SystemProtection.Sampled first; gc;
                      SystemProtection.Sampled second]
              else if SystemProtection.exceeds first
                        (SystemProtection.memoryThreshold cfg)
                   then [SystemProtection.Sampled first; gc]
                   else [SystemProtection.Sampled first]))
  /\ (SystemProtection.restarts after
      <= SystemProtection.restarts (SystemProtection.log st) + 1)%nat
  /\ (SystemProtection.restarts after
      = S (SystemProtection.restarts (SystemProtection.log st))
      <-> SystemProtection.exceeds first limit = true
          /\ SystemProtection.exceeds second limit = true)
  /\ SystemProtection.collections after
     = (SystemProtection.collections (SystemProtection.log st)
        + (if gcExposed
              && (SystemProtection.exceeds first limit
                  || SystemProtection.exceeds first
                       (SystemProtection.memoryThreshold cfg))
           then 1 else 0))%nat.
Proof.
  intros first second gc limit folder after.
  assert (Hlog : exists backup,
    (backup = SystemProtection.BackedUp folder
     \/ backup = SystemProtection.BackupFailed folder)
    /\ after
       = SystemProtection.log st
         ++ (if SystemProtection.exceeds first limit then
               if SystemProtection.exceeds second limit
               then [SystemProtection.Sampled first; gc;
                     SystemProtection.Sampled second; backup;
                     SystemProtection.Exec "restart_api_server.bat"]
               else [SystemProtection.Sampled first; gc;
                     SystemProtection.Sampled second]
             else if SystemProtection.exceeds first
                       (SystemProtection.memoryThreshold cfg)
                  then [SystemProtection.Sampled first; gc]
                  else [SystemProtection.Sampled first])).
  { subst after.
    unfold SystemProtection.checkMemoryUsage,
      SystemProtection.handleExcessiveMemoryUsage, SystemProtection.sample.
    fold first limit.
    destruct (SystemProtection.exceeds first limit).
    - cbn [SystemProtection.collectGarbage SystemProtection.emit
           SystemProtection.reads SystemProtection.log].
      fold second gc.
      destruct (SystemProtection.exceeds second limit).
      + match goal with
        | |- context [SystemProtection.restartService _ _ _ _ ?s] =>
            destruct (restartService_log cfg sha256 fs now s)
              as (backup & Hb & ->)
        end.
        exists backup. split; [exact Hb|].
        cbn [SystemProtection.log]. by rewrite <- !app_assoc.
      + exists (SystemProtection.BackedUp folder). split; [by left|].
        cbn [SystemProtection.log]. by rewrite <- !app_assoc.
    - exists (SystemProtection.BackedUp folder). split; [by left|].
      destruct (SystemProtection.exceeds first
                  (SystemProtection.memoryThreshold cfg)).
      + cbn [SystemProtection.collectGarbage SystemProtection.emit
             SystemProtection.log].
        fold gc. by rewrite <- !app_assoc.
      + reflexivity. }
  split; [exact Hlog|].
  destruct Hlog as (backup & Hbackup & Hlog).
  rewrite Hlog, restarts_app, collections_app.
  destruct (SystemProtection.exceeds first limit),
    (SystemProtection.exceeds second limit),
    (SystemProtection.exceeds first (SystemProtection.memoryThreshold cfg));
    subst gc; destruct gcExposed, Hbackup as [-> | ->]; cbn;
    (split; [lia|]); (split; [|lia]);
    (split; [try lia; done|]); (try lia); (try done);
    intros [? ?]; done.
Qed.

(** The two scenarios of the specification, with warn = 80 and
    critical = 90, under --expose-gc: at 85% the collector runs and
    nothing restarts; at 95%, and still 92% after the collection, one
    restart follows. *)
Lemma checkMemoryUsage_escalation_scenarios :
  SystemProtection.log
    (SystemProtection.checkMemoryUsage SystemProtection.defaults
       SystemProtection.plain_digest SystemProtection.sound
       (SystemProtection.readings [15]) true SystemProtection.noon
       SystemProtection.fresh)
  = [SystemProtection.Sampled
       {| SystemProtection.totalmem := 100; SystemProtection.freemem := 15 |};
     SystemProtection.Gc]
  /\
  SystemProtection.restarts
    (SystemProtection.log
       (SystemProtection.checkMemoryUsage SystemProtection.defaults
          SystemProtection.plain_digest SystemProtection.sound
          (SystemProtection.readings [5; 8]) true SystemProtection.noon
          SystemProtection.fresh))
  = 1%nat.
Proof.
  split.
  - destruct (checkMemoryUsage_escalation SystemProtection.defaults
                SystemProtection.plain_digest SystemProtection.sound
                (SystemProtection.readings [15]) true
                SystemProtection.noon SystemProtection.fresh)
      as ((backup & _ & Hlog) & _).
    exact Hlog.
  - apply (proj1 (proj2 (proj2 (checkMemoryUsage_escalation
                           SystemProtection.defaults
                           SystemProtection.plain_digest
                           SystemProtection.sound
                           (SystemProtection.readings [5; 8]) true
                           SystemProtection.noon SystemProtection.fresh)))).
    split; reflexivity.
Defined.

(** C6, as stated, fails where node runs without --expose-gc, which is
    how the launchers start it: at 85% the check calls collectGarbage,
    which finds no global.gc and collects nothing. *)
Lemma checkMemoryUsage_without_expose_gc :
  SystemProtection.log
    (SystemProtection.checkMemoryUsage SystemProtection.defaults
       SystemProtection.plain_digest SystemProtection.sound
       (SystemProtection.readings [15]) false SystemProtection.noon
       SystemProtection.fresh)
  = [SystemProtection.Sampled
       {| SystemProtection.totalmem := 100; SystemProtection.freemem := 15 |};
     SystemProtection.GcUnavailable]
  /\ SystemProtection.collections
       (SystemProtection.log
          (SystemProtection.checkMemoryUsage SystemProtection.defaults
             SystemProtection.plain_digest SystemProtection.sound
             (SystemProtection.readings [15]) false SystemProtection.noon
             SystemProtection.fresh))
     = 0%nat.
Proof. split; by vm_compute. Qed.

(** The comparison is one of doubles: a usage of exactly 7 in 100 is
    above a limit of 7, since (7 / 100) * 100 is 7.000000000000001,
    and a host that reports no memory at all is above no limit. *)
Example exceeds_is_on_doubles :
  SystemProtection.exceeds
    {| SystemProtection.totalmem := 100; SystemProtection.freemem := 93 |} 7
  = true
  /\ SystemProtection.exceeds
       {| SystemProtection.totalmem := 100; SystemProtection.freemem := 92 |} 8
     = false
  /\ SystemProtection.exceeds
       {| SystemProtection.totalmem := 0; SystemProtection.freemem := 0 |} 0
     = false.
Proof. repeat split; by vm_compute. Qed.

(** ** SystemProtection: the file-integrity guard *)

Section SortFacts.

Import SystemProtection.

Lemma insert_sorted_perm {A : Type} (cmp : A -> A -> Z) (x : A) :
  forall l, Js.insert_sorted cmp x l ≡ₚ x :: l.
Proof.
  induction l as [|y l IH]; cbn; [done|].
  destruct (cmp x y <=? 0); [done|].
  rewrite IH. apply Permutation_swap.
Qed.

Lemma sort_perm {A : Type} (cmp : A -> A -> Z) :
  forall l, Js.sort cmp l ≡ₚ l.
Proof.
  induction l as [|x l IH]; cbn; [done|].
  unfold Js.sort in IH. by rewrite insert_sorted_perm, IH.
Qed.




End SortFacts.

Section IntegrityFacts.

Import SystemProtection.

Variable cfg : config.
Variable sha256 : string -> string.

Lemma inspect_damaged (st : state) (file : string) :
  is_Some (inspect sha256 st file) <-> damaged sha256 st file.
Proof.
  unfold inspect, damaged.
  destruct (programDir st !! file) as [content|] eqn:Hfile.
  - destruct (baseline st file) as [h|] eqn:Hbase.
    + destruct (String.eqb_spec (sha256 content) h) as [Heq|Hne].
      * split; [intros [? ?]; done|].
        intros [?|(c & h' & Hc & Hh & Hd)]; [done|]. congruence.
      * split; [|done]. intros _. right. by exists content, h.
    + split; [intros [? ?]; done|].
      intros [?|(c & h' & Hc & Hh & Hd)]; done.
  - split; [by left|done].
Qed.

(** The array corruptedFiles holds the critical files that are damaged. *)
Lemma corruptedFiles_spec (st : state) (file : string) :
  file ∈ corruptedFiles cfg sha256 st
  <-> file ∈ criticalProgramFiles cfg /\ damaged sha256 st file.
Proof.
  unfold corruptedFiles.
  rewrite !list_elem_of_In, filter_In, bool_decide_eq_true.
  by rewrite inspect_damaged.
Qed.

Lemma inspect_reports (st : state) (file : string) (a : action) :
  inspect sha256 st file = Some a ->
  a = Missing file \/ a = IntegrityFailed file.
Proof.
  unfold inspect.
  destruct (programDir st !! file); [|intros [= <-]; by left].
  destruct (baseline st file); [|done].
  destruct (String.eqb _ _); [done|]. intros [= <-]. by right.
Qed.

(** What the loop of checkFileIntegrity logs names exactly the files it
    pushes on corruptedFiles, and restores nothing. *)
Lemma reported_inspect (st : state) (l : list string) :
  reported (omap (inspect sha256 st) l)
  = List.filter (fun file => bool_decide (is_Some (inspect sha256 st file))) l
  /\ restored (omap (inspect sha256 st) l) = [].
Proof.
  unfold reported, restored.
  induction l as [|f l [IH1 IH2]]; [done|]. cbn.
  destruct (inspect sha256 st f) as [a|] eqn:Ha.
  - rewrite bool_decide_true by done.
    destruct (inspect_reports _ _ _ Ha) as [-> | ->]; cbn;
      by rewrite ?IH1, ?IH2.
  - rewrite bool_decide_false by (intros [? ?]; done). done.
Qed.

(** The loop of restoreFromBackup: a file of the list is overwritten
    by its copy in the snapshot, when the snapshot has one; everything
    else stays. *)
Lemma restoreFile_loop (latest : snapshot) :
  forall (corrupted : list string) (st : state),
    let st' := foldl (restoreFile latest) st corrupted in
    (forall file,
       programDir st' !! file
       = if bool_decide (file ∈ corrupted)
         then match files latest !! file with
              | Some content => Some content
              | None => programDir st !! file
              end
         else programDir st !! file)
    /\ log st'
       = log st ++ ((fun file => match files latest !! file with
                                 | Some _ => Restored file (name latest)
                                 | None => CannotRestore file
                                 end) <$> corrupted)
    /\ backups st' = backups st
    /\ criticalFileHashes st' = criticalFileHashes st.
Proof.
  induction corrupted as [|f corrupted IH]; intros st; cbn zeta.
  - cbn. rewrite app_nil_r. repeat split; try done.
  - cbn [foldl].
    destruct (IH (restoreFile latest st f)) as (Hdir & Hlog & Hb & Hh).
    repeat split.
    + intros file. rewrite Hdir. unfold restoreFile.
      destruct (decide (file = f)) as [->|Hne].
      * rewrite (bool_decide_true (f ∈ f :: corrupted)) by (by left).
        destruct (files latest !! f) as [c|] eqn:Hc; cbn.
        -- rewrite lookup_insert_eq. by case_bool_decide.
        -- by case_bool_decide.
      * assert (Hiff : file ∈ f :: corrupted <-> file ∈ corrupted)
          by (rewrite elem_of_cons; tauto).
        rewrite (bool_decide_ext _ _ Hiff).
        destruct (files latest !! f) as [c|]; cbn; [|done].
        by rewrite lookup_insert_ne by congruence.
    + rewrite Hlog, fmap_cons. unfold restoreFile.
      destruct (files latest !! f); cbn [log emit];
        by rewrite <- app_assoc.
    + rewrite Hb. unfold restoreFile. by destruct (files latest !! f).
    + rewrite Hh. unfold restoreFile. by destruct (files latest !! f).
Qed.

Lemma restoration_log (latest : snapshot) (corrupted : list string) :
  reported ((fun file => match files latest !! file with
                         | Some _ => Restored file (name latest)
                         | None => CannotRestore file
                         end) <$> corrupted) = []
  /\ restored ((fun file => match files latest !! file with
                            | Some _ => Restored file (name latest)
                            | None => CannotRestore file
                            end) <$> corrupted)
     = List.filter (fun file => bool_decide (is_Some (files latest !! file)))
                   corrupted.
Proof.
  unfold reported, restored.
  induction corrupted as [|f l [IH1 IH2]]; [done|].
  rewrite fmap_cons. cbn [List.filter].
  destruct (files latest !! f) as [c|] eqn:Hf; cbn; by rewrite ?IH1, ?IH2.
Qed.

(** checkFileIntegrity as a whole: which files change and how, what is
    reported and what is restored. *)
Lemma checkFileIntegrity_effect (st : state) :
  (forall file,
     programDir (checkFileIntegrity cfg sha256 st) !! file
     = if bool_decide (file ∈ corruptedFiles cfg sha256 st)
       then match listBackups st with
            | latest :: _ =>
                match files latest !! file with
                | Some content => Some content
                | None => programDir st !! file
                end
            | [] => programDir st !! file
            end
       else programDir st !! file)
  /\ reported (news st (checkFileIntegrity cfg sha256 st))
     = corruptedFiles cfg sha256 st
  /\ restored (news st (checkFileIntegrity cfg sha256 st))
     = match listBackups st with
       | latest :: _ =>
           List.filter
             (fun file => bool_decide (is_Some (files latest !! file)))
             (corruptedFiles cfg sha256 st)
       | [] => []
       end.
Proof.
  destruct (reported_inspect st (criticalProgramFiles cfg)) as [Hrep Hres].
  fold (corruptedFiles cfg sha256 st) in Hrep.
  unfold checkFileIntegrity, news.
  destruct (corruptedFiles cfg sha256 st) as [|c cs] eqn:Hcorrupted.
  - cbn [programDir log]. rewrite drop_app_length, Hrep, Hres.
    split; [|split; [done|by destruct (listBackups st)]].
    intros file. rewrite bool_decide_false; [done|]. by intros ?%elem_of_nil.
  - unfold restoreFromBackup.
    change (listBackups {| programDir := programDir st;
                           backups := backups st;
                           criticalFileHashes := criticalFileHashes st;
                           reads := reads st;
                           log := log st
                                  ++ omap (inspect sha256 st)
                                          (criticalProgramFiles cfg) |})
      with (listBackups st).
    destruct (listBackups st) as [|latest rest].
    + cbn [emit programDir log].
      rewrite <- app_assoc, drop_app_length.
      unfold reported, restored in *. rewrite !omap_app, Hrep, Hres.
      split; [|cbn; by rewrite app_nil_r]. intros file. by case_bool_decide.
    + destruct (restoreFile_loop latest (c :: cs)
                  {| programDir := programDir st; backups := backups st;
                     criticalFileHashes := criticalFileHashes st;
                     reads := reads st;
                     log := log st
                            ++ omap (inspect sha256 st)
                                    (criticalProgramFiles cfg) |})
        as (Hdir & Hlog & _ & _).
      destruct (restoration_log latest (c :: cs)) as [Hrep' Hres'].
      split; [exact Hdir|].
      rewrite Hlog. cbn [log]. rewrite <- app_assoc, drop_app_length.
      unfold reported, restored in *.
      by rewrite !omap_app, Hrep, Hres, Hrep', Hres', app_nil_r.
Qed.


End IntegrityFacts.







(** The same process, had it run initialize() first: the backup taken
    at start-up records no baseline for the missing file, and the check
    still reports it. *)
Example checkFileIntegrity_reports_missing_after_initialize :
  SystemProtection.baseline
    (SystemProtection.backupCriticalFiles SystemProtection.twoFiles
       SystemProtection.plain_digest SystemProtection.sound
       SystemProtection.later
       (SystemProtection.relaunch SystemProtection.afterLoss)) "config.js"
  = None
  /\ SystemProtection.reported
       (SystemProtection.news
          (SystemProtection.backupCriticalFiles SystemProtection.twoFiles
             SystemProtection.plain_digest SystemProtection.sound
             SystemProtection.later
             (SystemProtection.relaunch SystemProtection.afterLoss))
          (SystemProtection.checkFileIntegrity SystemProtection.twoFiles
             SystemProtection.plain_digest
             (SystemProtection.backupCriticalFiles SystemProtection.twoFiles
                SystemProtection.plain_digest SystemProtection.sound
                SystemProtection.later
                (SystemProtection.relaunch SystemProtection.afterLoss))))
     = ["config.js"%string].
Proof. split; by vm_compute. Qed.

(** ** ErrorRecovery *)

Section RecoveryFacts.

Import ErrorRecovery.

Variable cfg : config.
Variable existsSync : string -> bool.

Lemma recoveries_app (l1 l2 : list event) :
  recoveries (l1 ++ l2) = (recoveries l1 + recoveries l2)%nat.
Proof. unfold recoveries. by rewrite List.filter_app, length_app. Qed.

(** A name that Object.prototype does not hold reads as an own
    property or as undefined. *)
Lemma getProp_not_inherited (k : string) (o : gmap string Js.number) :
  Js.inherited k = false -> Js.getProp o k <> Js.Inherited.
Proof.
  intros Hk. unfold Js.getProp.
  destruct (String.eqb_spec k "__proto__") as [->|_]; [by vm_compute in Hk|].
  rewrite Hk. by destruct (o !! k).
Qed.

(** So does every own property, but for [__proto__]. *)
Lemma getProp_own (k : string) (o : gmap string Js.number) (n : Js.number) :
  k <> "__proto__"%string -> o !! k = Some n ->
  Js.getProp o k <> Js.Inherited.
Proof.
  intros Hk Hn. unfold Js.getProp.
  destruct (String.eqb_spec k "__proto__") as [|_]; [done|]. by rewrite Hn.
Qed.

Lemma getProp_proto (k : string) (o : gmap string Js.number) :
  Js.getProp o k <> Js.Inherited -> k <> "__proto__"%string.
Proof. intros Hk ->. by apply Hk. Qed.

Lemma tally_own (st : state) (k : string) (c : Z) :
  k <> "__proto__"%string ->
  failureCount st !! k = Some (Js.Int c) -> tally st k = c.
Proof.
  intros Hk Hc. unfold tally, Js.getProp.
  destruct (String.eqb_spec k "__proto__") as [|_]; [done|]. by rewrite Hc.
Qed.

(** recordFailure on the counter of its own service, when the counter
    does not read as a member of Object.prototype. *)
Lemma recordFailure_own (serviceName : string) (st : state) :
  Js.getProp (failureCount st) serviceName <> Js.Inherited ->
  let b := bump cfg (includes (criticalServices cfg) serviceName)
                (tally st serviceName) in
  failureCount (recordFailure cfg existsSync serviceName st) !! serviceName
  = Some (Js.Int b.1)
  /\ recoveries (trace (recordFailure cfg existsSync serviceName st))
     = (recoveries (trace st) + (if b.2 then 1 else 0))%nat
  /\ errorLog (recordFailure cfg existsSync serviceName st) = errorLog st.
Proof.
  intros Hown.
  assert (Hstep : exists counts,
             recordFailure cfg existsSync serviceName st
             = (let st1 := {| failureCount := counts; errorLog := errorLog st;
                              trace := trace st |} in
                if (failureThreshold cfg <=? tally st serviceName + 1)
                then if includes (criticalServices cfg) serviceName
                     then initiateRecovery cfg existsSync serviceName st1
                     else st1
                else st1)
             /\ counts !! serviceName
                = Some (Js.Int (tally st serviceName + 1))
             /\ String.eqb serviceName "__proto__" = false).
  { unfold recordFailure, tally, Js.getProp, Js.setProp in *.
    destruct (String.eqb serviceName "__proto__") eqn:Hproto; [done|].
    destruct (failureCount st !! serviceName) as [[|z]|] eqn:Hcount.
    - cbn [Js.falsy]. rewrite !lookup_insert_eq. cbn [Js.succ Js.reaches].
      eexists. split; [reflexivity|]. by rewrite lookup_insert_eq.
    - cbn [Js.falsy]. destruct (Z.eqb_spec z 0) as [->|Hz].
      + rewrite !lookup_insert_eq. cbn [Js.succ Js.reaches].
        eexists. split; [reflexivity|]. by rewrite lookup_insert_eq.
      + rewrite Hcount. cbn [Js.succ]. rewrite lookup_insert_eq.
        cbn [Js.reaches].
        eexists. split; [reflexivity|]. by rewrite lookup_insert_eq.
    - destruct (Js.inherited serviceName); [done|].
      cbn [Js.falsy]. rewrite !lookup_insert_eq. cbn [Js.succ Js.reaches].
      eexists. split; [reflexivity|]. by rewrite lookup_insert_eq. }
  destruct Hstep as (counts & -> & Hcounts & Hproto).
  unfold bump, initiateRecovery, resetFailures, Js.setProp. rewrite Hproto.
  destruct (failureThreshold cfg <=? tally st serviceName + 1); cbn [andb].
  - destruct (includes (criticalServices cfg) serviceName); cbn [fst snd].
    + destruct (existsSync (restartScript cfg serviceName));
        cbn [emit failureCount trace errorLog];
        rewrite lookup_insert_eq, recoveries_app; by cbn.
    + cbn [failureCount trace errorLog]. split; [done|]. split; [lia|done].
  - cbn [fst snd failureCount trace errorLog].
    split; [done|]. split; [lia|done].
Qed.

(** recordFailure on the counters of the other services. *)
Lemma recordFailure_other (serviceName other : string) (st : state) :
  other <> serviceName ->
  failureCount (recordFailure cfg existsSync serviceName st) !! other
  = failureCount st !! other.
Proof.
  intros Hne.
  unfold recordFailure, initiateRecovery, resetFailures, Js.setProp.
  destruct (String.eqb serviceName "__proto__");
    destruct (Js.falsy _);
    destruct (Js.reaches _ _);
    try destruct (includes _ _);
    try destruct (existsSync _);
    cbn [emit failureCount];
    by rewrite ?lookup_insert_ne by congruence.
Qed.

(** recordFailure below the threshold, for every name: no recovery
    starts, and the counter goes up by one at most. *)
Lemma recordFailure_below (serviceName : string) (st : state) :
  tally st serviceName + 1 < failureThreshold cfg ->
  recoveries (trace (recordFailure cfg existsSync serviceName st))
  = recoveries (trace st)
  /\ tally (recordFailure cfg existsSync serviceName st) serviceName
     <= tally st serviceName + 1.
Proof.
  intros Hbelow.
  assert (Hcases : Js.getProp (failureCount st) serviceName = Js.Inherited
                   \/ Js.getProp (failureCount st) serviceName
                      <> Js.Inherited)
    by (destruct (Js.getProp _ _); [by right|by left|by right]).
  destruct Hcases as [Hinh|Hown].
  - unfold recordFailure, tally, Js.getProp, Js.setProp in *.
    destruct (String.eqb serviceName "__proto__") eqn:Hproto.
    + cbn [Js.falsy Js.succ Js.reaches trace failureCount].
      split; [done|]. destruct (failureCount st !! serviceName) as [[|z]|]; lia.
    + destruct (failureCount st !! serviceName) as [n|] eqn:Hcount; [done|].
      destruct (Js.inherited serviceName); [|done].
      cbn [Js.falsy]. rewrite Hcount. cbn [Js.succ].
      rewrite lookup_insert_eq. cbn [Js.reaches trace failureCount].
      rewrite lookup_insert_eq. split; [done|lia].
  - destruct (recordFailure_own serviceName st Hown) as (Hcount & Hrec & _).
    unfold bump in Hcount, Hrec.
    assert (Hno : (failureThreshold cfg <=? tally st serviceName + 1) = false)
      by (apply Z.leb_gt; lia).
    rewrite Hno in Hcount, Hrec. cbn [andb fst snd] in Hcount, Hrec.
    split; [lia|].
    rewrite (tally_own _ _ _ (getProp_proto _ _ Hown) Hcount). lia.
Qed.

(** A run of the loop of withRetry in which every call of the
    operation fails. *)
Lemma attemptLoop_all_fail (operation : nat -> outcome)
    (operationName : string) :
  (forall n, exists e, operation n = Rejected e) ->
  Js.inherited operationName = false ->
  forall (remaining attempt : nat) (lastError : option error) (st : state),
    let b := bumps cfg remaining
               (includes (criticalServices cfg) operationName)
               (tally st operationName) in
    let out := attemptLoop cfg existsSync operation operationName
                           remaining attempt lastError st in
    tally out.2 operationName = b.1
    /\ recoveries (trace out.2) = (recoveries (trace st) + b.2)%nat
    /\ (remaining <> 0%nat ->
        (exists e, out.1 = ThrowFailed operationName (maxRetries cfg) e)
        /\ failureCount out.2 !! operationName = Some (Js.Int b.1)).
Proof.
  intros Hfail Hname.
  induction remaining as [|remaining IH]; intros attempt lastError st.
  - cbn. split; [done|]. split; [lia|done].
  - cbn zeta. cbn [attemptLoop bumps].
    destruct (Hfail attempt) as [e He]. rewrite He.
    destruct (recordFailure_own operationName st) as (Hcount & Hrec & _);
      [by apply getProp_not_inherited|].
    set (st1 := recordFailure cfg existsSync operationName st) in *.
    set (st3 := if (S attempt <? maxRetries cfg)%nat
                then emit (Delay (delayFor cfg attempt))
                          (logError operationName e attempt st1)
                else logError operationName e attempt st1).
    assert (Hc3 : failureCount st3 = failureCount st1)
      by (subst st3; by destruct (S attempt <? maxRetries cfg)%nat).
    assert (Hr3 : recoveries (trace st3) = recoveries (trace st1)).
    { subst st3. destruct (S attempt <? maxRetries cfg)%nat;
        cbn [emit logError trace]; rewrite !recoveries_app; cbn; lia. }
    destruct (bump cfg (includes (criticalServices cfg) operationName)
                (tally st operationName))
      as [c1 started] eqn:Hbump.
    cbn [fst snd] in Hcount, Hrec.
    assert (Hd : tally st3 operationName = c1).
    { apply tally_own; [|by rewrite Hc3].
      by apply (getProp_proto operationName ∅), getProp_not_inherited. }
    destruct (IH (S attempt) (Some e) st3) as (IHc & IHr & IHt).
    rewrite Hd in IHc, IHr, IHt.
    destruct (bumps cfg remaining
                (includes (criticalServices cfg) operationName) c1)
      as [c2 more] eqn:Hbumps.
    cbn [fst snd] in *.
    split; [exact IHc|]. split; [rewrite IHr, Hr3, Hrec; lia|].
    intros _. destruct remaining as [|remaining'].
    + cbn in Hbumps. injection Hbumps as <- <-.
      split; [by exists e|]. cbn [attemptLoop snd]. by rewrite Hc3.
    + by apply IHt.
Qed.

(** Below the threshold, or for a service that is not critical, the
    counter only grows. *)
Lemma bumps_below (critical : bool) :
  forall (n : nat) (count : Z),
    critical = false \/ count + Z.of_nat n < failureThreshold cfg ->
    bumps cfg n critical count = (count + Z.of_nat n, 0%nat).
Proof.
  induction n as [|n IH]; intros count Hbelow.
  - cbn. f_equal. lia.
  - cbn [bumps]. unfold bump.
    assert (Hno : (failureThreshold cfg <=? count + 1) && critical = false).
    { destruct Hbelow as [-> | Hlt]; [apply andb_false_r|].
      apply andb_false_iff. left. apply Z.leb_gt. lia. }
    rewrite Hno, IH.
    + f_equal. lia.
    + destruct Hbelow; [by left|right; lia].
Qed.

(** Three failures of a critical service that reach a threshold of 3 or
    more: one recovery, and the count starts again from 0 at the
    attempt that reached it. *)
Lemma bumps_reaching (count : Z) :
  3 <= failureThreshold cfg ->
  failureThreshold cfg <= count + 3 ->
  bumps cfg 3 true count
  = (3 - Z.max 1 (failureThreshold cfg - count), 1%nat).
Proof.
  intros Hthree Hreach.
  assert (Hyes : forall c, failureThreshold cfg <= c + 1 ->
                           bump cfg true c = (0, true)).
  { intros c Hc. unfold bump.
    by rewrite (proj2 (Z.leb_le _ _) Hc). }
  assert (Hno : forall c, c + 1 < failureThreshold cfg ->
                          bump cfg true c = (c + 1, false)).
  { intros c Hc. unfold bump.
    by rewrite (proj2 (Z.leb_gt _ _) Hc). }
  cbn [bumps].
  destruct (Z.le_gt_cases (failureThreshold cfg) (count + 1)) as [H1|H1].
  - rewrite (Hyes count H1). cbn beta iota zeta.
    rewrite (Hno 0) by lia. cbn beta iota zeta.
    rewrite (Hno (0 + 1)) by lia. cbn beta iota zeta.
    f_equal. lia.
  - rewrite (Hno count) by lia. cbn beta iota zeta.
    destruct (Z.le_gt_cases (failureThreshold cfg) (count + 1 + 1))
      as [H2|H2].
    + rewrite (Hyes (count + 1) H2). cbn beta iota zeta.
      rewrite (Hno 0) by lia. cbn beta iota zeta.
      f_equal. lia.
    + rewrite (Hno (count + 1)) by lia. cbn beta iota zeta.
      rewrite (Hyes (count + 1 + 1)) by lia. cbn beta iota zeta.
      f_equal. lia.
Qed.

Lemma withRetry_all_fail (operation : nat -> outcome)
    (operationName : string) (st : state) :
  (forall n, exists e, operation n = Rejected e) ->
  Js.inherited operationName = false ->
  tally (withRetry cfg existsSync operation operationName st).2 operationName
  = (bumps cfg (maxRetries cfg)
           (includes (criticalServices cfg) operationName)
           (tally st operationName)).1
  /\ recoveries (trace (withRetry cfg existsSync operation operationName st).2)
     = (recoveries (trace st)
        + (bumps cfg (maxRetries cfg)
                 (includes (criticalServices cfg) operationName)
                 (tally st operationName)).2)%nat
  /\ (maxRetries cfg <> 0%nat ->
      (exists e,
         (withRetry cfg existsSync operation operationName st).1
         = ThrowFailed operationName (maxRetries cfg) e)
      /\ failureCount (withRetry cfg existsSync operation operationName st).2
           !! operationName
         = Some (Js.Int (bumps cfg (maxRetries cfg)
                               (includes (criticalServices cfg) operationName)
                               (tally st operationName)).1)).
Proof.
  intros Hfail Hname. unfold withRetry.
  exact (attemptLoop_all_fail operation operationName Hfail Hname
           (maxRetries cfg) 0%nat None st).
Qed.

End RecoveryFacts.

(** C10, as amended.  Every failed attempt of withRetry adds one to the
    failure count of the operation's name, a name that Object.prototype
    does not hold.  A call whose operation fails on all three attempts
    throws and leaves the count three higher, provided the name is not
    a critical service or the count stays below failureThreshold.  For
    a critical service whose count reaches the threshold (of 3 or more)
    during the call, the attempt that reaches it starts a recovery,
    which sets the count back to 0, and the attempts left count on
    from there.  With the threshold at 10, three such calls in a row
    bring a fresh counter to 9; the first attempt of the fourth starts
    the recovery and the call leaves the count at 2. *)
Theorem withRetry_counts_every_attempt
    (cfg : ErrorRecovery.config) (existsSync : string -> bool)
    (operation : nat -> ErrorRecovery.outcome) (operationName : string)
    (st : ErrorRecovery.state) :
  ErrorRecovery.maxRetries cfg = 3%nat ->
  (forall n, exists e, operation n = ErrorRecovery.Rejected e) ->
  Js.inherited operationName = false ->
  let count := ErrorRecovery.tally st operationName in
  let threshold := ErrorRecovery.failureThreshold cfg in
  let critical :=
    ErrorRecovery.includes (ErrorRecovery.criticalServices cfg)
                           operationName in
  let after := fun calls =>
    ErrorRecovery.retryTimes cfg existsSync calls operation operationName
                             st in
  (exists e,
     (ErrorRecovery.withRetry cfg existsSync operation operationName st).1
     = ErrorRecovery.ThrowFailed operationName 3 e)
  /\ (critical = false \/ count + 3 < threshold ->
      ErrorRecovery.failureCount (after 1%nat) !! operationName
      = Some (Js.Int (count + 3))
      /\ ErrorRecovery.recoveries (ErrorRecovery.trace (after 1%nat))
         = ErrorRecovery.recoveries (ErrorRecovery.trace st))
  /\ (critical = true -> 3 <= threshold -> threshold <= count + 3 ->
      ErrorRecovery.failureCount (after 1%nat) !! operationName
      = Some (Js.Int (3 - Z.max 1 (threshold - count)))
      /\ ErrorRecovery.recoveries (ErrorRecovery.trace (after 1%nat))
         = S (ErrorRecovery.recoveries (ErrorRecovery.trace st)))
  /\ (threshold = 10 -> critical = true -> count = 0 ->
      ErrorRecovery.failureCount (after 3%nat) !! operationName
      = Some (Js.Int 9)
      /\ ErrorRecovery.recoveries (ErrorRecovery.trace (after 3%nat))
         = ErrorRecovery.recoveries (ErrorRecovery.trace st)
      /\ ErrorRecovery.failureCount (after 4%nat) !! operationName
         = Some (Js.Int 2)
      /\ ErrorRecovery.recoveries (ErrorRecovery.trace (after 4%nat))
         = S (ErrorRecovery.recoveries (ErrorRecovery.trace st))).
Proof.
  intros Hmax Hfail Hname count threshold critical after.
  pose proof (fun s => withRetry_all_fail cfg existsSync operation
                         operationName s Hfail Hname) as Hcall.
  rewrite Hmax in Hcall.
  set (call := fun s => (ErrorRecovery.withRetry cfg existsSync operation
                           operationName s).2).
  assert (Hbelow : forall s c,
            ErrorRecovery.tally s operationName = c ->
            critical = false \/ c + 3 < threshold ->
            ErrorRecovery.failureCount (call s) !! operationName
            = Some (Js.Int (c + 3))
            /\ ErrorRecovery.tally (call s) operationName = c + 3
            /\ ErrorRecovery.recoveries (ErrorRecovery.trace (call s))
               = ErrorRecovery.recoveries (ErrorRecovery.trace s)).
  { intros s c Hs Hlt. destruct (Hcall s) as (Hc & Hr & Ht).
    destruct Ht as [_ Hl]; [done|].
    fold critical in Hc, Hr, Hl.
    rewrite Hs, (bumps_below cfg _ 3) in Hc, Hr, Hl by exact Hlt.
    cbn [fst snd] in Hc, Hr, Hl. subst call. cbn beta.
    split; [exact Hl|]. split; [exact Hc|lia]. }
  assert (Hreach : forall s c,
            ErrorRecovery.tally s operationName = c ->
            critical = true -> 3 <= threshold -> threshold <= c + 3 ->
            ErrorRecovery.failureCount (call s) !! operationName
            = Some (Js.Int (3 - Z.max 1 (threshold - c)))
            /\ ErrorRecovery.recoveries (ErrorRecovery.trace (call s))
               = S (ErrorRecovery.recoveries (ErrorRecovery.trace s))).
  { intros s c Hs Hcrit Hthree Hge. destruct (Hcall s) as (_ & Hr & Ht).
    destruct Ht as [_ Hl]; [done|].
    fold critical in Hr, Hl.
    rewrite Hs, Hcrit, (bumps_reaching cfg c Hthree Hge) in Hr, Hl.
    cbn [fst snd] in Hr, Hl. subst call. cbn beta.
    split; [exact Hl|lia]. }
  change (after 1%nat) with (call st).
  change (after 3%nat) with (call (call (call st))).
  change (after 4%nat) with (call (call (call (call st)))).
  split; [|split; [|split]].
  - destruct (Hcall st) as (_ & _ & Ht). by destruct Ht.
  - intros Hlt. destruct (Hbelow st count eq_refl Hlt) as (H1 & _ & H2).
    by split.
  - intros Hcrit Hthree Hge. by apply Hreach.
  - intros HT Hcrit H0.
    destruct (Hbelow st 0 H0) as (_ & T1 & R1); [right; lia|].
    destruct (Hbelow (call st) 3 T1) as (_ & T2 & R2); [right; lia|].
    destruct (Hbelow (call (call st)) 6 T2) as (L3 & T3 & R3); [right; lia|].
    change (6 + 3) with 9 in L3, T3.
    destruct (Hreach (call (call (call st))) 9 T3 Hcrit) as [L4 R4];
      [lia|lia|].
    rewrite HT in L4. change (3 - Z.max 1 (10 - 9)) with 2 in L4.
    split; [exact L3|]. split; [lia|]. split; [exact L4|lia].
Qed.

Lemma withRetry_counts_every_attempt_apiServer :
  ErrorRecovery.failureCount
    (ErrorRecovery.retryTimes ErrorRecovery.defaults
       ErrorRecovery.scriptsInstalled 1 ErrorRecovery.broken "apiServer"
       ErrorRecovery.new) !! "apiServer"%string
  = Some (Js.Int 3)
  /\ ErrorRecovery.failureCount
       (ErrorRecovery.retryTimes ErrorRecovery.defaults
          ErrorRecovery.scriptsInstalled 1 ErrorRecovery.broken "apiServer"
          (ErrorRecovery.counted "apiServer" 8)) !! "apiServer"%string
     = Some (Js.Int 1)
  /\ ErrorRecovery.recoveries
       (ErrorRecovery.trace
          (ErrorRecovery.retryTimes ErrorRecovery.defaults
             ErrorRecovery.scriptsInstalled 4 ErrorRecovery.broken
             "apiServer" ErrorRecovery.new))
     = 1%nat.
Proof.
  assert (Hfail : forall n, exists e,
             ErrorRecovery.broken n = ErrorRecovery.Rejected e)
    by (intros n; eexists; reflexivity).
  destruct (withRetry_counts_every_attempt ErrorRecovery.defaults
              ErrorRecovery.scriptsInstalled ErrorRecovery.broken
              "apiServer" ErrorRecovery.new eq_refl Hfail eq_refl)
    as (_ & Hplain & _ & Hten).
  destruct (withRetry_counts_every_attempt ErrorRecovery.defaults
              ErrorRecovery.scriptsInstalled ErrorRecovery.broken
              "apiServer" (ErrorRecovery.counted "apiServer" 8)
              eq_refl Hfail eq_refl)
    as (_ & _ & Hreset & _).
  split; [|split].
  - apply Hplain. right. by vm_compute.
  - apply Hreset; [reflexivity|by vm_compute|by vm_compute].
  - apply Hten; reflexivity.
Defined.

(** C10, as stated, fails for a critical service near the threshold:
    from a count of 8, a call that fails three times leaves the count
    at 1, not at 11; the second failure reaches 10 and the recovery it
    starts sets the counter back. *)
Lemma withRetry_count_reset_mid_call :
  ErrorRecovery.failureCount
    (ErrorRecovery.withRetry ErrorRecovery.defaults
       ErrorRecovery.scriptsInstalled ErrorRecovery.broken "apiServer"
       (ErrorRecovery.counted "apiServer" 8)).2 !! "apiServer"%string
  = Some (Js.Int 1)
  /\ ErrorRecovery.recoveries
       (ErrorRecovery.trace
          (ErrorRecovery.withRetry ErrorRecovery.defaults
             ErrorRecovery.scriptsInstalled ErrorRecovery.broken "apiServer"
             (ErrorRecovery.counted "apiServer" 8)).2)
     = 1%nat.
Proof. split; by vm_compute. Qed.

(** A name that Object.prototype holds is not counted in this way: the
    first failure of an operation called constructor stores NaN, the
    second sets the property to 0 and counts 1, and a call that fails
    three times leaves the count at 2. *)
Example withRetry_inherited_name_miscounts :
  ErrorRecovery.failureCount
    (ErrorRecovery.recordFailure ErrorRecovery.defaults
       ErrorRecovery.scriptsInstalled "constructor" ErrorRecovery.new)
    !! "constructor"%string = Some Js.NaN
  /\ ErrorRecovery.failureCount
       (ErrorRecovery.withRetry ErrorRecovery.defaults
          ErrorRecovery.scriptsInstalled ErrorRecovery.broken "constructor"
          ErrorRecovery.new).2 !! "constructor"%string
     = Some (Js.Int 2).
Proof. split; by vm_compute. Qed.

Section DebounceFacts.

Import ErrorRecovery.

Variable cfg : config.
Variable existsSync : string -> bool.
Variable service : string.

(** While the reports about a service keep its count below the
    threshold, none of them starts a recovery for it, whatever is
    reported about other services in between. *)
Lemma observe_quiet :
  forall (reports : list report) (st : state),
    tally st service + Z.of_nat (reportsFor service reports)
    < failureThreshold cfg ->
    forall r, r ∈ (observe cfg existsSync reports st).1 ->
              name r <> service.
Proof.
  induction reports as [|r0 rest IH]; intros st Hbelow r Hr.
  - cbn in Hr. by apply elem_of_nil in Hr.
  - cbn [observe] in Hr.
    set (st1 := recordFailure cfg existsSync (name r0) st) in *.
    destruct (observe cfg existsSync rest st1) as [started st2] eqn:Hobs.
    unfold reportsFor in Hbelow. cbn [List.filter] in Hbelow.
    destruct (String.eqb_spec (name r0) service) as [Heq|Hne].
    + cbn [length] in Hbelow.
      destruct (recordFailure_below cfg existsSync (name r0) st)
        as (Hrec & Hcount); [rewrite Heq; lia|].
      fold st1 in Hcount, Hrec. rewrite Heq in Hcount.
      assert (Hsame : (recoveries (trace st) <? recoveries (trace st1))%nat
                      = false) by (apply Nat.ltb_ge; lia).
      rewrite Hsame in Hr. cbn [fst] in Hr.
      apply (IH st1); [|by rewrite Hobs].
      unfold reportsFor. lia.
    + assert (Hkeep : tally st1 service = tally st service).
      { unfold tally, Js.getProp. subst st1.
        by rewrite recordFailure_other by congruence. }
      assert (Hrest : forall r', r' ∈ started -> name r' <> service).
      { intros r' Hr'. apply (IH st1); [|by rewrite Hobs].
        rewrite Hkeep. exact Hbelow. }
      cbn [fst] in Hr.
      destruct (recoveries (trace st) <? recoveries (trace st1))%nat;
        [|by apply Hrest].
      apply elem_of_cons in Hr as [-> | Hr]; [done|by apply Hrest].
Qed.

(** A burst of reports about a critical service starts its recovery
    with the report that brings the count to the threshold, and with no
    earlier one. *)
Lemma observe_burst (step : Z) :
  includes (criticalServices cfg) service = true ->
  service <> "__proto__"%string ->
  forall (n : nat) (first : Z) (st : state) (count : Z),
    failureCount st !! service = Some (Js.Int count) ->
    count + Z.of_nat n + 1 = failureThreshold cfg ->
    (observe cfg existsSync (burst service first step (S n)) st).1
    = [{| at_ms := first + Z.of_nat n * step; name := service |}].
Proof.
  intros Hcrit Hproto.
  induction n as [|n IH]; intros first st count Hown Hcount.
  - cbn [burst observe name].
    destruct (recordFailure_own cfg existsSync service st)
      as (_ & Hrec & _); [by eapply getProp_own|].
    unfold bump in Hrec.
    rewrite Hcrit, (tally_own _ _ _ Hproto Hown) in Hrec.
    assert (Hyes : (failureThreshold cfg <=? count + 1) = true)
      by (apply Z.leb_le; lia).
    rewrite Hyes in Hrec. cbn [andb snd] in Hrec.
    assert (Hmore : (recoveries (trace st)
                     <? recoveries
                          (trace (recordFailure cfg existsSync service st)))%nat
                    = true) by (apply Nat.ltb_lt; lia).
    rewrite Hmore. cbn. do 2 f_equal. lia.
  - change (burst service first step (S (S n)))
      with ({| at_ms := first; name := service |}
            :: burst service (first + step) step (S n)).
    cbn [observe name].
    destruct (recordFailure_own cfg existsSync service st)
      as (Hnext & Hrec & _); [by eapply getProp_own|].
    unfold bump in Hnext, Hrec.
    rewrite (tally_own _ _ _ Hproto Hown) in Hnext, Hrec.
    assert (Hno : (failureThreshold cfg <=? count + 1) = false)
      by (apply Z.leb_gt; lia).
    rewrite Hno in Hnext, Hrec. cbn [andb fst snd] in Hnext, Hrec.
    assert (Hsame : (recoveries (trace st)
                     <? recoveries
                          (trace (recordFailure cfg existsSync service st)))%nat
                    = false) by (apply Nat.ltb_ge; lia).
    rewrite Hsame.
    specialize (IH (first + step)
                   (recordFailure cfg existsSync service st)
                   (count + 1) Hnext).
    destruct (observe cfg existsSync
                (burst service (first + step) step (S n))
                (recordFailure cfg existsSync service st))
      as [started st2].
    cbn [fst] in *. rewrite IH.
    + do 2 f_equal. lia.
    + lia.
Qed.

End DebounceFacts.

(** C8, as amended.  ErrorRecovery keeps no clock and no cooldown: what
    holds a recovery back is the counter alone.  Once a recovery has
    been started for a service and its counter set back to 0, no
    failure recorded for that service starts another one while fewer
    than failureThreshold of them have been recorded; for a critical
    service the one that brings the count to failureThreshold starts
    the next recovery, however short the time since the last one.
    (The name __proto__ has no counter: an object does not store a
    number under it.) *)
Theorem recordFailure_debounced_by_count
    (cfg : ErrorRecovery.config) (existsSync : string -> bool)
    (service : string) (st : ErrorRecovery.state) :
  (forall reports,
     Z.of_nat (ErrorRecovery.reportsFor service reports)
     < ErrorRecovery.failureThreshold cfg ->
     forall r,
       r ∈ (ErrorRecovery.observe cfg existsSync reports
              (ErrorRecovery.initiateRecovery cfg existsSync service st)).1 ->
       ErrorRecovery.name r <> service)
  /\ (ErrorRecovery.includes (ErrorRecovery.criticalServices cfg) service
      = true ->
      0 < ErrorRecovery.failureThreshold cfg ->
      service <> "__proto__"%string ->
      forall first step,
        (ErrorRecovery.observe cfg existsSync
           (ErrorRecovery.burst service first step
              (Z.to_nat (ErrorRecovery.failureThreshold cfg)))
           (ErrorRecovery.initiateRecovery cfg existsSync service st)).1
        = [{| ErrorRecovery.at_ms :=
                first + (ErrorRecovery.failureThreshold cfg - 1) * step;
              ErrorRecovery.name := service |}]).
Proof.
  split.
  - intros reports Hfew. apply observe_quiet.
    assert (Hzero : ErrorRecovery.tally
                      (ErrorRecovery.initiateRecovery cfg existsSync service st)
                      service = 0); [|lia].
    unfold ErrorRecovery.tally, ErrorRecovery.initiateRecovery,
      ErrorRecovery.resetFailures, Js.getProp, Js.setProp.
    destruct (String.eqb service "__proto__"); [done|].
    destruct (existsSync _); cbn; by rewrite lookup_insert_eq.
  - intros Hcrit Hpos Hproto first step.
    assert (Hzero : ErrorRecovery.failureCount
                      (ErrorRecovery.initiateRecovery cfg existsSync service st)
                    !! service = Some (Js.Int 0)).
    { unfold ErrorRecovery.initiateRecovery, ErrorRecovery.resetFailures,
        Js.setProp.
      destruct (String.eqb_spec service "__proto__") as [|_]; [done|].
      destruct (existsSync _); cbn; by rewrite lookup_insert_eq. }
    replace (Z.to_nat (ErrorRecovery.failureThreshold cfg))
      with (S (Z.to_nat (ErrorRecovery.failureThreshold cfg - 1))) by lia.
    rewrite (observe_burst cfg existsSync service step Hcrit Hproto _ _ _ 0
               Hzero).
    + by rewrite Z2Nat.id by lia.
    + lia.
Qed.

(** With the default configuration: nine failures of the API server
    after a recovery start nothing, the tenth starts the next one. *)
Lemma recordFailure_debounced_by_count_apiServer :
  (forall r,
     r ∈ (ErrorRecovery.observe ErrorRecovery.defaults
            ErrorRecovery.scriptsInstalled
            (ErrorRecovery.burst "apiServer" 0 1000 9)
            (ErrorRecovery.initiateRecovery ErrorRecovery.defaults
               ErrorRecovery.scriptsInstalled "apiServer"
               ErrorRecovery.new)).1 ->
     ErrorRecovery.name r <> "apiServer"%string)
  /\ (ErrorRecovery.observe ErrorRecovery.defaults
        ErrorRecovery.scriptsInstalled
        (ErrorRecovery.burst "apiServer" 0 1000 10)
        (ErrorRecovery.initiateRecovery ErrorRecovery.defaults
           ErrorRecovery.scriptsInstalled "apiServer"
           ErrorRecovery.new)).1
     = [{| ErrorRecovery.at_ms := 9000;
           ErrorRecovery.name := "apiServer" |}].
Proof.
  split.
  - apply (proj1 (recordFailure_debounced_by_count ErrorRecovery.defaults
                    ErrorRecovery.scriptsInstalled "apiServer"
                    ErrorRecovery.new)).
    by vm_compute.
  - apply (proj2 (recordFailure_debounced_by_count ErrorRecovery.defaults
                    ErrorRecovery.scriptsInstalled "apiServer"
                    ErrorRecovery.new)).
    + reflexivity.
    + reflexivity.
    + done.
Defined.

(** C8, as stated, fails: twenty failures of the API server reported
    within one millisecond start two recoveries, the second by
    failures that were all recorded after the first had been started
    and the counter set back.  No window of any length separates them. *)
Lemma recordFailure_retriggers_at_once :
  (ErrorRecovery.observe ErrorRecovery.defaults
     ErrorRecovery.scriptsInstalled
     (ErrorRecovery.burst "apiServer" 0 0 20) ErrorRecovery.new).1
  = [{| ErrorRecovery.at_ms := 0; ErrorRecovery.name := "apiServer" |};
     {| ErrorRecovery.at_ms := 0; ErrorRecovery.name := "apiServer" |}]
  /\ ErrorRecovery.recoveries
       (ErrorRecovery.trace
          (ErrorRecovery.observe ErrorRecovery.defaults
             ErrorRecovery.scriptsInstalled
             (ErrorRecovery.burst "apiServer" 0 0 20) ErrorRecovery.new).2)
     = 2%nat.
Proof. split; by vm_compute. Qed.

(** The name __proto__ is why the second part needs its hypothesis:
    with it among the critical services, no number of failures starts
    a recovery. *)
Example recordFailure_proto_never_recovers :
  (ErrorRecovery.observe
     {| ErrorRecovery.programDir := "C:/SORTING HAT/BRAINS";
        ErrorRecovery.maxRetries := 3;
        ErrorRecovery.retryDelays := [1000; 5000; 15000];
        ErrorRecovery.failureThreshold := 10;
        ErrorRecovery.criticalServices := ["__proto__"%string] |}
     ErrorRecovery.scriptsInstalled
     (ErrorRecovery.burst "__proto__" 0 1000 30) ErrorRecovery.new).1
  = [].
Proof. by vm_compute. Qed.

(** ** PerformanceOptimizer: the operation queue *)

(** C1 fails on the code.  With maxConcurrentOperations = 4 and
    batchSize = 20, 25 operations are submitted in one turn of the
    event loop.  The first is dispatched alone; when it has finished,
    the loop finds activeOperations = 0 < 4, takes a batch of 20 and
    starts every item of it before awaiting any: 20 operations are in
    flight. *)
Theorem processQueue_exceeds_maxConcurrent :
  exists st,
    PerformanceOptimizer.run PerformanceOptimizer.fourAtATime
      PerformanceOptimizer.secondBatch PerformanceOptimizer.new = Some st
    /\ PerformanceOptimizer.activeOperations st = 20
    /\ length (PerformanceOptimizer.running st) = 20%nat
    /\ length (PerformanceOptimizer.queue st) = 4%nat
    /\ PerformanceOptimizer.maxConcurrentOperations
         PerformanceOptimizer.fourAtATime
       < PerformanceOptimizer.activeOperations st.
Proof.
  eexists. split; [vm_compute; reflexivity|]. repeat split; by vm_compute.
Qed.

(** The same run carried to its end settles all 25 promises, with a
    peak of 20 operations in flight. *)
Example processQueue_settles_all :
  exists st,
    PerformanceOptimizer.run PerformanceOptimizer.fourAtATime
      PerformanceOptimizer.toTheEnd PerformanceOptimizer.new = Some st
    /\ length (PerformanceOptimizer.settled st) = 25%nat
    /\ PerformanceOptimizer.operationsCompleted st = 25
    /\ PerformanceOptimizer.activeOperations st = 0
    /\ PerformanceOptimizer.queue st = []
    /\ PerformanceOptimizer.isProcessing st = false
    /\ PerformanceOptimizer.peak PerformanceOptimizer.fourAtATime
         PerformanceOptimizer.toTheEnd PerformanceOptimizer.new = 20.
Proof.
  eexists. split; [vm_compute; reflexivity|]. repeat split; by vm_compute.
Qed.

Section QueueFacts.

Import PerformanceOptimizer.

Variable cfg : config.

Lemma sort_length {A : Type} (cmp : A -> A -> Z) (l : list A) :
  length (Js.sort cmp l) = length l.
Proof. apply Permutation_length, sort_perm. Qed.

Lemma withdraw_length (t : nat) :
  forall l, existsb (has_ticket t) l = true ->
            S (length (withdraw t l)) = length l.
Proof.
  induction l as [|it l IH]; cbn; [done|].
  destruct (has_ticket t it); cbn; [done|].
  intros Hl. by rewrite IH.
Qed.

(** A turn of the loop that starts with nothing running. *)
Lemma drain_consistent (st : state) :
  running st = [] -> activeOperations st = 0 -> isProcessing st = true ->
  consistent cfg (drain cfg st).
Proof.
  intros Hrun Hactive Hproc. unfold drain, consistent.
  destruct ((0 <? Z.of_nat (length (queue st)))
            && (activeOperations st <? maxConcurrentOperations cfg));
    cbn [activeOperations running isProcessing suspended];
    rewrite Hrun.
  - rewrite Hactive, app_nil_l, sort_length, length_take.
    repeat split; try done; try lia. by rewrite Hproc.
  - repeat split; try done. cbn. lia.
Qed.

Lemma processQueue_consistent (st : state) :
  consistent cfg st -> consistent cfg (processQueue cfg st).
Proof.
  intros Hst. pose proof Hst as (Ha & Hb & Hc & Hd). unfold processQueue.
  destruct (isProcessing st) eqn:Hproc; [exact Hst|].
  apply drain_consistent; cbn; [by apply Hb| |done].
  rewrite Ha, Hb by done. done.
Qed.

(** Only four fields matter. *)
Lemma consistent_fields (st st' : state) :
  activeOperations st' = activeOperations st ->
  running st' = running st ->
  isProcessing st' = isProcessing st ->
  suspended st' = suspended st ->
  consistent cfg st -> consistent cfg st'.
Proof. unfold consistent. by intros -> -> -> ->. Qed.

Lemma step_consistent (ev : event) (st st' : state) :
  consistent cfg st -> step cfg ev st = Some st' -> consistent cfg st'.
Proof.
  intros Hst Hstep. destruct ev as [it|t ok| | |t]; cbn in Hstep.
  - injection Hstep as <-. unfold scheduleOperation.
    cbn [isProcessing]. destruct (isProcessing st) eqn:Hproc.
    + by apply (consistent_fields st).
    + apply processQueue_consistent. by apply (consistent_fields st).
  - destruct (existsb (has_ticket t) (running st)) eqn:Hin; [|done].
    injection Hstep as <-. destruct Hst as (Ha & Hb & Hc & Hd).
    pose proof (withdraw_length t _ Hin) as Hlen.
    unfold finish, consistent.
    cbn [activeOperations running isProcessing suspended].
    repeat split; try done; try lia.
    intros Hproc. rewrite (Hb Hproc) in Hin. done.
  - destruct (suspended st) eqn:Hsus; [|done].
    case_bool_decide as Hrun; [|done]. injection Hstep as <-.
    destruct Hst as (Ha & Hb & Hc & Hd).
    apply drain_consistent; [done| |by apply Hc].
    by rewrite Ha, Hrun.
  - destruct (immediates st) as [|k]; [done|]. injection Hstep as <-.
    apply processQueue_consistent. by apply (consistent_fields st).
  - destruct (existsb (has_ticket t) (running st)) eqn:Hin; [|done].
    injection Hstep as <-. destruct Hst as (Ha & Hb & Hc & Hd).
    pose proof (withdraw_length t _ Hin) as Hlen.
    unfold abandon, consistent.
    cbn [activeOperations running isProcessing suspended].
    repeat split; try done; try lia.
    intros Hproc. rewrite (Hb Hproc) in Hin. done.
Qed.

Lemma run_consistent (evs : list event) :
  forall st st',
    consistent cfg st -> run cfg evs st = Some st' -> consistent cfg st'.
Proof.
  induction evs as [|ev evs IH]; intros st st' Hst Hrun; cbn in Hrun.
  - by injection Hrun as <-.
  - destruct (step cfg ev st) as [st1|] eqn:Hstep; [|done].
    eapply IH; [|exact Hrun]. by eapply step_consistent.
Qed.

(** What the code does bound: in every run from a new object the
    counter never passes the size of one batch. *)
Lemma activeOperations_within_batch (evs : list event) (st : state) :
  run cfg evs new = Some st ->
  activeOperations st <= Z.max 0 (batchSize cfg).
Proof.
  intros Hrun.
  assert (Hnew : consistent cfg new) by (repeat split; cbn; try done; lia).
  destruct (run_consistent evs new st Hnew Hrun) as (Ha & _ & _ & Hd).
  lia.
Qed.

End QueueFacts.

(** * Further properties *)

(** ** ApiService: the cache and the successful paths *)

Lemma replace_slashes_idempotent (s : string) :
  ApiService.replace_slashes (ApiService.replace_slashes s)
  = ApiService.replace_slashes s.
Proof.
  induction s as [|c s IH]; [done|]. cbn. rewrite IH. f_equal.
  destruct (Ascii.eqb c "/") eqn:Hc; [done|]. by rewrite Hc.
Qed.

(** X2.  The cache file name replaces every '/' of the endpoint by
    '_', so an endpoint and its spelling with underscores share one
    cache file.  After cacheResponse for the endpoint, getFromCache and
    getCacheTimestamp read the same for both spellings: the payload
    just cached and the time of writing when the file is written, and
    what the cache held for the endpoint before when writeFileSync
    throws, since the catch block only logs. *)
Theorem cacheResponse_aliases_underscores
    (endpoint : string) (data : Js.value) (now : string)
    (w : ApiService.world) :
  let alias := ApiService.replace_slashes endpoint in
  let w' := ApiService.cacheResponse endpoint data now w in
  ApiService.getCachePath alias = ApiService.getCachePath endpoint
  /\ ApiService.getFromCache w' alias = ApiService.getFromCache w' endpoint
  /\ ApiService.getCacheTimestamp w' alias
     = ApiService.getCacheTimestamp w' endpoint
  /\ (ApiService.refuses w (ApiService.getCachePath endpoint) = false ->
      ApiService.getFromCache w' alias = data
      /\ ApiService.getCacheTimestamp w' alias = Js.Str now)
  /\ (ApiService.refuses w (ApiService.getCachePath endpoint) = true ->
      ApiService.cache w' = ApiService.cache w
      /\ ApiService.getFromCache w' alias
         = ApiService.getFromCache w endpoint
      /\ ApiService.getCacheTimestamp w' alias
         = ApiService.getCacheTimestamp w endpoint).
Proof.
  intros alias w'.
  assert (Hpath : ApiService.getCachePath alias
                  = ApiService.getCachePath endpoint)
    by (unfold ApiService.getCachePath, alias;
        by rewrite replace_slashes_idempotent).
  split; [exact Hpath|].
  unfold ApiService.getFromCache, ApiService.getCacheTimestamp.
  rewrite !Hpath. split; [done|]. split; [done|].
  unfold w', ApiService.cacheResponse.
  split; intros Hrefuses; rewrite Hrefuses.
  - unfold ApiService.store. cbn [ApiService.cache].
    by rewrite lookup_insert_eq.
  - done.
Qed.

(** Two different endpoints that share a file; and an endpoint whose
    file name the cache directory refuses, for which nothing is
    cached. *)
Lemma cacheResponse_aliases_evolution_report :
  "evolution/report"%string <> "evolution_report"%string
  /\ ApiService.getFromCache
       (ApiService.cacheResponse "evolution/report" (Js.Num 7)
          "2025-03-01T13:42:15.000Z" ApiService.emptyWorld)
       "evolution_report" = Js.Num 7
  /\ ApiService.getFromCache
       (ApiService.cacheResponse ApiService.longEndpoint (Js.Num 7)
          "2025-03-01T13:42:15.000Z" ApiService.limited)
       (ApiService.replace_slashes ApiService.longEndpoint) = Js.Null.
Proof.
  split; [done|]. split.
  - destruct (cacheResponse_aliases_underscores "evolution/report"
                (Js.Num 7) "2025-03-01T13:42:15.000Z" ApiService.emptyWorld)
      as (_ & _ & _ & Hwritten & _).
    destruct Hwritten as [Hdata _]; [reflexivity|]. exact Hdata.
  - destruct (cacheResponse_aliases_underscores ApiService.longEndpoint
                (Js.Num 7) "2025-03-01T13:42:15.000Z" ApiService.limited)
      as (_ & _ & _ & _ & Hfailed).
    destruct Hfailed as (_ & Hdata & _); [by vm_compute|].
    rewrite Hdata. by vm_compute.
Defined.

Section FetchSuccess.

Import ApiService.

Variable self : service.
Variable net : nat -> outcome.
Variable isoNow : nat -> string.

(** [k] retryable failures and then an answer. *)
Lemma fetchWithRetry_fuel_recovers (endpoint : string) (opts : options)
    (data : Js.value) :
  forall (k fuel retryCount : nat) (w : world),
    (retryCount + k <= length (retryDelays self))%nat ->
    (k < fuel)%nat ->
    cacheFirst opts && Js.truthy (getFromCache w endpoint) = false ->
    (forall i, (i < k)%nat -> failsRetryably net (sent w + i)) ->
    net (sent w + k)%nat = Resolved data ->
    exists w',
      fetchWithRetry_fuel self net isoNow fuel endpoint opts retryCount w
      = Some (Return data, w') /\
      cache w'
      = (if refuses w (getCachePath endpoint) then cache w
         else <[getCachePath endpoint :=
                  Entry data (Js.Str (isoNow (sent w + k)%nat))]> (cache w)) /\
      sent w' = (sent w + S k)%nat /\
      trace w'
      = trace w ++ recovered (request self endpoint opts)
                             (take k (drop retryCount (retryDelays self)))
                             (written w endpoint).
Proof.
  induction k as [|k IH]; intros fuel retryCount w Hlen Hfuel Hfirst Hfail Hok.
  - destruct fuel as [|fuel]; [lia|].
    rewrite Nat.add_0_r in Hok.
    eexists. cbn [fetchWithRetry_fuel]. rewrite Hfirst, Hok.
    split; [reflexivity|]. rewrite Nat.add_0_r.
    unfold cacheResponse, store, issue, emit, recovered, written. cbn.
    destruct (refuses w (getCachePath endpoint)); cbn;
      rewrite <- app_assoc; repeat split; try done; lia.
  - destruct fuel as [|fuel]; [lia|].
    destruct (Hfail 0%nat) as (e0 & He0 & Hr0); [lia|].
    rewrite Nat.add_0_r in He0.
    assert (Hlt : (retryCount <? length (retryDelays self))%nat = true)
      by (apply Nat.ltb_lt; lia).
    destruct (retry_delay_in_range self _ Hlt) as [d Hd].
    set (w2 := emit (Sleep d) (issue (request self endpoint opts) w)).
    destruct (IH fuel (S retryCount) w2) as (w' & Hrun & Hc & Hs & Ht).
    + lia.
    + lia.
    + exact Hfirst.
    + intros i Hi. cbn. replace (S (sent w + i)) with (sent w + S i)%nat by lia.
      apply Hfail. lia.
    + cbn. by replace (S (sent w + k)) with (sent w + S k)%nat by lia.
    + exists w'. cbn [fetchWithRetry_fuel].
      rewrite Hfirst, He0, Hlt, Hr0, Hd. cbn [andb default].
      fold w2. split; [exact Hrun|].
      cbn in Hc, Hs. split.
      { rewrite Hc. by replace (S (sent w + k)) with (sent w + S k)%nat by lia. }
      split; [lia|].
      rewrite Ht. unfold recovered, written. cbn [trace refuses emit issue w2].
      rewrite (drop_S _ _ _ Hd). cbn [take flat_map].
      by rewrite <- !app_assoc.
Qed.

End FetchSuccess.

(** X3.  A call of fetchWithRetry whose first [k] requests fail with
    a retryable error and whose next request is answered (with [k] no
    larger than the retries left) returns the answer after sleeping the
    first [k] delays still due and then tries to write the cache file.
    When the file is written, the answer and the time of writing are
    what the cache reads back afterwards; when writeFileSync throws,
    the answer is returned all the same and the cache directory is as
    it was before the call. *)
Theorem fetchWithRetry_recovers
    (self : ApiService.service) (net : nat -> ApiService.outcome)
    (isoNow : nat -> string) (endpoint : string)
    (opts : ApiService.options) (retryCount k : nat)
    (w : ApiService.world) (data : Js.value) :
  (retryCount + k <= length (ApiService.retryDelays self))%nat ->
  ApiService.cacheFirst opts
  && Js.truthy (ApiService.getFromCache w endpoint) = false ->
  (forall i, (i < k)%nat ->
             ApiService.failsRetryably net (ApiService.sent w + i)) ->
  net (ApiService.sent w + k)%nat = ApiService.Resolved data ->
  exists w',
    ApiService.fetchWithRetry self net isoNow endpoint opts retryCount w
    = Some (ApiService.Return data, w')
    /\ ApiService.trace w'
       = ApiService.trace w
         ++ ApiService.recovered
              (ApiService.request self endpoint opts)
              (take k (drop retryCount (ApiService.retryDelays self)))
              (if ApiService.refuses w (ApiService.getCachePath endpoint)
               then ApiService.WriteFailed (ApiService.getCachePath endpoint)
               else ApiService.WriteCache (ApiService.getCachePath endpoint))
    /\ (ApiService.refuses w (ApiService.getCachePath endpoint) = false ->
        ApiService.getFromCache w' endpoint = data
        /\ ApiService.getCacheTimestamp w' endpoint
           = Js.Str (isoNow (ApiService.sent w + k)%nat))
    /\ (ApiService.refuses w (ApiService.getCachePath endpoint) = true ->
        ApiService.cache w' = ApiService.cache w).
Proof.
  intros Hlen Hfirst Hfail Hok.
  destruct (fetchWithRetry_fuel_recovers self net isoNow endpoint opts data
              k (S (length (ApiService.retryDelays self) - retryCount))
              retryCount w)
    as (w' & Hrun & Hc & _ & Ht); [done|lia|done|done|done|].
  exists w'. split; [exact Hrun|]. split; [exact Ht|].
  unfold ApiService.getFromCache, ApiService.getCacheTimestamp.
  split; intros Hrefuses; rewrite Hrefuses in Hc.
  - by rewrite Hc, lookup_insert_eq.
  - exact Hc.
Qed.

(** A server that answers 503 twice and then delivers: the patterns are
    returned after sleeps of 1 and 2 seconds and are in the cache
    afterwards. *)
Lemma fetchWithRetry_recovers_flaky :
  exists w',
    ApiService.fetchWithRetry (ApiService.new None) ApiService.flaky
      ApiService.anyTime "patterns" ApiService.plain 0 ApiService.emptyWorld
    = Some (ApiService.Return (Js.Arr [Js.Str "*.pdf"]), w')
    /\ ApiService.getFromCache w' "patterns" = Js.Arr [Js.Str "*.pdf"]
    /\ ApiService.delays (ApiService.trace w') = [1000; 2000].
Proof.
  destruct (fetchWithRetry_recovers (ApiService.new None) ApiService.flaky
              ApiService.anyTime "patterns" ApiService.plain 0 2
              ApiService.emptyWorld (Js.Arr [Js.Str "*.pdf"]))
    as (w' & Hrun & Ht & Hwritten & _).
  - cbn. lia.
  - reflexivity.
  - intros i Hi. exists ApiService.unavailable.
    destruct i as [|[|i]]; [by split|by split|lia].
  - reflexivity.
  - exists w'. split; [exact Hrun|].
    destruct Hwritten as [Hdata _]; [reflexivity|].
    split; [exact Hdata|].
    rewrite Ht. reflexivity.
Defined.

(** The same server asked for an endpoint whose cache file name is
    longer than the directory takes: the answer is returned, and
    nothing is cached for the endpoint. *)
Example fetchWithRetry_recovers_uncached :
  exists w',
    ApiService.fetchWithRetry (ApiService.new None) ApiService.flaky
      ApiService.anyTime ApiService.longEndpoint ApiService.plain 0
      ApiService.limited
    = Some (ApiService.Return (Js.Arr [Js.Str "*.pdf"]), w')
    /\ ApiService.cache w' = ∅
    /\ ApiService.getFromCache w' ApiService.longEndpoint = Js.Null.
Proof. eexists. split; [vm_compute; reflexivity|]. split; by vm_compute. Qed.

(** X4.  In cache-first mode a truthy cached payload is returned at
    once, marked fromCache: true: no request is sent, nothing is slept
    and the cache is left as it is, whatever the network would do. *)
Theorem fetchWithRetry_cache_first
    (self : ApiService.service) (net : nat -> ApiService.outcome)
    (isoNow : nat -> string) (endpoint : string)
    (opts : ApiService.options) (retryCount : nat)
    (w : ApiService.world) :
  ApiService.cacheFirst opts = true ->
  Js.truthy (ApiService.getFromCache w endpoint) = true ->
  ApiService.fetchWithRetry self net isoNow endpoint opts retryCount w
  = Some (ApiService.Return
            (Js.Obj [("data"%string, ApiService.getFromCache w endpoint);
                     ("fromCache"%string, Js.Bool true);
                     ("timestamp"%string,
                      ApiService.getCacheTimestamp w endpoint)]), w).
Proof.
  intros Hflag Htruthy. unfold ApiService.fetchWithRetry.
  cbn [ApiService.fetchWithRetry_fuel]. by rewrite Hflag, Htruthy.
Qed.

Lemma fetchWithRetry_cache_first_offline :
  ApiService.fetchWithRetry (ApiService.new None) ApiService.offline
    ApiService.anyTime "patterns"
    (ApiService.withCacheFirst true ApiService.plain) 0
    (ApiService.cachedWorld (Js.Arr [Js.Str "*.pdf"]))
  = Some (ApiService.Return
            (Js.Obj [("data"%string, Js.Arr [Js.Str "*.pdf"]);
                     ("fromCache"%string, Js.Bool true);
                     ("timestamp"%string,
                      Js.Str "2025-02-28T09:00:00.000Z")]),
          ApiService.cachedWorld (Js.Arr [Js.Str "*.pdf"])).
Proof.
  apply (fetchWithRetry_cache_first (ApiService.new None) ApiService.offline
           ApiService.anyTime "patterns"
           (ApiService.withCacheFirst true ApiService.plain) 0
           (ApiService.cachedWorld (Js.Arr [Js.Str "*.pdf"])));
    reflexivity.
Defined.

Section CacheFirstFacts.

Import ApiService.

Variable self : service.
Variable net : nat -> outcome.
Variable isoNow : nat -> string.

Lemma fetchWithRetry_fuel_flag (endpoint : string) (opts : options) :
  forall (fuel retryCount : nat) (w : world),
    Js.truthy (getFromCache w endpoint) = false ->
    fetchWithRetry_fuel self net isoNow fuel endpoint
                        (withCacheFirst true opts) retryCount w
    = fetchWithRetry_fuel self net isoNow fuel endpoint
                          (withCacheFirst false opts) retryCount w.
Proof.
  induction fuel as [|fuel IH]; intros retryCount w Hnone; [done|].
  cbn [fetchWithRetry_fuel withCacheFirst cacheFirst].
  rewrite Hnone. cbn [andb].
  change (request self endpoint (withCacheFirst true opts))
    with (request self endpoint (withCacheFirst false opts)).
  destruct (net (sent w)) as [data|e]; [done|].
  destruct ((retryCount <? length (retryDelays self))%nat
            && isRetryableError e); [|done].
  by apply IH.
Qed.

End CacheFirstFacts.

(** X5.  Without a truthy cached payload for the endpoint the
    cacheFirst flag changes nothing: the call with the flag set sends
    the same requests, sleeps the same delays and settles the same way
    as the call without it. *)
Theorem fetchWithRetry_cache_first_needs_entry
    (self : ApiService.service) (net : nat -> ApiService.outcome)
    (isoNow : nat -> string) (endpoint : string)
    (opts : ApiService.options) (retryCount : nat)
    (w : ApiService.world) :
  Js.truthy (ApiService.getFromCache w endpoint) = false ->
  ApiService.fetchWithRetry self net isoNow endpoint
    (ApiService.withCacheFirst true opts) retryCount w
  = ApiService.fetchWithRetry self net isoNow endpoint
      (ApiService.withCacheFirst false opts) retryCount w.
Proof.
  intros Hnone. unfold ApiService.fetchWithRetry.
  by apply fetchWithRetry_fuel_flag.
Qed.

Lemma fetchWithRetry_cache_first_needs_entry_cleared :
  ApiService.fetchWithRetry (ApiService.new None) ApiService.flaky
    ApiService.anyTime "patterns"
    (ApiService.withCacheFirst true ApiService.plain) 0
    (ApiService.clearCache (ApiService.cachedWorld (Js.Num 1)))
  = ApiService.fetchWithRetry (ApiService.new None) ApiService.flaky
      ApiService.anyTime "patterns"
      (ApiService.withCacheFirst false ApiService.plain) 0
      (ApiService.clearCache (ApiService.cachedWorld (Js.Num 1))).
Proof.
  apply (fetchWithRetry_cache_first_needs_entry (ApiService.new None)
           ApiService.flaky ApiService.anyTime "patterns" ApiService.plain
           0 (ApiService.clearCache (ApiService.cachedWorld (Js.Num 1)))).
  reflexivity.
Defined.

(** X6.  getPatterns and getEvolutionReport do not shield their caller
    from a failed fetch: when every request fails with a retryable
    error and the cache holds no truthy payload, both reject with the
    error of the sixth request; the substitute object of their catch
    blocks is not returned. *)
Theorem getPatterns_rejects
    (url : option string) (net : nat -> ApiService.outcome)
    (isoNow : nat -> string) (w : ApiService.world) :
  (forall i, (i <= 5)%nat ->
             ApiService.failsRetryably net (ApiService.sent w + i)) ->
  (Js.truthy (ApiService.getFromCache w "patterns") = false ->
   exists e w',
     net (ApiService.sent w + 5)%nat = ApiService.Rejected e
     /\ ApiService.getPatterns (ApiService.new url) net isoNow w
        = Some (ApiService.Throw e, w'))
  /\ (Js.truthy (ApiService.getFromCache w "evolution/report") = false ->
      exists e w',
        net (ApiService.sent w + 5)%nat = ApiService.Rejected e
        /\ ApiService.getEvolutionReport (ApiService.new url) net isoNow w
           = Some (ApiService.Throw e, w')).
Proof.
  intros Hfail.
  split; intros Hnone.
  - destruct (fetchWithRetry_fuel_all_fail (ApiService.new url) net isoNow
                "patterns"
                {| ApiService.cacheFirst := true; ApiService.method := None;
                   ApiService.timeout := None |} 5 6 0 w)
      as (e & w' & He & Hrun & _); [done|cbn; lia|by rewrite Hnone|done|].
    rewrite Hnone in Hrun. by exists e, w'.
  - destruct (fetchWithRetry_fuel_all_fail (ApiService.new url) net isoNow
                "evolution/report"
                {| ApiService.cacheFirst := true; ApiService.method := None;
                   ApiService.timeout := None |} 5 6 0 w)
      as (e & w' & He & Hrun & _); [done|cbn; lia|by rewrite Hnone|done|].
    rewrite Hnone in Hrun. by exists e, w'.
Qed.

Lemma getPatterns_rejects_offline :
  exists e w',
    ApiService.offline 5%nat = ApiService.Rejected e
    /\ ApiService.getPatterns (ApiService.new None) ApiService.offline
         ApiService.anyTime ApiService.emptyWorld
       = Some (ApiService.Throw e, w').
Proof.
  apply (getPatterns_rejects None ApiService.offline ApiService.anyTime
           ApiService.emptyWorld).
  - intros i _. exists ApiService.refused. by split.
  - reflexivity.
Defined.

(** ** Watchdog: runs of health checks *)

Section MonitorFacts.

Import Watchdog.

Variable serviceName : string.
Variable cfg : serviceConfig.

(** What one restart attempt does. *)
Local Abbreviation attempt :=
  ((if String.eqb (importance cfg) "critical"
    then [BackupCriticalFiles] else [])
   ++ [KillZombies (windowTitle cfg);
       Start (windowTitle cfg) (startScript cfg)]).

Lemma restarts_acts_app (l1 l2 : list action) :
  restarts (l1 ++ l2) = (restarts l1 + restarts l2)%nat.
Proof. unfold restarts. by rewrite List.filter_app, length_app. Qed.

Lemma monitor_app (checks more : list (probe * Z)) :
  forall st,
    monitor (checks ++ more) serviceName cfg st
    = let '(st1, acts) := monitor checks serviceName cfg st in
      let '(st2, acts') := monitor more serviceName cfg st1 in
      (st2, acts ++ acts').
Proof.
  induction checks as [|[p now] checks IH]; intros st; cbn [app monitor].
  - by destruct (monitor more serviceName cfg st).
  - destruct (checkService p now serviceName cfg st) as [st1 acts].
    rewrite IH.
    destruct (monitor checks serviceName cfg st1) as [st2 acts2].
    destruct (monitor more serviceName cfg st2) as [st3 acts3].
    by rewrite app_assoc.
Qed.

(** One absence below MAX_FAILURES. *)
Lemma checkService_absent_below (p : probe) (now count : Z) (st : state) :
  isRunning p = false ->
  failures st !! serviceName = Some (Js.Int count) ->
  count + 1 < MAX_FAILURES ->
  checkService p now serviceName cfg st
  = ({| failures := <[serviceName := Js.Int (count + 1)]> (failures st);
        lastRecoveryAttempt :=
          <[serviceName := Js.Int now]> (lastRecoveryAttempt st) |},
     attempt).
Proof.
  intros Hrun Hcount Hmax.
  unfold checkService, handleServiceFailure.
  rewrite Hrun, Hcount. cbn [negb Js.incr Js.geb].
  assert (Hge : (MAX_FAILURES <=? count + 1) = false) by (apply Z.leb_gt; lia).
  by rewrite Hge.
Qed.

(** While the count stays below MAX_FAILURES every absence restarts
    the service, whatever the clock says. *)
Lemma monitor_restarts_each :
  forall (checks : list (probe * Z)) (st : state) (count : Z),
    Forall (fun c => isRunning c.1 = false) checks ->
    failures st !! serviceName = Some (Js.Int count) ->
    count + Z.of_nat (length checks) < MAX_FAILURES ->
    (monitor checks serviceName cfg st).2
    = concat (replicate (length checks) attempt)
    /\ failures (monitor checks serviceName cfg st).1 !! serviceName
       = Some (Js.Int (count + Z.of_nat (length checks)))
    /\ lastRecoveryAttempt (monitor checks serviceName cfg st).1
         !! serviceName
       = match last (snd <$> checks) with
         | Some t => Some (Js.Int t)
         | None => lastRecoveryAttempt st !! serviceName
         end.
Proof.
  induction checks as [|[p now] checks IH]; intros st count Hall Hcount Hmax.
  - cbn. rewrite Z.add_0_r. by repeat split.
  - apply Forall_cons in Hall as [Hp Hall]. cbn [fst] in Hp.
    cbn [length] in Hmax. cbn [monitor].
    rewrite (checkService_absent_below p now count st Hp Hcount) by lia.
    set (st1 := {| failures := <[serviceName := Js.Int (count + 1)]>
                                 (failures st);
                   lastRecoveryAttempt :=
                     <[serviceName := Js.Int now]>
                       (lastRecoveryAttempt st) |}).
    destruct (IH st1 (count + 1) Hall) as (IHr & IHc & IHl);
      [by apply lookup_insert_eq|lia|].
    destruct (monitor checks serviceName cfg st1) as [st2 more].
    cbn [fst snd length replicate concat] in *. rewrite IHr.
    split; [done|]. split.
    + rewrite IHc. do 2 f_equal. lia.
    + rewrite IHl.
      destruct checks as [|c checks];
        [subst st1; cbn; by rewrite lookup_insert_eq|].
      rewrite !fmap_cons, !last_cons.
      by destruct (last checks.*2).
Qed.

(** At MAX_FAILURES and inside the recovery time, absences are only
    counted. *)
Lemma monitor_waits (recovered : Z) :
  forall (checks : list (probe * Z)) (st : state) (count : Z),
    Forall (fun c => isRunning c.1 = false) checks ->
    Forall (fun c => c.2 - recovered < RECOVERY_TIME) checks ->
    failures st !! serviceName = Some (Js.Int count) ->
    lastRecoveryAttempt st !! serviceName = Some (Js.Int recovered) ->
    MAX_FAILURES <= count + 1 ->
    (monitor checks serviceName cfg st).2 = []
    /\ failures (monitor checks serviceName cfg st).1 !! serviceName
       = Some (Js.Int (count + Z.of_nat (length checks)))
    /\ lastRecoveryAttempt (monitor checks serviceName cfg st).1
         !! serviceName = Some (Js.Int recovered).
Proof.
  induction checks as [|[p now] checks IH];
    intros st count Hall Hquiet Hcount Hlast Hmax.
  - cbn. rewrite Z.add_0_r. by repeat split.
  - apply Forall_cons in Hall as [Hp Hall]. cbn [fst] in Hp.
    apply Forall_cons in Hquiet as [Hnow Hquiet]. cbn [snd] in Hnow.
    cbn [monitor].
    assert (Hcheck : checkService p now serviceName cfg st
                     = ({| failures := <[serviceName := Js.Int (count + 1)]>
                                         (failures st);
                           lastRecoveryAttempt := lastRecoveryAttempt st |},
                        [])).
    { unfold checkService, handleServiceFailure.
      rewrite Hp, Hcount. cbn [negb Js.incr Js.geb lastRecoveryAttempt].
      rewrite Hlast. cbn [Js.sub Js.ltb].
      assert (Hge : (MAX_FAILURES <=? count + 1) = true)
        by (apply Z.leb_le; lia).
      assert (Hlt : (now - recovered <? RECOVERY_TIME) = true)
        by (apply Z.ltb_lt; lia).
      by rewrite Hge, Hlt. }
    rewrite Hcheck.
    set (st1 := {| failures := <[serviceName := Js.Int (count + 1)]>
                                 (failures st);
                   lastRecoveryAttempt := lastRecoveryAttempt st |}).
    destruct (IH st1 (count + 1) Hall Hquiet) as (IHa & IHc & IHl).
    + subst st1. cbn [failures]. by rewrite lookup_insert_eq.
    + exact Hlast.
    + lia.
    + destruct (monitor checks serviceName cfg st1) as [st2 more].
      cbn [fst snd length] in *. rewrite IHa. split; [done|].
      split; [|exact IHl]. rewrite IHc. do 2 f_equal. lia.
Qed.

End MonitorFacts.

(** X7.  The watchdog restarts a service that stays absent once per
    check until its count stands one below MAX_FAILURES: each of those
    checks backs up the critical files (for a critical service), kills
    what is left under the window title and runs the start script.
    Then it pauses: the absences seen within RECOVERY_TIME of the last
    restart are counted and do nothing else.  The first absence seen
    after RECOVERY_TIME sets the count back to 0 and restarts the
    service in the same way. *)
Theorem monitor_pauses
    (serviceName : string) (cfg : Watchdog.serviceConfig)
    (st : Watchdog.state) (count recovered : Z)
    (burst quiet : list (Watchdog.probe * Z)) :
  Forall (fun c => Watchdog.isRunning c.1 = false) burst ->
  Forall (fun c => Watchdog.isRunning c.1 = false) quiet ->
  Watchdog.failures st !! serviceName = Some (Js.Int count) ->
  count + Z.of_nat (length burst) = Watchdog.MAX_FAILURES - 1 ->
  last (snd <$> burst) = Some recovered ->
  Forall (fun c => c.2 - recovered < Watchdog.RECOVERY_TIME) quiet ->
  let attempt :=
    (if String.eqb (Watchdog.importance cfg) "critical"
     then [Watchdog.BackupCriticalFiles] else [])
    ++ [Watchdog.KillZombies (Watchdog.windowTitle cfg);
        Watchdog.Start (Watchdog.windowTitle cfg)
                       (Watchdog.startScript cfg)] in
  (forall k,
     (k <= length burst)%nat ->
     (Watchdog.monitor (take k burst) serviceName cfg st).2
     = concat (replicate k attempt))
  /\ ((Watchdog.monitor (burst ++ quiet) serviceName cfg st).2
      = concat (replicate (length burst) attempt)
      /\ Watchdog.failures
           (Watchdog.monitor (burst ++ quiet) serviceName cfg st).1
           !! serviceName
         = Some (Js.Int (count + Z.of_nat (length burst)
                         + Z.of_nat (length quiet)))
      /\ Watchdog.lastRecoveryAttempt
           (Watchdog.monitor (burst ++ quiet) serviceName cfg st).1
           !! serviceName = Some (Js.Int recovered))
  /\ forall p now,
       Watchdog.isRunning p = false ->
       Watchdog.RECOVERY_TIME <= now - recovered ->
       (Watchdog.monitor (burst ++ quiet ++ [(p, now)])
                         serviceName cfg st).2
       = concat (replicate (length burst) attempt) ++ attempt
       /\ Watchdog.failures
            (Watchdog.monitor (burst ++ quiet ++ [(p, now)])
                              serviceName cfg st).1 !! serviceName
          = Some (Js.Int 0)
       /\ Watchdog.lastRecoveryAttempt
            (Watchdog.monitor (burst ++ quiet ++ [(p, now)])
                              serviceName cfg st).1 !! serviceName
          = Some (Js.Int now).
Proof.
  intros Hburst Hquiet Hcount Hlen Hrec Hwithin attempt.
  split.
  { intros k Hk.
    destruct (monitor_restarts_each serviceName cfg (take k burst) st count)
      as (Hacts & _ & _); [by apply Forall_take|done| |].
    - rewrite length_take. unfold Watchdog.MAX_FAILURES in *. lia.
    - rewrite Hacts, length_take. f_equal. f_equal. lia. }
  destruct (monitor_restarts_each serviceName cfg burst st count
              Hburst Hcount) as (Hb1 & Hb2 & Hb3);
    [unfold Watchdog.MAX_FAILURES in *; lia|].
  rewrite Hrec in Hb3.
  pose proof (monitor_app serviceName cfg burst quiet st) as Happ.
  pose proof (fun p now =>
                monitor_app serviceName cfg burst (quiet ++ [(p, now)]) st)
    as Happ3.
  destruct (Watchdog.monitor burst serviceName cfg st) as [st1 acts1].
  cbn [fst snd] in Hb1, Hb2, Hb3.
  destruct (monitor_waits serviceName cfg recovered quiet st1
              (count + Z.of_nat (length burst)) Hquiet Hwithin Hb2 Hb3)
    as (Hq1 & Hq2 & Hq3); [lia|].
  pose proof (fun p now =>
                monitor_app serviceName cfg quiet [(p, now)] st1) as Happ2.
  destruct (Watchdog.monitor quiet serviceName cfg st1) as [st2 acts2].
  cbn [fst snd] in Hq1, Hq2, Hq3. subst acts2.
  split.
  - rewrite Happ. cbn [fst snd]. by rewrite app_nil_r.
  - intros p now Hp Hnow. rewrite Happ3, Happ2.
    cbn [Watchdog.monitor].
    unfold Watchdog.checkService, Watchdog.handleServiceFailure.
    rewrite Hp, Hq2.
    cbn [negb Js.incr Js.geb Watchdog.lastRecoveryAttempt].
    rewrite Hq3. cbn [Js.sub Js.ltb].
    assert (Hge : (Watchdog.MAX_FAILURES
                   <=? count + Z.of_nat (length burst)
                       + Z.of_nat (length quiet) + 1) = true)
      by (apply Z.leb_le; lia).
    assert (Hlt : (now - recovered <? Watchdog.RECOVERY_TIME) = false)
      by (apply Z.ltb_ge; lia).
    rewrite Hge, Hlt. unfold Watchdog.restart.
    cbn [fst snd Watchdog.failures Watchdog.lastRecoveryAttempt].
    rewrite !lookup_insert_eq, Hb1, app_nil_r, app_nil_l. done.
Qed.

Lemma monitor_pauses_apiServer :
  (Watchdog.monitor
     (Watchdog.absentAt [30000; 60000; 90000; 120000]
      ++ Watchdog.absentAt [150000; 180000; 210000])
     "apiServer" Watchdog.apiServer (Watchdog.start Watchdog.new)).2
  = concat (replicate 4
      [Watchdog.BackupCriticalFiles;
       Watchdog.KillZombies "Sorting Hat API Server";
       Watchdog.Start "Sorting Hat API Server" "node service.js"])
  /\ Watchdog.failures
       (Watchdog.monitor
          (Watchdog.absentAt [30000; 60000; 90000; 120000]
           ++ Watchdog.absentAt [150000; 180000; 210000])
          "apiServer" Watchdog.apiServer (Watchdog.start Watchdog.new)).1
       !! "apiServer"%string = Some (Js.Int 7)
  /\ Watchdog.lastRecoveryAttempt
       (Watchdog.monitor
          (Watchdog.absentAt [30000; 60000; 90000; 120000]
           ++ Watchdog.absentAt [150000; 180000; 210000])
          "apiServer" Watchdog.apiServer (Watchdog.start Watchdog.new)).1
       !! "apiServer"%string = Some (Js.Int 120000).
Proof.
  apply (monitor_pauses "apiServer" Watchdog.apiServer
           (Watchdog.start Watchdog.new) 0 120000
           (Watchdog.absentAt [30000; 60000; 90000; 120000])
           (Watchdog.absentAt [150000; 180000; 210000])).
  - repeat constructor.
  - repeat constructor.
  - reflexivity.
  - reflexivity.
  - reflexivity.
  - repeat constructor.
Defined.

(** X8.  One check that finds the service running re-arms the
    watchdog: whatever the count and however recent the last recovery
    attempt, each of the next absences, up to MAX_FAILURES - 1 of
    them, restarts the service at once: after [k] of them the watchdog
    has made [k] restart attempts, each a backup (for a critical
    service), a kill and a run of the start script, and the count
    stands at [k] (below it, had it been negative). *)
Theorem monitor_healthy_rearms
    (serviceName : string) (cfg : Watchdog.serviceConfig)
    (st : Watchdog.state) (count : Z) (p0 : Watchdog.probe) (t0 : Z)
    (checks : list (Watchdog.probe * Z)) :
  Watchdog.isRunning p0 = true ->
  Forall (fun c => Watchdog.isRunning c.1 = false) checks ->
  Watchdog.failures st !! serviceName = Some (Js.Int count) ->
  Z.of_nat (length checks) < Watchdog.MAX_FAILURES ->
  let attempt :=
    (if String.eqb (Watchdog.importance cfg) "critical"
     then [Watchdog.BackupCriticalFiles] else [])
    ++ [Watchdog.KillZombies (Watchdog.windowTitle cfg);
        Watchdog.Start (Watchdog.windowTitle cfg)
                       (Watchdog.startScript cfg)] in
  forall k,
    (k <= length checks)%nat ->
    (Watchdog.monitor ((p0, t0) :: take k checks) serviceName cfg st).2
    = concat (replicate k attempt)
    /\ Watchdog.failures
         (Watchdog.monitor ((p0, t0) :: take k checks) serviceName cfg st).1
         !! serviceName
       = Some (Js.Int (Z.min count 0 + Z.of_nat k)).
Proof.
  intros Hp0 Hall Hcount Hlen attempt k Hk.
  cbn [Watchdog.monitor]. unfold Watchdog.checkService.
  rewrite Hp0, Hcount. cbn [negb Js.gtb].
  assert (Hall' : Forall (fun c => Watchdog.isRunning c.1 = false)
                         (take k checks)) by (by apply Forall_take).
  assert (Hlen' : length (take k checks) = k) by (rewrite length_take; lia).
  destruct (0 <? count) eqn:Hpos.
  - set (st1 := {| Watchdog.failures :=
                     <[serviceName := Js.Int 0]> (Watchdog.failures st);
                   Watchdog.lastRecoveryAttempt :=
                     Watchdog.lastRecoveryAttempt st |}).
    destruct (monitor_restarts_each serviceName cfg (take k checks) st1 0
                Hall') as (Hr & Hc & _);
      [by apply lookup_insert_eq|lia|].
    destruct (Watchdog.monitor (take k checks) serviceName cfg st1)
      as [st2 more].
    apply Z.ltb_lt in Hpos.
    cbn [fst snd app] in *. rewrite Hr, Hc, Hlen'.
    split; [done|]. do 2 f_equal. lia.
  - apply Z.ltb_ge in Hpos.
    destruct (monitor_restarts_each serviceName cfg (take k checks) st count
                Hall' Hcount) as (Hr & Hc & _); [lia|].
    destruct (Watchdog.monitor (take k checks) serviceName cfg st)
      as [st2 more].
    cbn [fst snd app] in *. rewrite Hr, Hc, Hlen'.
    split; [done|]. do 2 f_equal. lia.
Qed.

Lemma monitor_healthy_rearms_apiServer :
  (Watchdog.monitor
     ((Watchdog.present, 1000) :: Watchdog.absentAt [2000; 3000])
     "apiServer" Watchdog.apiServer (Watchdog.counted 7 500)).2
  = [Watchdog.BackupCriticalFiles;
     Watchdog.KillZombies "Sorting Hat API Server";
     Watchdog.Start "Sorting Hat API Server" "node service.js";
     Watchdog.BackupCriticalFiles;
     Watchdog.KillZombies "Sorting Hat API Server";
     Watchdog.Start "Sorting Hat API Server" "node service.js"]
  /\ Watchdog.failures
       (Watchdog.monitor
          ((Watchdog.present, 1000) :: Watchdog.absentAt [2000; 3000])
          "apiServer" Watchdog.apiServer (Watchdog.counted 7 500)).1
       !! "apiServer"%string = Some (Js.Int 2).
Proof.
  apply (monitor_healthy_rearms "apiServer" Watchdog.apiServer
           (Watchdog.counted 7 500) 7 Watchdog.present 1000
           (Watchdog.absentAt [2000; 3000]) eq_refl
           ltac:(repeat constructor) eq_refl
           ltac:(by vm_compute) 2%nat ltac:(cbn; lia)).
Defined.

(** ** SystemProtection: the guard on paths *)

Lemma startsWith_app (p s : string) : Js.startsWith p (p ++ s) = true.
Proof.
  induction p as [|c p IH]; [by destruct s|].
  simpl. by rewrite Ascii.eqb_refl, IH.
Qed.

Lemma startsWith_prefix (p s : string) :
  Js.startsWith p s = true <-> exists suffix, s = (p ++ suffix)%string.
Proof.
  split.
  - revert s. induction p as [|c p IH]; intros s Hs.
    + by exists s.
    + destruct s as [|d s]; [done|]. cbn in Hs.
      apply andb_true_iff in Hs as [Hc Hs]. apply Ascii.eqb_eq in Hc as ->.
      destruct (IH s Hs) as [suffix ->]. by exists suffix.
  - intros [suffix ->]. apply startsWith_app.
Qed.

Lemma toLowerCase_app (a b : string) :
  Js.toLowerCase (a ++ b) = (Js.toLowerCase a ++ Js.toLowerCase b)%string.
Proof. induction a as [|c a IH]; simpl; [done|]. by rewrite IH. Qed.

Lemma slashes_app (a b : string) :
  Js.slashes (a ++ b) = (Js.slashes a ++ Js.slashes b)%string.
Proof. induction a as [|c a IH]; simpl; [done|]. by rewrite IH. Qed.

(** X9.  safeFileOperation refuses every path that begins with a
    system directory or with the program directory, in whatever letter
    case and with either kind of slash the path is written, and
    whatever follows the directory's name: it returns false and the
    operation is not called. *)
Theorem safeFileOperation_blocks
    (paths : SystemProtection.protectedPaths)
    (operation : string -> SystemProtection.attempt)
    (spelling rest : string) :
  (exists sysPath,
     sysPath ∈ SystemProtection.systemFiles paths
     /\ Js.toLowerCase (Js.slashes spelling) = Js.toLowerCase sysPath)
  \/ Js.toLowerCase (Js.slashes spelling)
     = Js.toLowerCase
         (Js.slashes (SystemProtection.programDirectory paths)) ->
  SystemProtection.safeFileOperation paths operation (spelling ++ rest)
  = (Js.Bool false, []).
Proof.
  intros Hroot. unfold SystemProtection.safeFileOperation.
  destruct Hroot as [(sysPath & Hin & Hsame) | Hsame].
  - assert (Hsys : SystemProtection.isSystemFile paths (spelling ++ rest)
                   = true).
    { unfold SystemProtection.isSystemFile. apply existsb_exists.
      exists sysPath. split; [by apply list_elem_of_In|].
      rewrite slashes_app, toLowerCase_app, Hsame. apply startsWith_app. }
    by rewrite Hsys.
  - assert (Hprog : SystemProtection.isProgramFile paths (spelling ++ rest)
                    = true).
    { unfold SystemProtection.isProgramFile.
      rewrite slashes_app, toLowerCase_app, Hsame. apply startsWith_app. }
    rewrite Hprog. by destruct (SystemProtection.isSystemFile _ _).
Qed.

Lemma safeFileOperation_blocks_hosts :
  SystemProtection.safeFileOperation SystemProtection.defaultPaths
    SystemProtection.unlink "c:\WINDOWS\System32\drivers\etc\hosts"
  = (Js.Bool false, [])
  /\ SystemProtection.safeFileOperation SystemProtection.defaultPaths
       SystemProtection.unlink "C:/Windows.old/setup.log"
     = (Js.Bool false, []).
Proof.
  split.
  - apply (safeFileOperation_blocks SystemProtection.defaultPaths
             SystemProtection.unlink "c:\WINDOWS"
             "\System32\drivers\etc\hosts").
    left. exists "C:/Windows"%string. split; [by left|reflexivity].
  - apply (safeFileOperation_blocks SystemProtection.defaultPaths
             SystemProtection.unlink "C:/Windows" ".old/setup.log").
    left. exists "C:/Windows"%string. split; [by left|reflexivity].
Defined.

Lemma occurs_app (c : ascii) (a b : string) :
  Js.occurs c (a ++ b) = Js.occurs c a || Js.occurs c b.
Proof.
  induction a as [|d a IH]; simpl; [done|]. by rewrite IH, orb_assoc.
Qed.

Lemma lower_backslash (c : ascii) :
  Ascii.eqb "\" (Js.lower c) = Ascii.eqb "\" c.
Proof. by destruct c as [[] [] [] [] [] [] [] []]. Qed.

Lemma occurs_toLowerCase (s : string) :
  Js.occurs "\" (Js.toLowerCase s) = Js.occurs "\" s.
Proof.
  induction s as [|c s IH]; [done|].
  cbn [Js.toLowerCase Js.occurs]. by rewrite lower_backslash, IH.
Qed.

Lemma occurs_slashes (s : string) : Js.occurs "\" (Js.slashes s) = false.
Proof.
  induction s as [|c s IH]; [done|]. cbn [Js.slashes Js.occurs].
  rewrite IH, orb_false_r.
  destruct (Ascii.eqb c "\") eqn:Hc; [done|].
  by rewrite Ascii.eqb_sym.
Qed.

(** X10.  The path under test has its backslashes turned into slashes
    before the comparison, the configured system directories have not:
    a system directory written with a backslash matches no path, and a
    configuration that spells all of them so blocks nothing as a system
    file. *)
Theorem isSystemFile_backslash_entry
    (paths : SystemProtection.protectedPaths) (filePath : string) :
  (forall sysPath, sysPath ∈ SystemProtection.systemFiles paths ->
                   Js.occurs "\" sysPath = true) ->
  SystemProtection.isSystemFile paths filePath = false.
Proof.
  intros Hall. unfold SystemProtection.isSystemFile.
  destruct (existsb _ _) eqn:Hex; [|done]. exfalso.
  apply existsb_exists in Hex as (sysPath & Hin & Hstarts).
  apply list_elem_of_In in Hin. specialize (Hall sysPath Hin).
  apply startsWith_prefix in Hstarts as [suffix Heq].
  assert (Hocc : Js.occurs "\" (Js.toLowerCase (Js.slashes filePath))
                 = true).
  { rewrite Heq, occurs_app, occurs_toLowerCase, Hall. done. }
  by rewrite occurs_toLowerCase, occurs_slashes in Hocc.
Qed.

Lemma isSystemFile_backslash_entry_windows :
  SystemProtection.isSystemFile SystemProtection.windowsStyle
    "C:\Windows\System32\drivers\etc\hosts" = false.
Proof.
  apply (isSystemFile_backslash_entry SystemProtection.windowsStyle).
  intros sysPath Hin. apply list_elem_of_singleton in Hin as ->.
  reflexivity.
Defined.

(** ** SystemProtection: backups *)

Section BackupFacts.

Import SystemProtection.

Variable cfg : config.
Variable sha256 : string -> string.
Variable fs : disk.

(** The loop of backupCriticalFiles when no copy fails: the files of
    the list that exist are copied and hashed; the rest of both maps
    stays. *)
Lemma backupFile_loop (st : state) :
  forall (l : list string) (copied hashes : gmap string string),
    (forall f c, f ∈ l -> programDir st !! f = Some c ->
                 copyFails fs f = false) ->
    exists copied' hashes',
      foldl (backupFile sha256 fs st) (copied, hashes, false) l
      = (copied', hashes', false)
      /\ forall file,
           copied' !! file
           = (if bool_decide (file ∈ l)
              then match programDir st !! file with
                   | Some content => Some content
                   | None => copied !! file
                   end
              else copied !! file)
           /\ hashes' !! file
              = (if bool_decide (file ∈ l)
                 then match programDir st !! file with
                      | Some content => Some (sha256 content)
                      | None => hashes !! file
                      end
                 else hashes !! file).
Proof.
  induction l as [|f l IH]; intros copied hashes Hcopies.
  - exists copied, hashes. split; [done|]. intros file.
    by rewrite bool_decide_false by (by intros ?%elem_of_nil).
  - cbn [foldl].
    assert (Hrest : forall g c, g ∈ l -> programDir st !! g = Some c ->
                                copyFails fs g = false)
      by (intros g c Hg; apply Hcopies; by right).
    assert (Hiff : forall file, file <> f -> (file ∈ f :: l <-> file ∈ l))
      by (intros file Hne; rewrite elem_of_cons; tauto).
    unfold backupFile at 2.
    destruct (programDir st !! f) as [c|] eqn:Hf.
    + rewrite (Hcopies f c) by (by left || done).
      destruct (IH (<[f := c]> copied) (<[f := sha256 c]> hashes) Hrest)
        as (copied' & hashes' & -> & Hspec).
      exists copied', hashes'. split; [done|]. intros file.
      destruct (Hspec file) as [-> ->].
      destruct (decide (file = f)) as [->|Hne].
      * rewrite (bool_decide_true (f ∈ f :: l)) by (by left).
        rewrite Hf, !lookup_insert_eq. by case_bool_decide.
      * rewrite (bool_decide_ext _ _ (Hiff file Hne)).
        by rewrite !lookup_insert_ne by congruence.
    + destruct (IH copied hashes Hrest) as (copied' & hashes' & -> & Hspec).
      exists copied', hashes'. split; [done|]. intros file.
      destruct (Hspec file) as [-> ->].
      destruct (decide (file = f)) as [->|Hne].
      * rewrite (bool_decide_true (f ∈ f :: l)) by (by left).
        rewrite Hf. by case_bool_decide.
      * by rewrite (bool_decide_ext _ _ (Hiff file Hne)).
Qed.


End BackupFacts.



(** Where a copy fails the backup gives up, and the hashes of the
    files after it go stale: service.js cannot be copied, config.js is
    changed on purpose after the backup of noon, and the backup taken
    afterwards records no new hash for it; the check then reports
    config.js, which exists, as corrupted. *)
Example backupCriticalFiles_failed_copy_stale_hash :
  SystemProtection.corruptedFiles SystemProtection.twoFiles
    SystemProtection.plain_digest
    (SystemProtection.backupCriticalFiles SystemProtection.twoFiles
       SystemProtection.plain_digest
       {| SystemProtection.mkdirFails := fun _ => false;
          SystemProtection.copyFails := fun f => String.eqb f "service.js";
          SystemProtection.statFails := fun _ => false;
          SystemProtection.deleteFails := fun _ => false |}
       SystemProtection.later
       (SystemProtection.overwrite "config.js" "port=8080"
          (SystemProtection.backupCriticalFiles SystemProtection.twoFiles
             SystemProtection.plain_digest SystemProtection.sound
             SystemProtection.noon SystemProtection.installed)))
  = ["config.js"%string].
Proof. by vm_compute. Qed.

Section CheckTwice.

Import SystemProtection.

Variable cfg : config.
Variable sha256 : string -> string.

(** The check touches neither the backup directory nor the recorded
    hashes. *)
Lemma checkFileIntegrity_keeps (st : state) :
  backups (checkFileIntegrity cfg sha256 st) = backups st
  /\ criticalFileHashes (checkFileIntegrity cfg sha256 st)
     = criticalFileHashes st.
Proof.
  unfold checkFileIntegrity, restoreFromBackup.
  destruct (corruptedFiles cfg sha256 st) as [|c cs]; [done|].
  destruct (listBackups _) as [|latest rest]; [done|].
  by destruct (restoreFile_loop sha256 latest (c :: cs)
                 {| programDir := programDir st; backups := backups st;
                    criticalFileHashes := criticalFileHashes st;
                    reads := reads st;
                    log := log st ++ omap (inspect sha256 st)
                                          (criticalProgramFiles cfg) |})
    as (_ & _ & Hb & Hh).
Qed.

(** What inspect says about a file depends on its content and on its
    recorded hash only. *)
Lemma inspect_ext (st st' : state) (file : string) :
  programDir st' !! file = programDir st !! file ->
  criticalFileHashes st' = criticalFileHashes st ->
  inspect sha256 st' file = inspect sha256 st file.
Proof.
  intros Hdir Hhash. unfold inspect, baseline. by rewrite Hdir, Hhash.
Qed.

End CheckTwice.

(** X12.  A second integrity check in a row changes no file: every
    file of the program directory is after two checks what it was
    after one. *)
Theorem checkFileIntegrity_twice
    (cfg : SystemProtection.config) (sha256 : string -> string)
    (st : SystemProtection.state) :
  SystemProtection.programDir
    (SystemProtection.checkFileIntegrity cfg sha256
       (SystemProtection.checkFileIntegrity cfg sha256 st))
  = SystemProtection.programDir
      (SystemProtection.checkFileIntegrity cfg sha256 st).
Proof.
  set (st' := SystemProtection.checkFileIntegrity cfg sha256 st).
  destruct (checkFileIntegrity_effect cfg sha256 st) as (Hfirst & _ & _).
  destruct (checkFileIntegrity_effect cfg sha256 st') as (Hsecond & _ & _).
  destruct (checkFileIntegrity_keeps cfg sha256 st) as [Hb Hh].
  fold st' in Hfirst, Hb, Hh.
  assert (Hlist : SystemProtection.listBackups st'
                  = SystemProtection.listBackups st)
    by (unfold SystemProtection.listBackups; by rewrite Hb).
  apply map_eq. intros file. rewrite Hsecond, Hlist.
  case_bool_decide as Hin'; [|done].
  destruct (SystemProtection.listBackups st) as [|latest rest]; [done|].
  destruct (SystemProtection.files latest !! file) as [content|] eqn:Hcopy;
    [|done].
  rewrite Hfirst, Hcopy.
  case_bool_decide as Hin; [done|]. exfalso. apply Hin.
  specialize (Hfirst file). rewrite bool_decide_false in Hfirst by done.
  apply corruptedFiles_spec in Hin' as [Hcrit Hdam].
  apply corruptedFiles_spec. split; [done|].
  apply inspect_damaged. apply inspect_damaged in Hdam.
  by rewrite <- (inspect_ext sha256 st st' file Hfirst Hh).
Qed.

Section CleanupFacts.

Import SystemProtection.

Lemma filter_perm_length {A : Type} (f : A -> bool) (l l' : list A) :
  l ≡ₚ l' -> length (List.filter f l) = length (List.filter f l').
Proof.
  induction 1 as [|x l l' _ IH|x y l|l l' l'' _ IH1 _ IH2]; cbn.
  - done.
  - destruct (f x); cbn; by rewrite IH.
  - by destruct (f x), (f y).
  - by rewrite IH1.
Qed.

Lemma filter_swap {A : Type} (f g : A -> bool) (l : list A) :
  List.filter f (List.filter g l) = List.filter g (List.filter f l).
Proof.
  induction l as [|x l IH]; [done|]. cbn.
  destruct (f x) eqn:Hf, (g x) eqn:Hg; cbn; rewrite ?Hf, ?Hg, IH; done.
Qed.

Lemma filter_implied {A : Type} (f g : A -> bool) (l : list A) :
  (forall x, x ∈ l -> g x = true -> f x = true) ->
  List.filter g (List.filter f l) = List.filter g l.
Proof.
  induction l as [|x l IH]; intros Himp; [done|]. cbn.
  assert (Hrest : forall y, y ∈ l -> g y = true -> f y = true)
    by (intros y Hy; apply Himp; by right).
  destruct (g x) eqn:Hg.
  - rewrite (Himp x) by (by left || done). cbn. by rewrite Hg, IH.
  - destruct (f x); cbn; rewrite ?Hg; by apply IH.
Qed.

Lemma filter_none {A : Type} (f : A -> bool) (l : list A) :
  (forall x, x ∈ l -> f x = false) -> List.filter f l = [].
Proof.
  induction l as [|x l IH]; intros Hall; [done|]. cbn.
  rewrite (Hall x) by (by left). apply IH. intros y Hy. apply Hall. by right.
Qed.

(** A folder that is listed for deletion is not kept. *)
Lemma doomed_not_kept (l : list snapshot) (s : snapshot) :
  s ∈ l -> negb (existsb (String.eqb (name s)) (name <$> l)) = false.
Proof.
  intros Hs. apply negb_false_iff, existsb_exists.
  exists (name s). split; [|apply String.eqb_refl].
  apply list_elem_of_In, list_elem_of_fmap. by exists s.
Qed.

Lemma listBackups_elem (st : state) (s : snapshot) :
  s ∈ listBackups st <-> s ∈ backups st /\ is_backup s = true.
Proof.
  unfold listBackups. rewrite sort_perm, !list_elem_of_In. apply filter_In.
Qed.


Lemma deleteFolders_all (fs : disk) (doomed : list string) :
  (forall n, n ∈ doomed -> deleteFails fs n = false) ->
  forall l,
    deleteFolders fs doomed l
    = List.filter (fun s => negb (existsb (String.eqb (name s)) doomed)) l.
Proof.
  induction doomed as [|n doomed IH]; intros Hall l; cbn [deleteFolders].
  - cbn. induction l as [|x l IHl]; [done|]. cbn. by rewrite <- IHl.
  - rewrite (Hall n) by (by left).
    rewrite IH by (intros m Hm; apply Hall; by right).
    induction l as [|x l IHl]; [done|]. cbn [List.filter existsb].
    destruct (String.eqb (name x) n); cbn [negb orb List.filter];
      [exact IHl|].
    destruct (existsb (String.eqb (name x)) doomed); cbn [negb];
      by rewrite IHl.
Qed.

Lemma deleteFolders_others (fs : disk) (doomed : list string) :
  (forall n, n ∈ doomed -> Js.startsWith "backup-" n = true) ->
  forall l,
    List.filter (fun s => negb (is_backup s)) (deleteFolders fs doomed l)
    = List.filter (fun s => negb (is_backup s)) l.
Proof.
  induction doomed as [|n doomed IH]; intros Hall l; cbn [deleteFolders].
  - done.
  - destruct (deleteFails fs n); [done|].
    rewrite IH by (intros m Hm; apply Hall; by right).
    apply filter_implied. intros s _ Hs.
    apply negb_true_iff, String.eqb_neq. intros Heq.
    apply negb_true_iff in Hs. unfold is_backup in Hs.
    rewrite Heq, (Hall n) in Hs by (by left). done.
Qed.

(** Whatever is listed for deletion is named like a backup. *)
Lemma doomed_named (maxBackups : nat) (st : state) (n : string) :
  n ∈ name <$> drop maxBackups (listBackups st) ->
  Js.startsWith "backup-" n = true.
Proof.
  intros Hn. apply list_elem_of_fmap in Hn as (d & -> & Hd).
  by apply subseteq_drop, listBackups_elem in Hd as [_ Hd].
Qed.


Lemma stat_succeeds (fs : disk) (l : list snapshot) :
  (forall n, Js.startsWith "backup-" n = true -> statFails fs n = false) ->
  existsb (fun s => statFails fs (name s)) (List.filter is_backup l) = false.
Proof.
  intros Hstat. induction l as [|s l IH]; [done|]. cbn [List.filter].
  destruct (is_backup s) eqn:Hs; [|done].
  cbn [existsb]. by rewrite (Hstat _ Hs), IH.
Qed.

Lemma cleanupOldBackups_bound (fs : disk) (maxBackups : nat) (st : state) :
  (forall n, Js.startsWith "backup-" n = true -> statFails fs n = false) ->
  (forall n, Js.startsWith "backup-" n = true -> deleteFails fs n = false) ->
  (length (List.filter is_backup
             (backups (cleanupOldBackups fs maxBackups st)))
   <= maxBackups)%nat.
Proof.
  intros Hstat Hdelete. unfold cleanupOldBackups.
  rewrite (stat_succeeds fs _ Hstat). cbn [backups].
  rewrite deleteFolders_all
    by (intros n Hn; by eapply Hdelete, doomed_named).
  rewrite filter_swap.
  rewrite (filter_perm_length _ _ (listBackups st))
    by (symmetry; apply sort_perm).
  rewrite <- (take_drop maxBackups (listBackups st)) at 1.
  rewrite List.filter_app, length_app.
  rewrite (filter_none _ (drop maxBackups (listBackups st)))
    by (intros s Hs; by apply doomed_not_kept).
  cbn [length]. rewrite Nat.add_0_r.
  etransitivity; [apply List.filter_length_le|].
  rewrite length_take. lia.
Qed.

Lemma cleanupOldBackups_others (fs : disk) (maxBackups : nat) (st : state) :
  List.filter (fun s => negb (is_backup s))
              (backups (cleanupOldBackups fs maxBackups st))
  = List.filter (fun s => negb (is_backup s)) (backups st).
Proof.
  unfold cleanupOldBackups. destruct (existsb _ _); [done|]. cbn [backups].
  apply deleteFolders_others. intros n Hn. by eapply doomed_named.
Qed.

(** Writing a snapshot touches backup folders only. *)
Lemma writeSnapshot_others (sha256 : string -> string) (folder : string)
    (time : Z) (copied : gmap string string) (l : list snapshot) :
  Js.startsWith "backup-" folder = true ->
  List.filter (fun s => negb (is_backup s))
              (writeSnapshot folder time copied l)
  = List.filter (fun s => negb (is_backup s)) l.
Proof.
  intros Hfolder. unfold writeSnapshot.
  destruct (existsb _ l).
  - induction l as [|s l IH]; [done|]. rewrite fmap_cons. cbn [List.filter].
    rewrite IH. clear IH.
    destruct (String.eqb_spec (name s) folder) as [Heq|Hne]; [|done].
    assert (Hs : is_backup s = true) by (unfold is_backup; by rewrite Heq).
    assert (Hnew : forall t,
               is_backup {| name := folder; mtime := t;
                            files := copied ∪ files s |} = true)
      by (intros t; exact Hfolder).
    by rewrite Hs, Hnew.
  - rewrite List.filter_app. cbn [List.filter].
    assert (Hnew : is_backup {| name := folder; mtime := time;
                                files := copied |} = true)
      by exact Hfolder.
    rewrite Hnew. cbn. by rewrite app_nil_r.
Qed.

End CleanupFacts.

(** X13.  A backup never touches the entries of the backup directory
    that are not named like a backup, whether it fails or not.  When
    nothing fails in it (the backup folder is made, every critical file
    that exists is copied, and deleteFolder removes every folder it is
    called on, after statSync has read the time of every entry named
    like a backup), it leaves at most five entries named like a
    backup. *)
Theorem backupCriticalFiles_keeps_five
    (cfg : SystemProtection.config) (sha256 : string -> string)
    (fs : SystemProtection.disk)
    (now : SystemProtection.clock) (st : SystemProtection.state) :
  List.filter (fun s => negb (SystemProtection.is_backup s))
     (SystemProtection.backups
        (SystemProtection.backupCriticalFiles cfg sha256 fs now st))
  = List.filter (fun s => negb (SystemProtection.is_backup s))
      (SystemProtection.backups st)
  /\ (SystemProtection.mkdirFails fs
        ("backup-" ++ SystemProtection.stamp now) = false ->
      (forall f c,
         f ∈ SystemProtection.criticalProgramFiles cfg ->
         SystemProtection.programDir st !! f = Some c ->
         SystemProtection.copyFails fs f = false) ->
      (forall n, Js.startsWith "backup-" n = true ->
                 SystemProtection.statFails fs n = false) ->
      (forall n, Js.startsWith "backup-" n = true ->
                 SystemProtection.deleteFails fs n = false) ->
      (length (List.filter SystemProtection.is_backup
                 (SystemProtection.backups
                    (SystemProtection.backupCriticalFiles cfg sha256 fs
                                                          now st)))
       <= 5)%nat).
Proof.
  split.
  - unfold SystemProtection.backupCriticalFiles.
    destruct (SystemProtection.mkdirFails fs _); [done|].
    destruct (foldl _ _ _) as [[copied hashes] failed].
    destruct failed.
    + cbn [SystemProtection.emit SystemProtection.backups].
      apply (writeSnapshot_others sha256). apply startsWith_app.
    + rewrite cleanupOldBackups_others.
      cbn [SystemProtection.emit SystemProtection.backups].
      apply (writeSnapshot_others sha256). apply startsWith_app.
  - intros Hmkdir Hcopies Hstat Hdelete.
    unfold SystemProtection.backupCriticalFiles. rewrite Hmkdir.
    destruct (backupFile_loop sha256 fs st
                (SystemProtection.criticalProgramFiles cfg) ∅
                (SystemProtection.criticalFileHashes st) Hcopies)
      as (copied & hashes & -> & _).
    by apply cleanupOldBackups_bound.
Qed.

Lemma backupCriticalFiles_keeps_five_installed :
  (length (List.filter SystemProtection.is_backup
             (SystemProtection.backups
                (SystemProtection.backupCriticalFiles
                   SystemProtection.twoFiles SystemProtection.plain_digest
                   SystemProtection.sound SystemProtection.later
                   SystemProtection.afterLoss)))
   <= 5)%nat.
Proof.
  by apply (proj2 (backupCriticalFiles_keeps_five SystemProtection.twoFiles
                     SystemProtection.plain_digest SystemProtection.sound
                     SystemProtection.later SystemProtection.afterLoss)).
Defined.

(** Where deleteFolder fails the loop of the cleanup ends: seven
    entries named like a backup, the oldest but one a plain file on
    which deleteFolder throws; a backup leaves seven, the file and the
    folder older than it among them. *)
Example cleanupOldBackups_stops_at_plain_file :
  (length (List.filter SystemProtection.is_backup
             (SystemProtection.backups
                (SystemProtection.backupCriticalFiles
                   SystemProtection.twoFiles SystemProtection.plain_digest
                   {| SystemProtection.mkdirFails := fun _ => false;
                      SystemProtection.copyFails := fun _ => false;
                      SystemProtection.statFails := fun _ => false;
                      SystemProtection.deleteFails :=
                        fun n => String.eqb n "backup-2.txt" |}
                   SystemProtection.noon
                   {| SystemProtection.programDir := ∅;
                      SystemProtection.backups :=
                        (fun k : nat =>
                           {| SystemProtection.name :=
                                if (k =? 2)%nat then "backup-2.txt"
                                else ("backup-"
                                      ++ String (ascii_of_nat (48 + k)) "")%string;
                              SystemProtection.mtime := Z.of_nat k;
                              SystemProtection.files := ∅ |})
                        <$> seq 1 7;
                      SystemProtection.criticalFileHashes := ∅;
                      SystemProtection.reads := 0;
                      SystemProtection.log := [] |})))
   = 7)%nat.
Proof. by vm_compute. Qed.

Section RoundTrip.

Import SystemProtection.




End RoundTrip.



(** ** ErrorRecovery: retries, delays and logs *)

Section RetryFacts.

Import ErrorRecovery.

Variable cfg : config.
Variable existsSync : string -> bool.

(** recordFailure writes neither delays nor log entries. *)
Lemma recordFailure_quiet (serviceName : string) (st : state) :
  sleeps (trace (recordFailure cfg existsSync serviceName st))
  = sleeps (trace st)
  /\ logged (trace (recordFailure cfg existsSync serviceName st))
     = logged (trace st)
  /\ recoveryLogged (trace (recordFailure cfg existsSync serviceName st))
     = recoveryLogged (trace st)
  /\ errorLog (recordFailure cfg existsSync serviceName st) = errorLog st.
Proof.
  unfold recordFailure, initiateRecovery, resetFailures, sleeps, logged,
    recoveryLogged.
  destruct (Js.reaches _ _); [|done].
  destruct (includes _ _); [|done].
  destruct (existsSync _); cbn [emit trace errorLog];
    rewrite !omap_app; cbn; by rewrite !app_nil_r.
Qed.




End RetryFacts.





Section LoopInvariants.

Import ErrorRecovery.

Variable cfg : config.
Variable existsSync : string -> bool.

(** Whatever recordFailure, logError, a delay and logRecovery keep, the
    loop of withRetry keeps, for every operation. *)
Lemma attemptLoop_preserves (P : state -> Prop)
    (operation : nat -> outcome) (operationName : string) :
  (forall st, P st -> P (recordFailure cfg existsSync operationName st)) ->
  (forall e a st, P st -> P (logError operationName e a st)) ->
  (forall ms st, P st -> P (emit (Delay ms) st)) ->
  (forall a st, P st -> P (logRecovery operationName a st)) ->
  forall (remaining attempt : nat) (lastError : option error) (st : state),
    P st ->
    P (attemptLoop cfg existsSync operation operationName remaining attempt
                   lastError st).2.
Proof.
  intros Hrecord Hlog Hdelay Hrecovery.
  induction remaining as [|remaining IH]; intros attempt lastError st Hst.
  - done.
  - cbn [attemptLoop]. destruct (operation attempt) as [v|e].
    + cbn [snd]. destruct (0 <? attempt)%nat; [by apply Hrecovery|done].
    + apply IH. destruct (S attempt <? maxRetries cfg)%nat; auto.
Qed.

Lemma logError_bound (operationName : string) (e : error) (a : nat)
    (st : state) :
  (length (errorLog st) <= 100)%nat ->
  (length (errorLog (logError operationName e a st)) <= 100)%nat.
Proof.
  intros Hlen. unfold logError. cbn [errorLog length].
  destruct (100 <? S (length (errorLog st)))%nat eqn:Hfull; [|by apply Nat.ltb_ge].
  rewrite removelast_firstn_len, length_take. cbn [length]. lia.
Qed.

Lemma recordFailure_noncritical (serviceName : string) (st : state) :
  includes (criticalServices cfg) serviceName = false ->
  recoveries (trace (recordFailure cfg existsSync serviceName st))
  = recoveries (trace st).
Proof.
  intros Hnot. unfold recordFailure. rewrite Hnot.
  by destruct (Js.reaches _ _).
Qed.

(** Calls of withRetry in a row on an operation that always fails and
    is not critical: every attempt is counted. *)
Lemma retryTimes_counts (operation : nat -> outcome)
    (operationName : string) :
  (forall n, exists e, operation n = Rejected e) ->
  Js.inherited operationName = false ->
  includes (criticalServices cfg) operationName = false ->
  forall (calls : nat) (st : state),
    tally (retryTimes cfg existsSync calls operation operationName st)
          operationName
    = tally st operationName + Z.of_nat calls * Z.of_nat (maxRetries cfg)
    /\ (calls <> 0%nat -> maxRetries cfg <> 0%nat ->
        failureCount
          (retryTimes cfg existsSync calls operation operationName st)
          !! operationName
        = Some (Js.Int (tally st operationName
                        + Z.of_nat calls * Z.of_nat (maxRetries cfg)))).
Proof.
  intros Hfail Hname Hnot.
  induction calls as [|calls IH]; intros st.
  - cbn. split; [lia|done].
  - cbn [retryTimes].
    destruct (withRetry_all_fail cfg existsSync operation operationName st
                Hfail Hname) as (Hc & _ & Hl).
    rewrite Hnot, bumps_below in Hc, Hl by (by left). cbn [fst] in Hc, Hl.
    destruct (IH (withRetry cfg existsSync operation operationName st).2)
      as [IHc IHl].
    rewrite Hc in IHc, IHl. split; [rewrite IHc; lia|].
    intros _ Hmax. destruct calls as [|calls'].
    + cbn [retryTimes]. destruct (Hl Hmax) as [_ ->]. do 2 f_equal. lia.
    + rewrite IHl by done. do 2 f_equal. lia.
Qed.

End LoopInvariants.

(** X17.  The in-memory error log never grows past 100 entries:
    whatever the operation does, a call of withRetry on a log of at
    most 100 entries leaves a log of at most 100 entries. *)
Theorem withRetry_errorLog_bound
    (cfg : ErrorRecovery.config) (existsSync : string -> bool)
    (operation : nat -> ErrorRecovery.outcome) (operationName : string)
    (st : ErrorRecovery.state) :
  (length (ErrorRecovery.errorLog st) <= 100)%nat ->
  (length (ErrorRecovery.errorLog
             (ErrorRecovery.withRetry cfg existsSync operation
                                      operationName st).2) <= 100)%nat.
Proof.
  intros Hlen. unfold ErrorRecovery.withRetry.
  apply (attemptLoop_preserves cfg existsSync
           (fun s => (length (ErrorRecovery.errorLog s) <= 100)%nat));
    [| |done|done|done].
  - intros s Hs.
    by destruct (recordFailure_quiet cfg existsSync operationName s)
      as (_ & _ & _ & ->).
  - intros e a s Hs. by apply logError_bound.
Qed.

(** Forty all-failing calls in a row write 120 entries to the log
    file and leave 100 in memory. *)
Lemma withRetry_errorLog_bound_forty_calls :
  (length (ErrorRecovery.errorLog
             (ErrorRecovery.withRetry ErrorRecovery.defaults
                ErrorRecovery.scriptsInstalled ErrorRecovery.broken
                "moveFile"
                (ErrorRecovery.retryTimes ErrorRecovery.defaults
                   ErrorRecovery.scriptsInstalled 39 ErrorRecovery.broken
                   "moveFile" ErrorRecovery.new)).2) <= 100)%nat.
Proof.
  apply (withRetry_errorLog_bound ErrorRecovery.defaults
           ErrorRecovery.scriptsInstalled ErrorRecovery.broken "moveFile").
  by vm_compute.
Defined.

(** X18.  The failures of an operation whose name is not among
    criticalServices never start a recovery, however many calls fail
    and whatever the threshold.  They are counted all the same: when
    every attempt fails and the name is not one that Object.prototype
    holds, each call adds maxRetries to the count of the name. *)
Theorem withRetry_noncritical_never_recovers
    (cfg : ErrorRecovery.config) (existsSync : string -> bool)
    (operation : nat -> ErrorRecovery.outcome) (operationName : string)
    (calls : nat) (st : ErrorRecovery.state) :
  ErrorRecovery.includes (ErrorRecovery.criticalServices cfg) operationName
  = false ->
  ErrorRecovery.recoveries
    (ErrorRecovery.trace
       (ErrorRecovery.retryTimes cfg existsSync calls operation
                                 operationName st))
  = ErrorRecovery.recoveries (ErrorRecovery.trace st)
  /\ ((forall n, exists e, operation n = ErrorRecovery.Rejected e) ->
      Js.inherited operationName = false ->
      calls <> 0%nat -> ErrorRecovery.maxRetries cfg <> 0%nat ->
      ErrorRecovery.failureCount
        (ErrorRecovery.retryTimes cfg existsSync calls operation
                                  operationName st) !! operationName
      = Some (Js.Int (ErrorRecovery.tally st operationName
                      + Z.of_nat calls
                        * Z.of_nat (ErrorRecovery.maxRetries cfg)))).
Proof.
  intros Hnot. split.
  - revert st.
    induction calls as [|calls IH]; intros st; [done|].
    cbn [ErrorRecovery.retryTimes]. rewrite IH.
    unfold ErrorRecovery.withRetry.
    apply (attemptLoop_preserves cfg existsSync
             (fun s => ErrorRecovery.recoveries (ErrorRecovery.trace s)
                       = ErrorRecovery.recoveries (ErrorRecovery.trace st)));
      [| | | |done].
    + intros s Hs.
      by rewrite (recordFailure_noncritical cfg existsSync operationName s
                    Hnot).
    + intros e a s Hs. unfold ErrorRecovery.logError.
      cbn [ErrorRecovery.trace]. rewrite recoveries_app, Hs. cbn. lia.
    + intros ms s Hs. unfold ErrorRecovery.emit. cbn [ErrorRecovery.trace].
      rewrite recoveries_app, Hs. cbn. lia.
    + intros a s Hs. unfold ErrorRecovery.logRecovery, ErrorRecovery.emit.
      cbn [ErrorRecovery.trace]. rewrite recoveries_app, Hs. cbn. lia.
  - intros Hfail Hname Hcalls Hmax.
    by apply (retryTimes_counts cfg existsSync operation operationName
                Hfail Hname Hnot calls st).
Qed.

Lemma withRetry_noncritical_never_recovers_moveFile :
  ErrorRecovery.recoveries
    (ErrorRecovery.trace
       (ErrorRecovery.retryTimes ErrorRecovery.defaults
          ErrorRecovery.scriptsInstalled 50 ErrorRecovery.broken "moveFile"
          ErrorRecovery.new)) = 0%nat
  /\ ErrorRecovery.failureCount
       (ErrorRecovery.retryTimes ErrorRecovery.defaults
          ErrorRecovery.scriptsInstalled 50 ErrorRecovery.broken "moveFile"
          ErrorRecovery.new) !! "moveFile"%string
     = Some (Js.Int 150).
Proof.
  destruct (withRetry_noncritical_never_recovers ErrorRecovery.defaults
              ErrorRecovery.scriptsInstalled ErrorRecovery.broken "moveFile"
              50 ErrorRecovery.new eq_refl) as [Hnone Hcount].
  split; [exact Hnone|].
  apply Hcount; [|reflexivity|done|done].
  intros n. eexists. reflexivity.
Defined.

Lemma filter_sublist {A : Type} (f : A -> bool) (l : list A) :
  List.filter f l `sublist_of` l.
Proof.
  induction l as [|x l IH]; cbn; [done|].
  destruct (f x); [by apply sublist_skip|by apply sublist_cons].
Qed.

(** X19.  getRecentErrors with a service name and a limit that is not
    negative returns at most [limit] entries, all of them failures of
    that service, in the order of the log (newest first). *)
Theorem getRecentErrors_bounded
    (serviceName : string) (limit : Z) (st : ErrorRecovery.state) :
  serviceName <> ""%string ->
  0 <= limit ->
  (length (ErrorRecovery.getRecentErrors (Some serviceName) limit st)
   <= Z.to_nat limit)%nat
  /\ Forall (fun entry => ErrorRecovery.operation entry = serviceName)
            (ErrorRecovery.getRecentErrors (Some serviceName) limit st)
  /\ ErrorRecovery.getRecentErrors (Some serviceName) limit st
     `sublist_of` ErrorRecovery.errorLog st.
Proof.
  intros Hname Hlimit. unfold ErrorRecovery.getRecentErrors.
  destruct (String.eqb_spec serviceName "") as [|_]; [done|].
  unfold ErrorRecovery.slice0.
  assert (Hpos : (0 <=? limit) = true) by (by apply Z.leb_le).
  rewrite Hpos. split; [rewrite length_take; lia|]. split.
  - apply Forall_take, Forall_forall. intros entry Hin.
    apply list_elem_of_In, filter_In in Hin as [_ Heq].
    by apply String.eqb_eq.
  - etransitivity; [apply sublist_take|apply filter_sublist].
Qed.

Lemma getRecentErrors_bounded_moveFile :
  (length (ErrorRecovery.getRecentErrors (Some "moveFile"%string) 2
             (ErrorRecovery.withRetry ErrorRecovery.defaults
                ErrorRecovery.scriptsInstalled ErrorRecovery.broken
                "moveFile" ErrorRecovery.new).2) <= 2)%nat.
Proof.
  apply (getRecentErrors_bounded "moveFile" 2
           (ErrorRecovery.withRetry ErrorRecovery.defaults
              ErrorRecovery.scriptsInstalled ErrorRecovery.broken
              "moveFile" ErrorRecovery.new).2).
  - done.
  - lia.
Defined.

Lemma string_app_inv_head (a b c : string) :
  (a ++ b)%string = (a ++ c)%string -> b = c.
Proof.
  induction a as [|x a IH]; simpl; [done|]. intros [= H]. by apply IH.
Qed.

(** createRestartScript never writes the file that initiateRecovery
    looks for under the same service name. *)
Lemma scriptPath_differs (cfg : ErrorRecovery.config) (serviceName : string) :
  ErrorRecovery.scriptPath cfg serviceName
  <> ErrorRecovery.restartScript cfg serviceName.
Proof.
  unfold ErrorRecovery.scriptPath, ErrorRecovery.restartScript.
  intros H. apply string_app_inv_head, string_app_inv_head in H.
  destruct (String.eqb_spec serviceName "apiServer") as [Heq|_];
    [rewrite Heq in H; vm_compute in H; discriminate H|].
  destruct (String.eqb_spec serviceName "fileOrganizer") as [Heq|_];
    [rewrite Heq in H; vm_compute in H; discriminate H|].
  simpl in H. discriminate H.
Qed.

(** X20.  The script that createRestartScript writes for a service is
    not the script that initiateRecovery runs for it: the first is
    named after the lower-cased service name, the second is one of
    three fixed names.  For a service name without path separators:
    unless the fixed script exists already, recovery of the service
    finds no script to run even after createRestartScript has been
    called for it. *)
Theorem createRestartScript_not_used
    (cfg : ErrorRecovery.config) (serviceName : string)
    (scripts : gset string) (st : ErrorRecovery.state) :
  Js.occurs "/" serviceName = false ->
  Js.occurs "\" serviceName = false ->
  ErrorRecovery.restartScript cfg serviceName ∉ scripts ->
  (ErrorRecovery.createRestartScript cfg serviceName scripts).1
  <> ErrorRecovery.restartScript cfg serviceName
  /\ ErrorRecovery.trace
       (ErrorRecovery.initiateRecovery cfg
          (ErrorRecovery.existsIn
             (ErrorRecovery.createRestartScript cfg serviceName scripts).2)
          serviceName st)
     = ErrorRecovery.trace st
       ++ [ErrorRecovery.ScriptNotFound
             (ErrorRecovery.restartScript cfg serviceName)].
Proof.
  intros _ _ Hmissing.
  pose proof (scriptPath_differs cfg serviceName) as Hne.
  split; [exact Hne|].
  unfold ErrorRecovery.initiateRecovery, ErrorRecovery.existsIn,
    ErrorRecovery.createRestartScript. cbn [snd].
  rewrite bool_decide_false; [done|].
  rewrite elem_of_union, elem_of_singleton. intros [Heq|Hin]; [|done].
  by apply Hne.
Qed.

Lemma createRestartScript_not_used_apiServer :
  ErrorRecovery.trace
    (ErrorRecovery.initiateRecovery ErrorRecovery.defaults
       (ErrorRecovery.existsIn
          (ErrorRecovery.createRestartScript ErrorRecovery.defaults
             "apiServer" ∅).2)
       "apiServer" ErrorRecovery.new)
  = [ErrorRecovery.ScriptNotFound
       "C:/SORTING HAT/BRAINS/restart_api_server.bat"].
Proof.
  apply (createRestartScript_not_used ErrorRecovery.defaults "apiServer" ∅
           ErrorRecovery.new).
  - reflexivity.
  - reflexivity.
  - apply not_elem_of_empty.
Defined.

(** ** PerformanceOptimizer: what the queue does keep *)

Section QueueInvariants.

Import PerformanceOptimizer.

Variable cfg : config.

Lemma peak_consistent (evs : list event) :
  forall st, consistent cfg st ->
             peak cfg evs st <= Z.max 0 (batchSize cfg).
Proof.
  induction evs as [|ev evs IH]; intros st Hst; cbn [peak].
  - destruct Hst as (Ha & _ & _ & Hd). lia.
  - assert (Hhere : activeOperations st <= Z.max 0 (batchSize cfg))
      by (destruct Hst as (Ha & _ & _ & Hd); lia).
    destruct (step cfg ev st) as [st1|] eqn:Hstep; [|done].
    specialize (IH st1 (step_consistent cfg ev st st1 Hst Hstep)). lia.
Qed.

Lemma new_consistent : consistent cfg new.
Proof. repeat split; cbn; try done; lia. Qed.

(** The entries in the queue, in flight and settled, together. *)
Lemma drain_total (st : state) :
  (length (queue (drain cfg st)) + length (running (drain cfg st))
   = length (queue st) + length (running st))%nat
  /\ settled (drain cfg st) = settled st
  /\ operationsCompleted (drain cfg st) = operationsCompleted st
  /\ operationsFailed (drain cfg st) = operationsFailed st.
Proof.
  unfold drain.
  destruct ((0 <? Z.of_nat (length (queue st)))
            && (activeOperations st <? maxConcurrentOperations cfg));
    cbn [queue running settled operationsCompleted operationsFailed];
    [|done].
  rewrite length_app, sort_length, length_take, length_drop.
  repeat split. lia.
Qed.

Lemma processQueue_total (st : state) :
  (length (queue (processQueue cfg st))
   + length (running (processQueue cfg st))
   = length (queue st) + length (running st))%nat
  /\ settled (processQueue cfg st) = settled st
  /\ operationsCompleted (processQueue cfg st) = operationsCompleted st
  /\ operationsFailed (processQueue cfg st) = operationsFailed st.
Proof.
  unfold processQueue. destruct (isProcessing st); [done|].
  apply (drain_total
           {| queue := queue st; activeOperations := activeOperations st;
              isProcessing := true; running := running st;
              suspended := suspended st; immediates := immediates st;
              operationsCompleted := operationsCompleted st;
              operationsFailed := operationsFailed st;
              settled := settled st |}).
Qed.

Lemma step_total (ev : event) (st st' : state) :
  step cfg ev st = Some st' ->
  (length (queue st') + length (running st') + length (settled st')
   + abandoned [ev]
   = length (queue st) + length (running st) + length (settled st)
     + scheduled [ev])%nat
  /\ operationsCompleted st' + operationsFailed st'
     - Z.of_nat (length (settled st'))
     = operationsCompleted st + operationsFailed st
       - Z.of_nat (length (settled st)) + Z.of_nat (abandoned [ev]).
Proof.
  intros Hstep. destruct ev as [it|t ok| | |t]; cbn in Hstep.
  - injection Hstep as <-. unfold scheduleOperation. cbn [isProcessing].
    destruct (isProcessing st).
    + cbn. rewrite length_app. cbn. split; lia.
    + match goal with
      | |- context [processQueue cfg ?s] =>
          destruct (processQueue_total s) as (Hq & -> & -> & ->)
      end.
      cbn [queue running settled operationsCompleted operationsFailed] in *.
      rewrite length_app in Hq. cbn in *. split; lia.
  - destruct (existsb (has_ticket t) (running st)) eqn:Hin; [|done].
    injection Hstep as <-. pose proof (withdraw_length t _ Hin) as Hlen.
    unfold finish.
    cbn [queue running settled operationsCompleted operationsFailed
         scheduled abandoned List.filter length].
    rewrite length_app. cbn [length].
    split; [lia|]. destruct ok; lia.
  - destruct (suspended st && bool_decide (running st = [])); [|done].
    injection Hstep as <-.
    destruct (drain_total st) as (Hq & -> & -> & ->). cbn. split; lia.
  - destruct (immediates st) as [|k]; [done|]. injection Hstep as <-.
    match goal with
    | |- context [processQueue cfg ?s] =>
        destruct (processQueue_total s) as (Hq & -> & -> & ->)
    end.
    cbn [queue running settled operationsCompleted operationsFailed] in *.
    cbn. split; lia.
  - destruct (existsb (has_ticket t) (running st)) eqn:Hin; [|done].
    injection Hstep as <-. pose proof (withdraw_length t _ Hin) as Hlen.
    unfold abandon.
    cbn [queue running settled operationsCompleted operationsFailed
         scheduled abandoned List.filter length].
    split; lia.
Qed.

Lemma scheduled_cons (ev : event) (evs : list event) :
  scheduled (ev :: evs) = (scheduled [ev] + scheduled evs)%nat.
Proof. unfold scheduled. cbn. by destruct ev. Qed.

Lemma abandoned_cons (ev : event) (evs : list event) :
  abandoned (ev :: evs) = (abandoned [ev] + abandoned evs)%nat.
Proof. unfold abandoned. cbn. by destruct ev. Qed.

Lemma run_total (evs : list event) :
  forall st st',
    run cfg evs st = Some st' ->
    (length (queue st') + length (running st') + length (settled st')
     + abandoned evs
     = length (queue st) + length (running st) + length (settled st)
       + scheduled evs)%nat
    /\ operationsCompleted st' + operationsFailed st'
       - Z.of_nat (length (settled st'))
       = operationsCompleted st + operationsFailed st
         - Z.of_nat (length (settled st)) + Z.of_nat (abandoned evs).
Proof.
  induction evs as [|ev evs IH]; intros st st' Hrun; cbn [run] in Hrun.
  - injection Hrun as <-. unfold scheduled, abandoned. cbn. split; lia.
  - destruct (step cfg ev st) as [st1|] eqn:Hstep; [|done].
    destruct (step_total ev st st1 Hstep) as [H1 M1].
    destruct (IH st1 st' Hrun) as [H2 M2].
    rewrite scheduled_cons, abandoned_cons. split; lia.
Qed.

(** The two counters against the promises settled. *)
Lemma step_counters (ev : event) (st st' : state) :
  step cfg ev st = Some st' ->
  operationsCompleted st' - Z.of_nat (length (List.filter snd (settled st')))
  = operationsCompleted st - Z.of_nat (length (List.filter snd (settled st)))
  /\ operationsFailed st'
     - Z.of_nat (length (List.filter (fun s => negb s.2) (settled st')))
     = operationsFailed st
       - Z.of_nat (length (List.filter (fun s => negb s.2) (settled st)))
       + Z.of_nat (abandoned [ev]).
Proof.
  intros Hstep. destruct ev as [it|t ok| | |t]; cbn in Hstep.
  - injection Hstep as <-. unfold scheduleOperation. cbn [isProcessing].
    destruct (isProcessing st).
    + cbn. split; lia.
    + match goal with
      | |- context [processQueue cfg ?s] =>
          destruct (processQueue_total s) as (_ & -> & -> & ->)
      end.
      cbn. split; lia.
  - destruct (existsb (has_ticket t) (running st)); [|done].
    injection Hstep as <-. unfold finish.
    cbn [settled operationsCompleted operationsFailed abandoned
         List.filter length].
    rewrite !List.filter_app, !length_app.
    destruct ok; cbn; split; lia.
  - destruct (suspended st && bool_decide (running st = [])); [|done].
    injection Hstep as <-.
    destruct (drain_total st) as (_ & -> & -> & ->). cbn. split; lia.
  - destruct (immediates st) as [|k]; [done|]. injection Hstep as <-.
    match goal with
    | |- context [processQueue cfg ?s] =>
        destruct (processQueue_total s) as (_ & -> & -> & ->)
    end.
    cbn. split; lia.
  - destruct (existsb (has_ticket t) (running st)); [|done].
    injection Hstep as <-. unfold abandon. cbn. split; lia.
Qed.

Lemma run_counters (evs : list event) :
  forall st st',
    run cfg evs st = Some st' ->
    operationsCompleted st'
    - Z.of_nat (length (List.filter snd (settled st')))
    = operationsCompleted st
      - Z.of_nat (length (List.filter snd (settled st)))
    /\ operationsFailed st'
       - Z.of_nat (length (List.filter (fun s => negb s.2) (settled st')))
       = operationsFailed st
         - Z.of_nat (length (List.filter (fun s => negb s.2) (settled st)))
         + Z.of_nat (abandoned evs).
Proof.
  induction evs as [|ev evs IH]; intros st st' Hrun; cbn [run] in Hrun.
  - injection Hrun as <-. unfold abandoned. cbn. split; lia.
  - destruct (step cfg ev st) as [st1|] eqn:Hstep; [|done].
    destruct (step_counters ev st st1 Hstep) as [C1 F1].
    destruct (IH st1 st' Hrun) as [C2 F2].
    rewrite abandoned_cons. split; lia.
Qed.

End QueueInvariants.

(** X21.  What the queue does bound is the batch: along every run
    from a new object, at every instant, the number of operations in
    flight is at most batchSize, whatever maxConcurrentOperations says. *)
Theorem peak_within_batch
    (cfg : PerformanceOptimizer.config)
    (evs : list PerformanceOptimizer.event) :
  PerformanceOptimizer.peak cfg evs PerformanceOptimizer.new
  <= Z.max 0 (PerformanceOptimizer.batchSize cfg).
Proof. apply peak_consistent, new_consistent. Qed.

(** X22.  The books of the queue balance.  After every run from a
    new object, the entries still queued, those in flight, the promises
    settled and the operations abandoned (those that rejected with
    undefined or null, whose promise stays pending) add up to the calls
    of scheduleOperation; operationsCompleted counts the promises
    resolved, and operationsFailed the promises rejected and the
    operations abandoned. *)
Theorem run_accounts_for_every_operation
    (cfg : PerformanceOptimizer.config)
    (evs : list PerformanceOptimizer.event)
    (st : PerformanceOptimizer.state) :
  PerformanceOptimizer.run cfg evs PerformanceOptimizer.new = Some st ->
  (length (PerformanceOptimizer.queue st)
   + length (PerformanceOptimizer.running st)
   + length (PerformanceOptimizer.settled st)
   + PerformanceOptimizer.abandoned evs
   = PerformanceOptimizer.scheduled evs)%nat
  /\ PerformanceOptimizer.operationsCompleted st
     = Z.of_nat (length (List.filter snd (PerformanceOptimizer.settled st)))
  /\ PerformanceOptimizer.operationsFailed st
     = Z.of_nat (length (List.filter (fun s => negb s.2)
                                     (PerformanceOptimizer.settled st)))
       + Z.of_nat (PerformanceOptimizer.abandoned evs).
Proof.
  intros Hrun.
  destruct (run_total cfg evs PerformanceOptimizer.new st Hrun) as [H _].
  destruct (run_counters cfg evs PerformanceOptimizer.new st Hrun)
    as [Hdone Hfailed].
  cbn in H, Hdone, Hfailed. split; [lia|]. split; lia.
Qed.

Lemma run_accounts_for_every_operation_one_abandoned :
  exists st,
    PerformanceOptimizer.run PerformanceOptimizer.fourAtATime
      (PerformanceOptimizer.submit 0 3
       ++ [PerformanceOptimizer.Abandon 0; PerformanceOptimizer.Resume;
           PerformanceOptimizer.Settle 1 true;
           PerformanceOptimizer.Settle 2 false])
      PerformanceOptimizer.new = Some st
    /\ length (PerformanceOptimizer.settled st) = 2%nat
    /\ PerformanceOptimizer.operationsCompleted st = 1
    /\ PerformanceOptimizer.operationsFailed st = 2.
Proof.
  eexists. split; [vm_compute; reflexivity|].
  edestruct (run_accounts_for_every_operation
               PerformanceOptimizer.fourAtATime
               (PerformanceOptimizer.submit 0 3
                ++ [PerformanceOptimizer.Abandon 0;
                    PerformanceOptimizer.Resume;
                    PerformanceOptimizer.Settle 1 true;
                    PerformanceOptimizer.Settle 2 false]))
    as (Hsum & Hdone & Hfailed).
  - vm_compute. reflexivity.
  - split; [reflexivity|]. split; [exact Hdone|exact Hfailed].
Defined.

(** ** PerformanceOptimizer: the order inside a batch *)

Section QueueOrder.

Import PerformanceOptimizer.






End QueueOrder.



(** ** PerformanceOptimizer: when the queue moves and when it cannot *)

Section QueueProgress.

Import PerformanceOptimizer.

Variable cfg : config.

(** With empty batches, or with no operation allowed, a turn of the
    loop starts nothing. *)
Lemma drain_starts_nothing (st : state) :
  batchSize cfg <= 0 \/ maxConcurrentOperations cfg <= 0 ->
  running st = [] /\ settled st = [] /\ activeOperations st = 0 ->
  running (drain cfg st) = [] /\ settled (drain cfg st) = []
  /\ activeOperations (drain cfg st) = 0.
Proof.
  intros Hcfg (Hrun & Hset & Hact). unfold drain.
  destruct ((0 <? Z.of_nat (length (queue st)))
            && (activeOperations st <? maxConcurrentOperations cfg))
    eqn:Htest; cbn [running settled activeOperations]; [|done].
  apply andb_true_iff in Htest as [_ Hmax]. apply Z.ltb_lt in Hmax.
  destruct Hcfg as [Hbatch|Hnone]; [|lia].
  replace (Z.to_nat (Z.min (Z.of_nat (length (queue st))) (batchSize cfg)))
    with 0%nat by lia.
  rewrite Hrun, Hact. done.
Qed.

Lemma processQueue_starts_nothing (st : state) :
  batchSize cfg <= 0 \/ maxConcurrentOperations cfg <= 0 ->
  running st = [] /\ settled st = [] /\ activeOperations st = 0 ->
  running (processQueue cfg st) = [] /\ settled (processQueue cfg st) = []
  /\ activeOperations (processQueue cfg st) = 0.
Proof.
  intros Hcfg Hst. unfold processQueue. destruct (isProcessing st); [done|].
  by apply drain_starts_nothing.
Qed.

Lemma step_starts_nothing (ev : event) (st st' : state) :
  batchSize cfg <= 0 \/ maxConcurrentOperations cfg <= 0 ->
  running st = [] /\ settled st = [] /\ activeOperations st = 0 ->
  step cfg ev st = Some st' ->
  (running st' = [] /\ settled st' = [] /\ activeOperations st' = 0)
  /\ abandoned [ev] = 0%nat.
Proof.
  intros Hcfg Hst Hstep. destruct ev as [it|t ok| | |t]; cbn in Hstep.
  - injection Hstep as <-. unfold scheduleOperation. cbn [isProcessing].
    split; [|done]. destruct (isProcessing st); [done|].
    by apply processQueue_starts_nothing.
  - destruct Hst as (Hrun & _). by rewrite Hrun in Hstep.
  - destruct (suspended st && bool_decide (running st = [])); [|done].
    injection Hstep as <-. split; [|done]. by apply drain_starts_nothing.
  - destruct (immediates st) as [|k]; [done|]. injection Hstep as <-.
    split; [|done]. by apply processQueue_starts_nothing.
  - destruct Hst as (Hrun & _). by rewrite Hrun in Hstep.
Qed.

Lemma run_starts_nothing (evs : list event) :
  forall st st',
    batchSize cfg <= 0 \/ maxConcurrentOperations cfg <= 0 ->
    running st = [] /\ settled st = [] /\ activeOperations st = 0 ->
    run cfg evs st = Some st' ->
    (running st' = [] /\ settled st' = [] /\ activeOperations st' = 0)
    /\ abandoned evs = 0%nat.
Proof.
  induction evs as [|ev evs IH]; intros st st' Hcfg Hst Hrun;
    cbn [run] in Hrun.
  - by injection Hrun as <-.
  - destruct (step cfg ev st) as [st1|] eqn:Hstep; [|done].
    destruct (step_starts_nothing ev st st1 Hcfg Hst Hstep) as [Hst1 Hev].
    destruct (IH st1 st' Hcfg Hst1 Hrun) as [Hst' Hevs].
    split; [done|]. rewrite abandoned_cons. lia.
Qed.

(** The second invariant: [armed]. *)
Lemma drain_armed (st : state) :
  isProcessing st = true -> armed (drain cfg st).
Proof.
  intros Hproc. unfold drain, armed.
  destruct ((0 <? Z.of_nat (length (queue st)))
            && (activeOperations st <? maxConcurrentOperations cfg));
    cbn [isProcessing suspended queue immediates].
  - split; [done|]. by rewrite Hproc.
  - split; [done|]. intros _ Hq. destruct (queue st); [done|]. cbn. lia.
Qed.

Lemma processQueue_armed (st : state) :
  armed st -> armed (processQueue cfg st).
Proof.
  intros Hst. unfold processQueue.
  destruct (isProcessing st) eqn:Hproc; [done|]. by apply drain_armed.
Qed.

Lemma step_armed (ev : event) (st st' : state) :
  consistent cfg st -> armed st -> step cfg ev st = Some st' -> armed st'.
Proof.
  intros (_ & _ & Hsusp & _) [Hwait Hleft] Hstep.
  destruct ev as [it|t ok| | |t]; cbn in Hstep.
  - injection Hstep as <-. unfold scheduleOperation. cbn [isProcessing].
    destruct (isProcessing st) eqn:Hproc.
    + split; cbn [isProcessing suspended];
        [intros _; by apply Hwait|done].
    + unfold processQueue. cbn [isProcessing]. by apply drain_armed.
  - destruct (existsb (has_ticket t) (running st)); [|done].
    by injection Hstep as <-.
  - destruct (suspended st) eqn:Hs; [|done].
    destruct (bool_decide (running st = [])); [|done].
    injection Hstep as <-. apply drain_armed. by apply Hsusp.
  - destruct (immediates st) as [|k]; [done|]. injection Hstep as <-.
    unfold processQueue. cbn [isProcessing].
    destruct (isProcessing st) eqn:Hproc.
    + split; cbn [isProcessing suspended];
        [intros _; by apply Hwait|done].
    + by apply drain_armed.
  - destruct (existsb (has_ticket t) (running st)); [|done].
    by injection Hstep as <-.
Qed.

Lemma run_armed (evs : list event) :
  forall st st',
    consistent cfg st -> armed st -> run cfg evs st = Some st' ->
    consistent cfg st' /\ armed st'.
Proof.
  induction evs as [|ev evs IH]; intros st st' Hc Ha Hrun; cbn [run] in Hrun.
  - by injection Hrun as <-.
  - destruct (step cfg ev st) as [st1|] eqn:Hstep; [|done].
    eapply IH; [| |exact Hrun];
      [by eapply step_consistent|by eapply step_armed].
Qed.

Lemma run_app (evs more : list event) :
  forall st,
    run cfg (evs ++ more) st
    = match run cfg evs st with
      | Some st1 => run cfg more st1
      | None => None
      end.
Proof.
  induction evs as [|ev evs IH]; intros st; cbn [run app]; [done|].
  destruct (step cfg ev st); [apply IH|done].
Qed.

Lemma scheduled_app (evs more : list event) :
  scheduled (evs ++ more) = (scheduled evs + scheduled more)%nat.
Proof. unfold scheduled. by rewrite List.filter_app, length_app. Qed.

Lemma abandoned_app (evs more : list event) :
  abandoned (evs ++ more) = (abandoned evs + abandoned more)%nat.
Proof. unfold abandoned. by rewrite List.filter_app, length_app. Qed.

Lemma finishing_adds_none (evs : list event) :
  Forall finishing evs -> scheduled evs = 0%nat /\ abandoned evs = 0%nat.
Proof.
  induction 1 as [|ev evs Hev _ [IH1 IH2]]; [done|].
  rewrite scheduled_cons, abandoned_cons, IH1, IH2. by destruct ev.
Qed.

(** Every running operation can finish, and when all have finished
    nothing else has changed. *)
Lemma settle_all :
  forall (l : list item) (st : state),
    running st = l ->
    exists st',
      run cfg ((fun it => Settle (ticket it) true) <$> l) st = Some st'
      /\ running st' = [] /\ queue st' = queue st
      /\ isProcessing st' = isProcessing st
      /\ suspended st' = suspended st.
Proof.
  induction l as [|x l IH]; intros st Hrun.
  - exists st. by repeat split.
  - cbn [fmap list_fmap run step]. rewrite Hrun. cbn [existsb].
    unfold has_ticket at 1. rewrite Nat.eqb_refl. cbn [orb].
    destruct (IH (finish (ticket x) true st)) as (st' & H1 & H2 & H3 & H4 & H5).
    { unfold finish. cbn [running]. rewrite Hrun. cbn [withdraw].
      unfold has_ticket. by rewrite Nat.eqb_refl. }
    exists st'. by repeat split.
Qed.

Section Positive.

Hypothesis some_allowed : 0 < maxConcurrentOperations cfg.
Hypothesis some_batch : 0 < batchSize cfg.

(** A turn of the loop with nothing running takes entries off a queue
    that has some, and ends the loop on an empty queue. *)
Lemma drain_shrinks (st : state) :
  activeOperations st = 0 -> queue st <> [] ->
  isProcessing (drain cfg st) = isProcessing st
  /\ (length (queue (drain cfg st)) < length (queue st))%nat.
Proof.
  intros Hact Hq. unfold drain.
  assert (0 < length (queue st))%nat by (destruct (queue st); cbn; [done|lia]).
  rewrite Hact.
  replace (0 <? Z.of_nat (length (queue st))) with true
    by (symmetry; apply Z.ltb_lt; lia).
  replace (0 <? maxConcurrentOperations cfg) with true
    by (symmetry; by apply Z.ltb_lt).
  cbn [andb isProcessing queue]. split; [done|].
  rewrite length_drop. lia.
Qed.

Lemma drain_stops (st : state) :
  queue st = [] ->
  queue (drain cfg st) = [] /\ running (drain cfg st) = running st
  /\ isProcessing (drain cfg st) = false.
Proof. intros Hq. unfold drain. rewrite Hq. by cbn. Qed.

Lemma processing_drains :
  forall (n : nat) (st : state),
    (length (queue st) <= n)%nat ->
    consistent cfg st -> armed st -> isProcessing st = true ->
    exists more st',
      Forall finishing more /\ run cfg more st = Some st'
      /\ queue st' = [] /\ running st' = [] /\ isProcessing st' = false.
Proof.
  induction n as [|n IH]; intros st Hlen Hc Ha Hproc.
  all: destruct (settle_all (running st) st eq_refl)
         as (st1 & Hrun1 & Hr1 & Hq1 & Hp1 & Hs1).
  all: destruct (run_armed _ st st1 Hc Ha Hrun1) as [Hc1 Ha1].
  all: assert (Hint1 : Forall finishing
                 ((fun it => Settle (ticket it) true) <$> running st))
         by (apply Forall_fmap, Forall_forall; by intros).
  all: assert (Hstep : step cfg Resume st1 = Some (drain cfg st1))
         by (cbn [step]; rewrite Hs1, (proj1 Ha Hproc), Hr1; done).
  all: assert (Hact1 : activeOperations st1 = 0)
         by (destruct Hc1 as (-> & _); by rewrite Hr1).
  all: destruct (decide (queue st1 = [])) as [Hempty|Hsome].
  1, 3: destruct (drain_stops st1 Hempty) as (Hq2 & Hr2 & Hp2);
    exists (((fun it => Settle (ticket it) true) <$> running st) ++ [Resume]),
           (drain cfg st1);
    (split; [apply Forall_app; split; [done|by repeat constructor]|]);
    (split; [rewrite run_app, Hrun1; cbn [run]; by rewrite Hstep|]);
    by rewrite Hq2, Hr2, Hr1.
  - exfalso. rewrite Hq1 in Hsome. destruct (queue st); [done|cbn in Hlen; lia].
  - destruct (drain_shrinks st1 Hact1 Hsome) as [Hp2 Hlen2].
    destruct (IH (drain cfg st1)) as (more & st' & Hint & Hrun & Hfin).
    + rewrite Hq1 in Hlen2. lia.
    + by eapply step_consistent.
    + by eapply step_armed.
    + by rewrite Hp2, Hp1.
    + exists (((fun it => Settle (ticket it) true) <$> running st)
              ++ Resume :: more), st'.
      split; [apply Forall_app; split; [done|by constructor]|].
      split; [|done].
      rewrite run_app, Hrun1. cbn [run]. by rewrite Hstep.
Qed.

Lemma queue_drains_from (st : state) :
  consistent cfg st -> armed st ->
  exists more st',
    Forall finishing more /\ run cfg more st = Some st'
    /\ queue st' = [] /\ running st' = [] /\ isProcessing st' = false.
Proof.
  intros Hc Ha. destruct (isProcessing st) eqn:Hproc.
  - by apply (processing_drains (length (queue st))).
  - destruct (decide (queue st = [])) as [Hempty|Hsome].
    + exists [], st. split; [constructor|]. split; [done|].
      split; [done|]. split; [|done]. by apply Hc.
    + destruct (immediates st) as [|k] eqn:Himm;
        [by destruct (proj2 Ha Hproc Hsome)|].
      destruct (step cfg Immediate st) as [st1|] eqn:Hstep;
        [|by cbn in Hstep; rewrite Himm in Hstep].
      assert (Hp1 : isProcessing st1 = true).
      { cbn in Hstep. rewrite Himm in Hstep. injection Hstep as <-.
        unfold processQueue. cbn [isProcessing]. rewrite Hproc.
        match goal with
        | |- isProcessing (drain cfg ?s) = true =>
            destruct (drain_shrinks s) as [-> _]
        end; cbn [activeOperations queue isProcessing]; try done.
        destruct Hc as (-> & Hidle & _). by rewrite (Hidle Hproc). }
      destruct (processing_drains (length (queue st1)) st1)
        as (more & st' & Hint & Hrun & Hfin); [done| | |done|].
      * by eapply step_consistent.
      * by eapply step_armed.
      * exists (Immediate :: more), st'.
        split; [by constructor|]. split; [|done].
        cbn [run]. by rewrite Hstep.
Qed.

End Positive.

End QueueProgress.

(** X24.  A batch size or a concurrency limit that is not positive
    stops the queue for good: batches are empty, or the loop never
    enters.  In every run from a new object no operation is ever
    started and no promise is ever settled; all that is scheduled
    stays in the queue. *)
Theorem run_never_starts
    (cfg : PerformanceOptimizer.config)
    (evs : list PerformanceOptimizer.event)
    (st : PerformanceOptimizer.state) :
  PerformanceOptimizer.batchSize cfg <= 0
  \/ PerformanceOptimizer.maxConcurrentOperations cfg <= 0 ->
  PerformanceOptimizer.run cfg evs PerformanceOptimizer.new = Some st ->
  PerformanceOptimizer.running st = []
  /\ PerformanceOptimizer.settled st = []
  /\ length (PerformanceOptimizer.queue st)
     = PerformanceOptimizer.scheduled evs.
Proof.
  intros Hcfg Hrun.
  destruct (run_starts_nothing cfg evs PerformanceOptimizer.new st Hcfg)
    as ((Hr & Hs & _) & Hnone); [done|done|].
  destruct (run_total cfg evs PerformanceOptimizer.new st Hrun) as [Hsum _].
  rewrite Hr, Hs, Hnone in Hsum. cbn in Hsum. repeat split; [done|done|lia].
Qed.

Lemma run_never_starts_empty_batches :
  exists st,
    PerformanceOptimizer.run PerformanceOptimizer.emptyBatches
      (PerformanceOptimizer.submit 0 3
       ++ [PerformanceOptimizer.Resume; PerformanceOptimizer.Resume])
      PerformanceOptimizer.new = Some st
    /\ PerformanceOptimizer.running st = []
    /\ length (PerformanceOptimizer.queue st) = 3%nat.
Proof.
  eexists. split; [vm_compute; reflexivity|].
  edestruct (run_never_starts PerformanceOptimizer.emptyBatches
               (PerformanceOptimizer.submit 0 3
                ++ [PerformanceOptimizer.Resume; PerformanceOptimizer.Resume]))
    as (Hr & _ & Hq).
  - left. cbn. lia.
  - vm_compute. reflexivity.
  - split; [exact Hr|exact Hq].
Defined.

(** X25.  With a positive batch size and a positive concurrency limit
    the queue cannot get stuck: after every run from a new object
    there are further steps of the object itself (operations settling,
    the loop resuming, setImmediate callbacks; no new call from outside
    and no operation abandoned) after which the queue is empty, nothing
    is running, processQueue has ended, and every operation that was
    scheduled has had its promise settled, but for those abandoned
    during the run. *)
Theorem queue_drains
    (cfg : PerformanceOptimizer.config)
    (evs : list PerformanceOptimizer.event)
    (st : PerformanceOptimizer.state) :
  0 < PerformanceOptimizer.maxConcurrentOperations cfg ->
  0 < PerformanceOptimizer.batchSize cfg ->
  PerformanceOptimizer.run cfg evs PerformanceOptimizer.new = Some st ->
  exists more st',
    Forall PerformanceOptimizer.finishing more
    /\ PerformanceOptimizer.run cfg more st = Some st'
    /\ PerformanceOptimizer.queue st' = []
    /\ PerformanceOptimizer.running st' = []
    /\ PerformanceOptimizer.activeOperations st' = 0
    /\ PerformanceOptimizer.isProcessing st' = false
    /\ (length (PerformanceOptimizer.settled st')
        + PerformanceOptimizer.abandoned evs
        = PerformanceOptimizer.scheduled evs)%nat.
Proof.
  intros Hmax Hbatch Hrun.
  assert (Harmed : PerformanceOptimizer.armed PerformanceOptimizer.new)
    by (split; cbn; done).
  destruct (run_armed cfg evs _ st (new_consistent cfg) Harmed Hrun)
    as [Hc Ha].
  destruct (queue_drains_from cfg Hmax Hbatch st Hc Ha)
    as (more & st' & Hint & Hmore & Hq & Hr & Hp).
  exists more, st'.
  assert (Hall : PerformanceOptimizer.run cfg (evs ++ more)
                   PerformanceOptimizer.new = Some st')
    by (by rewrite run_app, Hrun).
  destruct (run_total cfg _ _ _ Hall) as [Hsum _].
  destruct (run_armed cfg _ _ _ (new_consistent cfg) Harmed Hall)
    as [(Hact & _) _].
  destruct (finishing_adds_none more Hint) as [Hs0 Ha0].
  rewrite scheduled_app, abandoned_app, Hs0, Ha0, Hq, Hr in Hsum.
  cbn in Hsum. rewrite Hr in Hact.
  repeat split; try done. lia.
Qed.

Lemma queue_drains_second_batch :
  exists st more st',
    PerformanceOptimizer.run PerformanceOptimizer.fourAtATime
      PerformanceOptimizer.secondBatch PerformanceOptimizer.new = Some st
    /\ PerformanceOptimizer.run PerformanceOptimizer.fourAtATime more st
       = Some st'
    /\ PerformanceOptimizer.queue st' = []
    /\ (length (PerformanceOptimizer.settled st') + 0 = 25)%nat.
Proof.
  eexists.
  edestruct (queue_drains PerformanceOptimizer.fourAtATime
               PerformanceOptimizer.secondBatch)
    as (more & st' & _ & Hmore & Hq & _ & _ & _ & Hsettled).
  - cbn. lia.
  - cbn. lia.
  - vm_compute. reflexivity.
  - exists more, st'. split; [vm_compute; reflexivity|].
    split; [exact Hmore|]. split; [exact Hq|exact Hsettled].
Defined.
